(** * GirlDetect: the dataset preparer and the detection wrapper

    A shallow embedding of [scripts/prepare_yolo_dataset.py] and
    [scripts/detect.py].  Paths follow [pathlib.PurePosixPath], the file
    system is a finite map from paths to nodes, and the scripts run in a
    state-and-exception monad, so that what is on disk when an exception
    propagates is part of the result. *)

From Stdlib Require Import ZArith Ascii String List Floats.SpecFloat.
From stdpp Require Import base option list gmap strings pretty sorting.

(** ** Python strings

    A [str] is a sequence of code points.  Paths, printed lines and the text
    of [data.yaml] are only joined, compared, and cut at ASCII characters:
    such a str is kept as its UTF-8 text, a [string], on which these
    operations are the same.  The text of [classes.txt] is looked at code
    point by code point: it is a [text], the list of its code points. *)

Module PyStr.

Definition chars : string -> list ascii := list_ascii_of_string.
Definition of_chars : list ascii -> string := string_of_list_ascii.

(** [str.lower], on the ASCII letters. *)
Definition lower_char (c : ascii) : ascii :=
  let n := N_of_ascii c in
  if ((65 <=? n) && (n <=? 90))%N then ascii_of_N (n + 32) else c.

Definition lower (s : string) : string := of_chars (map lower_char (chars s)).

(** A str as its code points; the str of an ASCII literal. *)
Abbreviation text := (list N).

Definition points (s : string) : text := N_of_ascii <$> chars s.

(** [bytes.decode('utf-8')] with strict errors: [None] stands for
    [UnicodeDecodeError].  A sequence is refused when a byte is missing or
    is no continuation byte, when it is longer than its code point needs,
    and when the code point is a surrogate or above U+10FFFF. *)
Definition is_cont (b : N) : bool := ((128 <=? b) && (b <? 192))%N.

Fixpoint decode_go (l : list N) : option text :=
  match l with
  | [] => Some []
  | b0 :: l1 =>
      if (b0 <? 128)%N then cons b0 <$> decode_go l1
      else if ((194 <=? b0) && (b0 <? 224))%N then
        match l1 with
        | b1 :: l2 =>
            if is_cont b1
            then cons ((b0 - 192) * 64 + (b1 - 128))%N <$> decode_go l2
            else None
        | _ => None
        end
      else if ((224 <=? b0) && (b0 <? 240))%N then
        match l1 with
        | b1 :: b2 :: l3 =>
            let c := ((b0 - 224) * 4096 + (b1 - 128) * 64 + (b2 - 128))%N in
            if is_cont b1 && is_cont b2 && (2048 <=? c)%N
               && negb ((55296 <=? c) && (c <? 57344))%N
            then cons c <$> decode_go l3
            else None
        | _ => None
        end
      else if ((240 <=? b0) && (b0 <? 245))%N then
        match l1 with
        | b1 :: b2 :: b3 :: l4 =>
            let c := ((b0 - 240) * 262144 + (b1 - 128) * 4096
                      + (b2 - 128) * 64 + (b3 - 128))%N in
            if is_cont b1 && is_cont b2 && is_cont b3
               && (65536 <=? c)%N && (c <? 1114112)%N
            then cons c <$> decode_go l4
            else None
        | _ => None
        end
      else None
  end.

Definition decode (s : string) : option text := decode_go (N_of_ascii <$> chars s).

(** [str.encode('utf-8')], for a str without surrogates. *)
Definition encode_point (c : N) : list N :=
  if (c <? 128)%N then [c]
  else if (c <? 2048)%N then [192 + c / 64; 128 + c mod 64]%N
  else if (c <? 65536)%N then [224 + c / 4096; 128 + (c / 64) mod 64; 128 + c mod 64]%N
  else [240 + c / 262144; 128 + (c / 4096) mod 64; 128 + (c / 64) mod 64;
        128 + c mod 64]%N.

Definition encode (t : text) : string := of_chars (ascii_of_N <$> (t ≫= encode_point)).

(** Reading in text mode with universal newlines: [\r\n] and [\r] are read
    as [\n]. *)
Fixpoint universal_newlines (t : text) : text :=
  match t with
  | [] => []
  | c :: t' =>
      if (c =? 13)%N then
        10%N :: match t' with
                | c' :: t'' =>
                    if (c' =? 10)%N then universal_newlines t'' else universal_newlines t'
                | [] => []
                end
      else c :: universal_newlines t'
  end.

(** [str.isspace] on one code point: tab to carriage return, the four
    separators U+001C to U+001F, the space, U+0085, U+00A0, U+1680, U+2000
    to U+200A, U+2028, U+2029, U+202F, U+205F and U+3000. *)
Definition is_space (c : N) : bool :=
  (((9 <=? c) && (c <=? 13)) || ((28 <=? c) && (c <=? 32)) || (c =? 133) || (c =? 160)
   || (c =? 5760) || ((8192 <=? c) && (c <=? 8202)) || (c =? 8232) || (c =? 8233)
   || (c =? 8239) || (c =? 8287) || (c =? 12288))%N.

Fixpoint lstrip (t : text) : text :=
  match t with
  | c :: t' => if is_space c then lstrip t' else t
  | [] => []
  end.

(** [str.strip()] with no argument. *)
Definition strip (t : text) : text := rev (lstrip (rev (lstrip t))).

(** The line boundaries of [str.splitlines]: newline to carriage return,
    U+001C to U+001E, U+0085, U+2028 and U+2029. *)
Definition is_linebreak (c : N) : bool :=
  (((10 <=? c) && (c <=? 13)) || ((28 <=? c) && (c <=? 30)) || (c =? 133)
   || (c =? 8232) || (c =? 8233))%N.

(** [splitlines_go cur t]: [cur] is the current line, reversed.  A carriage
    return directly followed by a newline is one boundary; the text after
    the last boundary is a line only when it is not empty. *)
Fixpoint splitlines_go (cur : text) (t : text) : list text :=
  match t with
  | [] => match cur with [] => [] | _ => [rev cur] end
  | c :: t' =>
      if is_linebreak c then
        rev cur ::
        (if (c =? 13)%N then
           match t' with
           | c' :: t'' =>
               if (c' =? 10)%N then splitlines_go [] t'' else splitlines_go [] t'
           | [] => []
           end
         else splitlines_go [] t')
      else splitlines_go (c :: cur) t'
  end.

Definition splitlines (t : text) : list text := splitlines_go [] t.

(** [s.split(sep)] for a one-character separator. *)
Fixpoint split_go (sep : ascii) (cur : list ascii) (l : list ascii) : list string :=
  match l with
  | [] => [of_chars (rev cur)]
  | c :: l' =>
      if Ascii.eqb c sep then of_chars (rev cur) :: split_go sep [] l'
      else split_go sep (c :: cur) l'
  end.

Definition split (sep : ascii) (s : string) : list string := split_go sep [] (chars s).

(** [sep.join(l)]. *)
Fixpoint join (sep : string) (l : list string) : string :=
  match l with
  | [] => ""
  | [x] => x
  | x :: l' => x +:+ sep +:+ join sep l'
  end.

(** [s.startswith(p)]. *)
Definition startswith (s p : string) : bool := String.prefix p s.

(** [s.rfind(c)]: the index of the last occurrence, [None] for Python's -1. *)
Fixpoint rfind_go (c : ascii) (i : nat) (l : list ascii) : option nat :=
  match l with
  | [] => None
  | d :: l' =>
      match rfind_go c (S i) l' with
      | Some j => Some j
      | None => if Ascii.eqb d c then Some i else None
      end
  end.

Definition rfind (c : ascii) (s : string) : option nat := rfind_go c 0 (chars s).

(** The slices [s[:i]] and [s[i:]]. *)
Definition take (i : nat) (s : string) : string := of_chars (firstn i (chars s)).
Definition drop (i : nat) (s : string) : string := of_chars (skipn i (chars s)).

End PyStr.

(** ** [pathlib.PurePosixPath]

    A path is its tuple of parts, [p.parts]: for an absolute path the first
    part is the anchor, [/] or [//]. *)

Abbreviation path := (list string).

Module Pathlib.

Definition is_anchor (s : string) : bool :=
  bool_decide (s = "/") || bool_decide (s = "//").

Definition anchor (p : path) : string :=
  match p with
  | a :: _ => if is_anchor a then a else ""
  | [] => ""
  end.

(** The parts after the anchor. *)
Definition tail_parts (p : path) : list string :=
  match p with
  | a :: r => if is_anchor a then r else p
  | [] => []
  end.

(** [Path(s)]: the number of leading slashes gives the anchor (exactly two
    are kept, any other positive number is one), empty components and [.]
    are dropped, [..] is kept. *)
Definition parse_anchor (s : string) : list string :=
  if PyStr.startswith s "/" then
    if PyStr.startswith s "//" && negb (PyStr.startswith s "///") then ["//"] else ["/"]
  else [].

Definition parse (s : string) : path :=
  parse_anchor s ++ filter (fun c => c <> "" /\ c <> ".") (PyStr.split "/"%char s).

(** [str(p)]. *)
Definition str (p : path) : string :=
  match p with
  | [] => "."
  | _ => anchor p +:+ PyStr.join "/" (tail_parts p)
  end.

(** [p.name]: the last part, empty for a bare anchor. *)
Definition name (p : path) : string := List.last (tail_parts p) "".

(** [p.parent]: a path without a name is its own parent. *)
Definition parent (p : path) : path :=
  match tail_parts p with
  | [] => p
  | _ => removelast p
  end.

(** [p / s]: an absolute right operand replaces the left one. *)
Definition joinpath (p : path) (s : string) : path :=
  let q := parse s in
  if decide (anchor q = "") then p ++ q else q.

(** Where the suffix of a name starts: the last dot, when it is neither the
    first nor the last character. *)
Definition suffix_index (nm : string) : option nat :=
  match PyStr.rfind "."%char nm with
  | Some i => if ((0 <? i) && (i <? String.length nm - 1))%nat then Some i else None
  | None => None
  end.

(** [p.suffix] and [p.stem]. *)
Definition suffix (p : path) : string :=
  match suffix_index (name p) with
  | Some i => PyStr.drop i (name p)
  | None => ""
  end.

Definition stem (p : path) : string :=
  match suffix_index (name p) with
  | Some i => PyStr.take i (name p)
  | None => name p
  end.

(** [p.with_suffix(suf)] for a well-formed [suf]: raises (here [None]) on a
    path with an empty name. *)
Definition with_suffix (p : path) (suf : string) : option path :=
  if decide (name p = "") then None
  else Some (removelast p ++ [stem p +:+ suf]).

(** The order of [PurePosixPath]: the tuples of parts, compared as Python
    compares sequences of strings. *)
Fixpoint compare (l1 l2 : path) : comparison :=
  match l1, l2 with
  | [], [] => Eq
  | [], _ :: _ => Lt
  | _ :: _, [] => Gt
  | x :: l1', y :: l2' =>
      match String.compare x y with
      | Eq => compare l1' l2'
      | c => c
      end
  end.

Definition le (p q : path) : Prop := compare p q <> Gt.

(** What a directory entry can be called: a non-empty string other than [.]
    and without a slash. *)
Definition is_name (s : string) : Prop :=
  s <> "" /\ s <> "." /\ "/"%char ∉ PyStr.chars s.

Global Instance is_name_dec s : Decision (is_name s).
Proof. unfold is_name. apply _. Defined.

Global Instance le_dec p q : Decision (le p q).
Proof. unfold le. apply _. Defined.

End Pathlib.

Notation "p // s" := (Pathlib.joinpath p s) (at level 40, left associativity).

(** ** Python floats

    A [float] is an IEEE 754 binary64 number, with the operations of the
    Standard Library's executable specification. *)

Module PyFloat.

Definition prec : Z := 53.
Definition emax : Z := 1024.

Abbreviation float := spec_float.

(** The conversion of an [int] operand of a float operation: rounded to the
    nearest float, [None] (an [OverflowError]) when out of range. *)
Definition of_int (n : Z) : option float :=
  match binary_normalize prec emax n 0 false with
  | S754_infinity _ | S754_nan => None
  | x => Some x
  end.

Definition mul : float -> float -> float := SFmul prec emax.

(** [n * x] for an [int] [n] and a [float] [x]. *)
Definition int_mul (n : Z) (x : float) : option float :=
  match of_int n with
  | Some fn => Some (mul fn x)
  | None => None
  end.

(** The integer part of a finite float, rounded toward zero ([int(x)]) and
    toward minus infinity ([math.floor(x)]); [None] on NaN and infinities. *)
Definition trunc (x : float) : option Z :=
  match x with
  | S754_zero _ => Some 0%Z
  | S754_finite s m e => Some (cond_Zopp s (Z.shiftl (Zpos m) e))
  | _ => None
  end.

Definition floor (x : float) : option Z :=
  match x with
  | S754_zero _ => Some 0%Z
  | S754_finite s m e => Some (Z.shiftl (cond_Zopp s (Zpos m)) e)
  | _ => None
  end.

End PyFloat.

(** ** The run-time library

    What the scripts take from the interpreter: the generator behind
    [random.seed] and [random.shuffle], and [repr] on strings.  The
    generator is any state type with [_randbelow], which returns a number
    below its positive argument. *)

Class PyRuntime := {
  rng : Type;
  rng_seed : Z -> rng;
  randbelow : nat -> rng -> nat * rng;
  randbelow_lt : forall n g, 0 < n -> (randbelow n g).1 < n;
  repr_str : PyStr.text -> string
}.

(** ** Exceptions, the file system and the state monad *)

Inductive exn :=
  | FileNotFoundError
  | IsADirectoryError
  | NotADirectoryError
  | FileExistsError
  | SameFileError
  | ValueError
  | OverflowError
  | ConnectionError
  | HTTPError
  | CvError
  | ModelError
  | UnicodeDecodeError.

Global Instance exn_eq_dec : EqDecision exn.
Proof. solve_decision. Defined.

(** A node is a regular file with its text, or a directory.  Links are not
    modelled: two paths name the same file only when they are equal. *)
Inductive node :=
  | File (content : string)
  | Dir.

Global Instance node_eq_dec : EqDecision node.
Proof. solve_decision. Defined.

Record state := State { fs : gmap path node; stdout : list string }.

Definition M (A : Type) : Type := state -> (exn + A) * state.

Definition ret {A} (a : A) : M A := fun st => (inr a, st).

Definition raise {A} (e : exn) : M A := fun st => (inl e, st).

Definition bind {A B} (m : M A) (k : A -> M B) : M B :=
  fun st =>
    match m st with
    | (inr a, st') => k a st'
    | (inl e, st') => (inl e, st')
    end.

(** A computation that touches no state: its value is returned, its
    exception raised. *)
Definition lift {A} (r : exn + A) : M A :=
  match r with
  | inl e => raise e
  | inr a => ret a
  end.

(** [try: m except e: h e]. *)
Definition catch {A} (m : M A) (h : exn -> M A) : M A :=
  fun st =>
    match m st with
    | (inl e, st') => h e st'
    | r => r
    end.

Notation "x <- c ;; k" := (bind c (fun x => k))
  (at level 100, c at next level, right associativity).
Notation "c ;;; k" := (bind c (fun _ => k))
  (at level 100, right associativity).

(** A [for] loop that threads its local variables [acc]. *)
Fixpoint for_each {A B} (body : B -> A -> M B) (l : list A) (acc : B) : M B :=
  match l with
  | [] => ret acc
  | x :: l' => acc' <- body acc x ;; for_each body l' acc'
  end.

Definition print (line : string) : M unit :=
  fun st => (inr tt, State (fs st) (stdout st ++ [line])).

Definition get_fs : M (gmap path node) := fun st => (inr (fs st), st).

Definition put_fs (m : gmap path node) : M unit :=
  fun st => (inr tt, State m (stdout st)).

Definition newline : string := String "010" "".

Module OS.

(** [p.exists()] and [p.is_dir()]. *)
Definition exists_ (p : path) : M bool :=
  m <- get_fs ;; ret (bool_decide (is_Some (m !! p))).

Definition is_dir (p : path) : M bool :=
  m <- get_fs ;; ret (bool_decide (m !! p = Some Dir)).

(** The entries of directory [d]: the paths one part longer than [d]. *)
Definition is_child (d q : path) : Prop :=
  Pathlib.tail_parts q <> [] /\ removelast q = d.

Global Instance is_child_dec d q : Decision (is_child d q).
Proof. unfold is_child. apply _. Defined.

Definition children (m : gmap path node) (d : path) : list path :=
  filter (is_child d) (map_to_list m).*1.

(** [p.iterdir()], consumed to the end; the order is the operating
    system's and means nothing. *)
Definition iterdir (d : path) : M (list path) :=
  m <- get_fs ;;
  match m !! d with
  | Some Dir => ret (children m d)
  | Some (File _) => raise NotADirectoryError
  | None => raise FileNotFoundError
  end.

(** [os.mkdir(p)]. *)
Definition mkdir (p : path) : M unit :=
  m <- get_fs ;;
  match m !! p with
  | Some _ => raise FileExistsError
  | None =>
      match m !! Pathlib.parent p with
      | Some Dir => put_fs (<[p := Dir]> m)
      | Some (File _) => raise NotADirectoryError
      | None => raise FileNotFoundError
      end
  end.

(** Reading the whole of a file opened for reading. *)
Definition read (p : path) : M string :=
  m <- get_fs ;;
  match m !! p with
  | Some (File c) => ret c
  | Some Dir => raise IsADirectoryError
  | None => raise FileNotFoundError
  end.

(** [p.read_text(encoding='utf-8')]: the bytes are decoded, and the
    newlines translated as text mode does. *)
Definition read_text (p : path) : M PyStr.text :=
  bytes <- read p ;;
  match PyStr.decode bytes with
  | Some t => ret (PyStr.universal_newlines t)
  | None => raise UnicodeDecodeError
  end.

(** Opening [p] for writing, writing [c] and closing. *)
Definition write (p : path) (c : string) : M unit :=
  m <- get_fs ;;
  match m !! p with
  | Some Dir => raise IsADirectoryError
  | _ =>
      match m !! Pathlib.parent p with
      | Some Dir => put_fs (<[p := File c]> m)
      | Some (File _) => raise NotADirectoryError
      | None => raise FileNotFoundError
      end
  end.

End OS.

(** [p.mkdir(exist_ok=True)]: a missing parent is an error, any other
    failure of [os.mkdir] is forgiven when [p] is a directory. *)
Definition mkdir_exist_ok (p : path) : M unit :=
  catch (OS.mkdir p)
        (fun e =>
           match e with
           | FileNotFoundError => raise e
           | _ => d <- OS.is_dir p ;; if d : bool then ret tt else raise e
           end).

(** [p.mkdir(parents=True, exist_ok=True)], by recursion on [chain], which
    is [p] followed by its ancestors: [os.mkdir] is tried; when the parent
    is missing, the parent is made in the same way and [p] is made with
    [parents=False]. *)
Fixpoint mkdir_parents_go (chain : list path) : M unit :=
  match chain with
  | [] => raise FileNotFoundError
  | p :: up =>
      catch (OS.mkdir p)
            (fun e =>
               match e with
               | FileNotFoundError =>
                   if decide (Pathlib.parent p = p) then raise e
                   else mkdir_parents_go up ;;; mkdir_exist_ok p
               | _ => d <- OS.is_dir p ;; if d : bool then ret tt else raise e
               end)
  end.

(** [p], [p.parent], [p.parent.parent], ... down to the path without name. *)
Fixpoint ancestors_go (n : nat) (p : path) : list path :=
  match n with
  | O => [p]
  | S n' => p :: if decide (Pathlib.parent p = p) then [] else ancestors_go n' (Pathlib.parent p)
  end.

Definition mkdir_parents (p : path) : M unit :=
  mkdir_parents_go (ancestors_go (length p) p).

(** [shutil.copy2(src, dst)]: into [dst] when it is a directory; refuses to
    copy a file onto itself; the file's metadata is not modelled. *)
Definition copy2_target (m : gmap path node) (src dst : path) : path :=
  if decide (m !! dst = Some Dir) then dst // Pathlib.name src else dst.

Definition copy2 (src dst : path) : M unit :=
  m <- get_fs ;;
  let dst' := copy2_target m src dst in
  if decide (src = dst' /\ is_Some (m !! src)) then raise SameFileError
  else c <- OS.read src ;; OS.write dst' c.

(** ** [scripts/prepare_yolo_dataset.py] *)

Module Prepare.

Section WithRuntime.
Context `{PyRuntime}.

Definition exts : list string := [".jpg"; ".jpeg"; ".png"].

Definition is_image (p : path) : Prop := PyStr.lower (Pathlib.suffix p) ∈ exts.

Global Instance is_image_dec p : Decision (is_image p).
Proof. unfold is_image. apply _. Defined.

Definition find_images (src : path) : M (list path) :=
  entries <- OS.iterdir src ;;
  ret (filter is_image entries).

Definition read_classes (src : path) : M (option (list PyStr.text)) :=
  let cls_file := src // "classes.txt" in
  present <- OS.exists_ cls_file ;;
  if negb present then ret None
  else
    text <- OS.read_text cls_file ;;
    ret (Some (PyStr.strip <$> filter (fun l => PyStr.strip l <> []) (PyStr.splitlines text))).

Definition prepare_dirs (dest : path) : M unit :=
  mkdir_parents (dest // "images" // "train") ;;;
  mkdir_parents (dest // "images" // "val") ;;;
  mkdir_parents (dest // "labels" // "train") ;;;
  mkdir_parents (dest // "labels" // "val").

(** The body of the loop of [copy_pairs], on the locals [copied] and
    [missing_labels]. *)
Definition copy_pair (images_dst labels_dst : path)
    (acc : nat * list string) (img : path) : M (nat * list string) :=
  let '(copied, missing_labels) := acc in
  match Pathlib.with_suffix img ".txt" with
  | None => raise ValueError
  | Some txt =>
      let dst_img := images_dst // Pathlib.name img in
      copy2 img dst_img ;;;
      present <- OS.exists_ txt ;;
      if present : bool then
        let dst_txt := labels_dst // Pathlib.name txt in
        copy2 txt dst_txt ;;;
        ret (S copied, missing_labels)
      else
        ret (S copied, missing_labels ++ [Pathlib.name img])
  end.

Definition copy_pairs (pairs : list path) (images_dst labels_dst : path)
    : M (nat * list string) :=
  for_each (copy_pair images_dst labels_dst) pairs (0, []).

(** The text of a list of strs inside an f-string. *)
Definition repr_list (l : list PyStr.text) : string :=
  "[" +:+ PyStr.join ", " (repr_str <$> l) +:+ "]".

Definition data_yaml (dest : path) (nc : nat) (names : list PyStr.text) : string :=
  "train: " +:+ Pathlib.str (dest // "images" // "train") +:+ newline +:+
  "val: " +:+ Pathlib.str (dest // "images" // "val") +:+ newline +:+
  "nc: " +:+ pretty nc +:+ newline +:+
  "names: " +:+ repr_list names +:+ newline.

Definition write_data_yaml (dest : path) (nc : nat) (names : list PyStr.text) : M unit :=
  OS.write (dest // "data.yaml") (data_yaml dest nc names).

(** [x[i], x[j] = x[j], x[i]]. *)
Definition swap {A} (x : list A) (i j : nat) : list A :=
  match x !! i, x !! j with
  | Some xi, Some xj => <[j := xi]> (<[i := xj]> x)
  | _, _ => x
  end.

(** [random.shuffle(x)]: for [i] from [len(x) - 1] down to 1, exchange
    [x[i]] with [x[randbelow(i + 1)]]. *)
Fixpoint shuffle_go {A} (i : nat) (x : list A) (g : rng) : list A * rng :=
  match i with
  | O => (x, g)
  | S i' =>
      let '(j, g') := randbelow (S i) g in
      shuffle_go i' (swap x i j) g'
  end.

Definition shuffle {A} (x : list A) (g : rng) : list A * rng :=
  shuffle_go (length x - 1) x g.

(** The parsed command line; [src] and [dest] are the paths after
    [expanduser().resolve()]. *)
Record args := Args {
  arg_src : path;
  arg_dest : path;
  arg_val : PyFloat.float;
  arg_seed : Z
}.

(** [max(1, int(n * val))]: [ValueError] on NaN, [OverflowError] on an
    infinity. *)
Definition n_val (n : nat) (val : PyFloat.float) : exn + nat :=
  match PyFloat.int_mul (Z.of_nat n) val with
  | None => inl OverflowError
  | Some S754_nan => inl ValueError
  | Some x =>
      match PyFloat.trunc x with
      | None => inl OverflowError
      | Some k => inr (Z.to_nat (Z.max 1 k))
      end
  end.

(** Lines 96-100 of [main]: the split of the images found, from the state
    [g] of the generator; the result is [(val_imgs, train_imgs)]. *)
Definition split (imgs : list path) (val : PyFloat.float) (g : rng)
    : exn + list path * list path :=
  let imgs_sorted := merge_sort Pathlib.le imgs in
  let imgs_sorted := (shuffle imgs_sorted g).1 in
  match n_val (length imgs_sorted) val with
  | inl e => inl e
  | inr n => inr (take n imgs_sorted, drop n imgs_sorted)
  end.

(** The last lines of [main], from the summary on. *)
Definition summary (dest : path) (total copied_train copied_val : nat)
    (missing_train missing_val : list string) : M unit :=
  print (newline +:+ "Summary:") ;;;
  print ("Total images: " +:+ pretty total) ;;;
  print ("Train images copied: " +:+ pretty copied_train +:+ "  (missing labels: "
         +:+ pretty (length missing_train) +:+ " )") ;;;
  print ("Val images copied: " +:+ pretty copied_val +:+ "  (missing labels: "
         +:+ pretty (length missing_val) +:+ " )") ;;;
  (match missing_train ++ missing_val with
   | [] => ret tt
   | ms =>
       print (newline +:+ "Images missing label files:") ;;;
       for_each (fun _ m => print (" - " +:+ m)) ms tt
   end) ;;;
  print (newline +:+ "Wrote: " +:+ Pathlib.str (dest // "data.yaml")) ;;;
  print "Done.".

Definition warning : string :=
  "Warning: classes.txt not found in source. Please create it with one class per line.".

(** [main] from line 94 on, with the images found and the class names. *)
Definition prepare (a : args) (imgs : list path) (classes : list PyStr.text) : M unit :=
  let dest := arg_dest a in
  prepare_dirs dest ;;;
  parts <- lift (split imgs (arg_val a) (rng_seed (arg_seed a))) ;;
  let '(val_imgs, train_imgs) := parts in
  train <- copy_pairs train_imgs (dest // "images" // "train") (dest // "labels" // "train") ;;
  val <- copy_pairs val_imgs (dest // "images" // "val") (dest // "labels" // "val") ;;
  write_data_yaml dest (length classes) classes ;;;
  summary dest (length imgs) train.1 val.1 train.2 val.2.

Definition main (a : args) : M unit :=
  let src := arg_src a in
  let dest := arg_dest a in
  print ("Source: " +:+ Pathlib.str src) ;;;
  print ("Destination: " +:+ Pathlib.str dest) ;;;
  imgs <- find_images src ;;
  match imgs with
  | [] => print ("No images found in " +:+ Pathlib.str src)
  | _ =>
      classes <- read_classes src ;;
      classes <- match classes with
                 | None => print warning ;;; ret []
                 | Some c => ret c
                 end ;;
      prepare a imgs classes
  end.

End WithRuntime.

End Prepare.

(** ** [scripts/detect.py] *)

(** What [requests.get] gives: no response at all (the request raises), or
    the final response with its status and body. *)
Inductive http_reply :=
  | Unreachable
  | Reply (status : Z) (content : string).

(** The libraries behind the detection script: the HTTP client, OpenCV's
    codecs and the detection model.  [imdecode] may raise or return [None];
    [imencode] picks the format from the file name and raises when it knows
    none; [box_line] is the line printed for a box. *)
Class Vision := {
  image : Type;
  model : Type;
  results : Type;
  box : Type;
  http_get : string -> http_reply;
  imdecode : string -> exn + option image;
  imencode : string -> image -> exn + string;
  load_model : string -> exn + model;
  predict : model -> image -> PyFloat.float -> exn + results;
  plot : results -> image;
  boxes : results -> list box;
  box_line : results -> box -> string
}.

Module Detect.

Section WithVision.
Context `{Vision}.

Definition is_url (path : string) : bool :=
  PyStr.startswith path "http://" || PyStr.startswith path "https://".

(** [response.raise_for_status()]: raises on the client and server error
    statuses, 400 to 599. *)
Definition raise_for_status (status : Z) : M unit :=
  if ((400 <=? status) && (status <? 600))%Z then raise HTTPError else ret tt.

Definition load_image_from_url (url : string) : M (option image) :=
  match http_get url with
  | Unreachable => raise ConnectionError
  | Reply status content =>
      raise_for_status status ;;;
      lift (imdecode content)
  end.

(** [cv2.imread(s)]: [None] when the file is missing or does not decode. *)
Definition imread (s : string) : M (option image) :=
  m <- get_fs ;;
  match m !! Pathlib.parse s with
  | Some (File c) =>
      match imdecode c with
      | inr img => ret img
      | inl _ => ret None
      end
  | _ => ret None
  end.

(** [cv2.imwrite(s, img)]: raises when no encoder fits the name; a file that
    cannot be opened is reported by the return value. *)
Definition imwrite (s : string) (img : image) : M bool :=
  data <- lift (imencode s img) ;;
  catch (OS.write (Pathlib.parse s) data ;;; ret true) (fun _ => ret false).

Definition detect_and_annotate (image_path model_path : string) (conf : PyFloat.float)
    : M (image * results) :=
  model <- lift (load_model model_path) ;;
  img <- (if is_url image_path then
            img <- load_image_from_url image_path ;;
            match img with
            | None => raise ValueError
            | Some img => ret img
            end
          else
            img <- imread image_path ;;
            match img with
            | None => raise ValueError
            | Some img => ret img
            end) ;;
  results <- lift (predict model img conf) ;;
  let annotated_img := plot results in
  ret (annotated_img, results).

Definition check_mark : string := String "226" (String "156" (String "133" "")).
Definition floppy_disk : string :=
  String "240" (String "159" (String "146" (String "190" ""))).

(** The default output path of [detect_and_save], as the string that
    [str(output_path)] gives. *)
Definition default_output (image_path : string) : string :=
  if is_url image_path then Pathlib.str (Pathlib.parse "url_detected.jpg")
  else
    let image_path_obj := Pathlib.parse image_path in
    Pathlib.str (Pathlib.parent image_path_obj //
                 (Pathlib.stem image_path_obj +:+ "_detected" +:+ Pathlib.suffix image_path_obj)).

Definition detect_and_save (image_path : string) (output_path : option string)
    (model_path : string) (conf : PyFloat.float) : M (string * results) :=
  let output_path :=
    match output_path with
    | None => default_output image_path
    | Some s => s
    end in
  r <- detect_and_annotate image_path model_path conf ;;
  let '(annotated_img, results) := r in
  imwrite output_path annotated_img ;;;
  let boxes := boxes results in
  let img_name :=
    if is_url image_path then image_path else Pathlib.name (Pathlib.parse image_path) in
  print (newline +:+ check_mark +:+ " Detected " +:+ pretty (length boxes)
         +:+ " objects in " +:+ img_name) ;;;
  for_each (fun _ b => print (box_line results b)) boxes tt ;;;
  print (floppy_disk +:+ " Saved to: " +:+ output_path +:+ newline) ;;;
  ret (output_path, results).

End WithVision.

End Detect.

(** A stand-in for the libraries: every URL answers [300 Multiple Choices]
    with a body that decodes, images are their bytes and the model finds no
    box. *)
Definition redirecting_vision : Vision := {|
  image := string;
  model := unit;
  results := string;
  box := unit;
  http_get := fun _ => Reply 300 "JFIF";
  imdecode := fun c => inr (Some c);
  imencode := fun _ img => inr img;
  load_model := fun _ => inr tt;
  predict := fun _ img _ => inr img;
  plot := fun r => r;
  boxes := fun _ => [];
  box_line := fun _ _ => ""
|}.

(** The same with a server that answers [404 Not Found]. *)
Definition failing_vision : Vision := {|
  image := string;
  model := unit;
  results := string;
  box := unit;
  http_get := fun _ => Reply 404 "";
  imdecode := fun c => inr (Some c);
  imencode := fun _ img => inr img;
  load_model := fun _ => inr tt;
  predict := fun _ img _ => inr img;
  plot := fun r => r;
  boxes := fun _ => [];
  box_line := fun _ _ => ""
|}.

(** A working directory holding [photos/cat.jpg]. *)
Definition cwd_fs : gmap path node :=
  <[ ["photos"; "cat.jpg"] := File "JFIF" ]> (<[ ["photos"] := Dir ]> {[ [] := Dir ]}).

(** ** A concrete run-time, to run the model

    A linear congruential generator stands for the interpreter's generator;
    [repr] puts a string between single quotes. *)

Definition lcg_next (g : N) : N := ((g * 1103515245 + 12345) mod 2147483648)%N.

Definition lcg_randbelow (n : nat) (g : N) : nat * N :=
  (N.to_nat (g mod N.of_nat n)%N, lcg_next g).

Lemma lcg_randbelow_lt n g : 0 < n -> (lcg_randbelow n g).1 < n.
Proof.
  intros Hn. unfold lcg_randbelow. simpl.
  assert (g mod N.of_nat n < N.of_nat n)%N by (apply N.mod_lt; lia).
  lia.
Qed.

Definition lcg_runtime : PyRuntime := {|
  rng := N;
  rng_seed := fun z => Z.to_N (Z.abs z);
  randbelow := lcg_randbelow;
  randbelow_lt := lcg_randbelow_lt;
  repr_str := fun s => "'" +:+ PyStr.encode s +:+ "'"
|}.

(** A source directory [/raw] and an empty destination [/out]. *)
Definition raw : path := ["/"; "raw"].
Definition out : path := ["/"; "out"].

Definition dir_of (d : path) (files : list (string * string)) : gmap path node :=
  list_to_map ((fun nc => (d ++ [nc.1], File nc.2)) <$> files).

Definition sample_fs : gmap path node :=
  <[ ["/"] := Dir ]> (<[ raw := Dir ]>
    (dir_of raw [("a.jpg", "A"); ("a.txt", "0 .5 .5 .1 .1"); ("b.PNG", "B");
                 ("c.jpeg", "C"); ("c.txt", "1 .5 .5 .2 .2"); ("notes.md", "n");
                 ("classes.txt", "cat" +:+ newline +:+ " dog " +:+ newline +:+ newline)])).

Definition float_of_Z (num : Z) (e : Z) : PyFloat.float :=
  binary_normalize PyFloat.prec PyFloat.emax num e false.

Definition sample_args : Prepare.args :=
  Prepare.Args raw out (float_of_Z 1 (-2)) 42.

(** ** The split in the words of the specification

    [splitTrainVal(images, valFraction, seed)]: sort the images by name,
    shuffle with the seeded generator, take the first
    [max(1, floor(n * valFraction))] as validation and the remainder as
    train.  The result is [(val, train)], [None] where [n * valFraction] has
    no floor. *)

Module Spec.

Section WithRuntime.
Context `{PyRuntime}.

Definition val_count (n : nat) (valFraction : PyFloat.float) : option Z :=
  match PyFloat.int_mul (Z.of_nat n) valFraction with
  | Some x => Z.max 1 <$> PyFloat.floor x
  | None => None
  end.

(** [readClassNames]: one class name per line, blank lines skipped.  A
    line is what stands between two line boundaries, and it is blank when
    it holds white space only. *)
Fixpoint lines (t : PyStr.text) : list PyStr.text :=
  match t with
  | [] => [[]]
  | c :: t' =>
      if PyStr.is_linebreak c then [] :: lines t'
      else match lines t' with
           | l :: ls => (c :: l) :: ls
           | [] => [[c]]
           end
  end.

Definition blank (l : PyStr.text) : Prop := Forall (fun c => PyStr.is_space c = true) l.

Global Instance blank_dec l : Decision (blank l).
Proof. unfold blank. apply _. Defined.

Definition class_lines (t : PyStr.text) : list PyStr.text :=
  filter (fun l => ~ blank l) (lines t).

(** [trimmed l n]: [n] is the line [l] without the white space at its two
    ends. *)
Definition trimmed (l n : PyStr.text) : Prop :=
  exists pre post,
    l = pre ++ n ++ post /\ blank pre /\ blank post /\
    (forall c, head n = Some c -> PyStr.is_space c = false) /\
    (forall c, last n = Some c -> PyStr.is_space c = false).

Definition name_le (p q : path) : Prop :=
  String.compare (Pathlib.name p) (Pathlib.name q) <> Gt.

Global Instance name_le_dec p q : Decision (name_le p q).
Proof. unfold name_le. apply _. Defined.

Definition splitTrainVal (images : list path) (valFraction : PyFloat.float) (seed : Z)
    : option (list path * list path) :=
  let sorted := merge_sort name_le images in
  let shuffled := (Prepare.shuffle sorted (rng_seed seed)).1 in
  match val_count (length images) valFraction with
  | Some k => Some (take (Z.to_nat k) shuffled, drop (Z.to_nat k) shuffled)
  | None => None
  end.

End WithRuntime.

End Spec.

(** The one-image source used in the examples below. *)
Definition a_jpg : path := raw ++ ["a.jpg"].

Definition two : PyFloat.float := float_of_Z 2 0.

(** A source whose only entry is a directory called [album.jpg]. *)
Definition album_fs : gmap path node :=
  <[ raw ++ ["album.jpg"] := Dir ]> (<[ raw := Dir ]> {[ ["/"] := Dir ]}).

(** A source without images. *)
Definition notes_fs : gmap path node :=
  <[ raw ++ ["notes.md"] := File "n" ]> (<[ raw := Dir ]> {[ ["/"] := Dir ]}).

(** ** What a run may change

    [changes P st st']: from [st] to [st'] the output only grows, and the
    file system differs only at paths that satisfy [P] and were not
    directories. *)

Definition changes (P : path -> Prop) (st st' : state) : Prop :=
  stdout st `prefix_of` stdout st' /\
  forall k, fs st' !! k = fs st !! k \/ (P k /\ fs st !! k <> Some Dir).

(** The paths that copying [img] and its label into [idst] and [ldst] can
    write: those at or below the image's and the label's names there. *)
Definition copy_targets (idst ldst img k : path) : Prop :=
  (idst ++ [Pathlib.name img]) `prefix_of` k \/
  (ldst ++ [Pathlib.stem img +:+ ".txt"]) `prefix_of` k.

(** The sample source once the destination directories are made. *)
Definition prepared : state := (Prepare.prepare_dirs out (State sample_fs [])).2.

Definition b_png : path := raw ++ ["b.PNG"].

(** The four directories of the layout. *)
Definition dest_dirs (dest : path) : list path :=
  [dest // "images" // "train"; dest // "images" // "val";
   dest // "labels" // "train"; dest // "labels" // "val"].

(** The sample source without its [classes.txt]. *)
Definition unclassed_fs : gmap path node := delete (raw ++ ["classes.txt"]) sample_fs.

(** The sample source with a [classes.txt] in Latin-1: [caf] and the byte
    0xE9. *)
Definition latin_fs : gmap path node :=
  <[ raw ++ ["classes.txt"] := File ("caf" +:+ String "233" "") ]> sample_fs.



(** [keeps st st']: every file and directory of [st] is in [st'], as it
    was. *)
Definition keeps (st st' : state) : Prop :=
  forall k x, fs st !! k = Some x -> fs st' !! k = Some x.

(** [adds P st st']: the file system of [st'] is that of [st] with new
    directories at paths that satisfy [P], and the output is the same. *)
Definition adds (P : path -> Prop) (st st' : state) : Prop :=
  stdout st' = stdout st /\
  forall k, fs st' !! k = fs st !! k \/
            (fs st !! k = None /\ fs st' !! k = Some Dir /\ P k).

(** The layout under a new destination: the destination, [images],
    [labels] and the four directories. *)
Definition layout (dest : path) : list path :=
  [dest; dest ++ ["images"]; dest ++ ["images"; "train"]; dest ++ ["images"; "val"];
   dest ++ ["labels"]; dest ++ ["labels"; "train"]; dest ++ ["labels"; "val"]].

(** [main] of [scripts/detect.py], on the parsed command line. *)
Module DetectCli.

Section WithVision.
Context `{Vision}.

Record args := Args {
  arg_image : string;
  arg_output : option string;
  arg_model : string;
  arg_conf : PyFloat.float
}.

Definition main (a : args) : M unit :=
  Detect.detect_and_save (arg_image a) (arg_output a) (arg_model a) (arg_conf a) ;;;
  ret tt.

End WithVision.

End DetectCli.

(** The output path that [detect_and_save] uses, and the lines it prints
    on the way. *)
Definition output_of `{Vision} (image_path : string) (output_path : option string) : string :=
  match output_path with
  | None => Detect.default_output image_path
  | Some s => s
  end.

Definition saved_lines `{Vision} (image_path out : string) (res : results) : list string :=
  [newline +:+ Detect.check_mark +:+ " Detected " +:+ pretty (length (boxes res))
     +:+ " objects in "
     +:+ (if Detect.is_url image_path then image_path
          else Pathlib.name (Pathlib.parse image_path))]
  ++ (box_line res <$> boxes res)
  ++ [Detect.floppy_disk +:+ " Saved to: " +:+ out +:+ newline].

(** [writable m p]: a file can be opened for writing at [p]. *)
Definition writable (m : gmap path node) (p : path) : Prop :=
  m !! p <> Some Dir /\ m !! Pathlib.parent p = Some Dir.

Global Instance writable_dec m p : Decision (writable m p).
Proof. unfold writable. apply _. Defined.

(** A stand-in whose server answers [200 OK] with an empty body, which does
    not decode. *)
Definition blank_vision : Vision := {|
  image := string;
  model := unit;
  results := string;
  box := unit;
  http_get := fun _ => Reply 200 "";
  imdecode := fun c => if decide (c = "") then inr None else inr (Some c);
  imencode := fun _ img => inr img;
  load_model := fun _ => inr tt;
  predict := fun _ img _ => inr img;
  plot := fun r => r;
  boxes := fun _ => [];
  box_line := fun _ _ => ""
|}.

(** The label file of an entry [p] of directory [d], and whether the file
    system [m] lacks it. *)
Definition label_of (d p : path) : path := d ++ [Pathlib.stem p +:+ ".txt"].

Definition unlabelled (m : gmap path node) (d p : path) : Prop :=
  m !! label_of d p = None.

Global Instance unlabelled_dec m d p : Decision (unlabelled m d p).
Proof. unfold unlabelled. apply _. Defined.

(** What [copy_pairs] needs of an entry [p] of the source directory [d]:
    it is a file with the name of a directory entry, its label is not a
    directory, and no directory stands in [idst] or [ldst] where it and its
    label go. *)
Definition copyable (m : gmap path node) (idst ldst d p : path) : Prop :=
  OS.is_child d p /\ Pathlib.is_name (Pathlib.name p) /\
  (exists c, m !! p = Some (File c)) /\
  m !! label_of d p <> Some Dir /\
  m !! (idst ++ [Pathlib.name p]) <> Some Dir /\
  m !! (ldst ++ [Pathlib.stem p +:+ ".txt"]) <> Some Dir.

(** [below dest k]: [k] is under [dest] and is not [dest]; [spares dest st
    st']: what [st] has outside that is in [st'] as it was. *)
Definition below (dest k : path) : Prop := dest `prefix_of` k /\ k <> dest.

Definition spares (dest : path) (st st' : state) : Prop :=
  forall k x, fs st !! k = Some x -> ~ below dest k -> fs st' !! k = Some x.

(** Where [main] puts the copy of image [p] and of its label, in the part
    [train] or [val] of the destination. *)
Definition image_copy (dest : path) (part : string) (p : path) : path :=
  dest ++ ["images"; part; Pathlib.name p].

Definition label_copy (dest : path) (part : string) (p : path) : path :=
  dest ++ ["labels"; part; Pathlib.stem p +:+ ".txt"].

(** What a run needs of an image [p] of the source [src]: the name of a
    directory entry, a file, and a label path that is no directory and is
    not the destination. *)
Definition ready (m : gmap path node) (dest src p : path) : Prop :=
  Pathlib.is_name (Pathlib.name p) /\
  (exists c, m !! p = Some (File c)) /\
  m !! label_of src p <> Some Dir /\
  label_of src p <> dest.

(** The class names that [main] uses, and what it needs of [classes.txt]:
    when the file is there, it is a file of UTF-8 text. *)
Definition classes_of (m : gmap path node) (src : path) : list PyStr.text :=
  match m !! (src ++ ["classes.txt"]) with
  | Some (File bytes) =>
      match PyStr.decode bytes with
      | Some t =>
          PyStr.strip <$> filter (fun l => PyStr.strip l <> [])
                            (PyStr.splitlines (PyStr.universal_newlines t))
      | None => []
      end
  | _ => []
  end.

Definition classes_readable (m : gmap path node) (src : path) : Prop :=
  match m !! (src ++ ["classes.txt"]) with
  | Some (File bytes) => is_Some (PyStr.decode bytes)
  | Some Dir => False
  | None => True
  end.

Global Instance classes_readable_dec m src : Decision (classes_readable m src).
Proof. unfold classes_readable. destruct (m !! _) as [[]|]; apply _. Defined.

(** The paths that a run makes or writes. *)
Definition made (dest : path) (train_imgs val_imgs : list path) (k : path) : Prop :=
  k ∈ layout dest \/ k = dest ++ ["data.yaml"] \/
  (exists p, p ∈ train_imgs /\
             (k = image_copy dest "train" p \/ k = label_copy dest "train" p)) \/
  (exists p, p ∈ val_imgs /\
             (k = image_copy dest "val" p \/ k = label_copy dest "val" p)).

(** The lists that [main] passes to [copy_pairs]: different entries of one
    directory [src], with the names of directory entries and the suffix of
    an image. *)
Definition scanned (src : path) (pairs : list path) : Prop :=
  NoDup pairs /\
  Forall (fun p => OS.is_child src p /\ Pathlib.is_name (Pathlib.name p) /\
                   Prepare.is_image p) pairs.

(** * Properties *)

(** Proof steps used throughout: unfolding the monad, deciding a closed
    proposition, finding an element in an explicit list. *)
Ltac run := unfold bind, ret, raise, get_fs, put_fs, print; simpl.

Ltac decided := apply (bool_decide_unpack _); vm_compute; exact I.

Ltac listed := apply list_elem_of_In; simpl; auto 8.

(** Two different paths under one directory. *)
Ltac key_ne :=
  let H := fresh in
  intros H; rewrite <- ?app_assoc in H; cbn [app] in H;
  first [ apply app_inv_head in H; discriminate
        | apply (f_equal length) in H; rewrite ?length_app in H; simpl in H; lia ].

(** ** The order on paths *)

Section PathOrder.

Lemma string_compare_refl s : String.compare s s = Eq.
Proof.
  induction s as [|c s IH]; simpl; [done|].
  unfold Ascii.compare. by rewrite N.compare_refl.
Qed.

Lemma string_compare_lt_trans s1 s2 s3 :
  String.compare s1 s2 = Lt -> String.compare s2 s3 = Lt -> String.compare s1 s3 = Lt.
Proof.
  revert s2 s3. induction s1 as [|c1 s1 IH]; intros [|c2 s2] [|c3 s3]; simpl; try done.
  unfold Ascii.compare.
  destruct (N.compare_spec (N_of_ascii c1) (N_of_ascii c2)) as [E12|L12|G12]; try done;
  destruct (N.compare_spec (N_of_ascii c2) (N_of_ascii c3)) as [E23|L23|G23]; try done;
  intros H12 H23.
  - rewrite E12, E23, N.compare_refl. eauto.
  - rewrite E12. by apply N.compare_lt_iff in L23 as ->.
  - rewrite <- E23. by apply N.compare_lt_iff in L12 as ->.
  - assert (N_of_ascii c1 < N_of_ascii c3)%N as L by lia.
    by apply N.compare_lt_iff in L as ->.
Qed.

Lemma path_compare_refl p : Pathlib.compare p p = Eq.
Proof. induction p as [|x p IH]; simpl; [done|]. by rewrite string_compare_refl. Qed.

Lemma path_compare_eq p q : Pathlib.compare p q = Eq -> p = q.
Proof.
  revert q. induction p as [|x p IH]; intros [|y q]; simpl; try done.
  destruct (String.compare x y) eqn:E; try done.
  apply String.compare_eq_iff in E as ->. intros Hc. f_equal. by apply IH.
Qed.

Lemma path_compare_antisym p q : Pathlib.compare p q = CompOpp (Pathlib.compare q p).
Proof.
  revert q. induction p as [|x p IH]; intros [|y q]; simpl; try done.
  rewrite String.compare_antisym.
  destruct (String.compare y x); simpl; auto.
Qed.

Lemma path_compare_lt_trans p q r :
  Pathlib.compare p q = Lt -> Pathlib.compare q r = Lt -> Pathlib.compare p r = Lt.
Proof.
  revert q r. induction p as [|x p IH]; intros [|y q] [|z r]; simpl; try done.
  destruct (String.compare x y) eqn:Exy; try done;
  destruct (String.compare y z) eqn:Eyz; try done; intros Hpq Hqr.
  - apply String.compare_eq_iff in Exy as ->. rewrite Eyz. eauto.
  - apply String.compare_eq_iff in Exy as ->. by rewrite Eyz.
  - apply String.compare_eq_iff in Eyz as <-. by rewrite Exy.
  - by rewrite (string_compare_lt_trans _ _ _ Exy Eyz).
Qed.

Global Instance path_le_total : Total Pathlib.le.
Proof.
  intros p q. unfold Pathlib.le. rewrite (path_compare_antisym q p).
  destruct (Pathlib.compare p q); simpl; auto.
Qed.

Global Instance path_le_antisym : AntiSymm (=) Pathlib.le.
Proof.
  intros p q. unfold Pathlib.le. rewrite (path_compare_antisym q p).
  destruct (Pathlib.compare p q) eqn:E; simpl; try done.
  intros _ _. by apply path_compare_eq.
Qed.

Global Instance path_le_trans : Transitive Pathlib.le.
Proof.
  intros p q r. unfold Pathlib.le.
  destruct (Pathlib.compare p q) eqn:Epq; [|  |done].
  - by apply path_compare_eq in Epq as ->.
  - destruct (Pathlib.compare q r) eqn:Eqr; [| |done].
    + by apply path_compare_eq in Eqr as <-; rewrite Epq.
    + by rewrite (path_compare_lt_trans _ _ _ Epq Eqr).
Qed.

(** [sorted] does not depend on the order in which the paths are given. *)
Lemma sorted_permutation (l1 l2 : list path) :
  l1 ≡ₚ l2 -> merge_sort Pathlib.le l1 = merge_sort Pathlib.le l2.
Proof.
  intros Hp. apply (Sorted_unique Pathlib.le).
  - apply Sorted_merge_sort, _.
  - apply Sorted_merge_sort, _.
  - by rewrite !merge_sort_Permutation.
Qed.

End PathOrder.

(** ** The split *)

Section Split.
Context `{PyRuntime}.

Lemma swap_length {A} (x : list A) i j : length (Prepare.swap x i j) = length x.
Proof.
  unfold Prepare.swap. destruct (x !! i), (x !! j); try done.
  by rewrite !length_insert.
Qed.

Lemma swap_permutation {A} (x : list A) i j : Prepare.swap x i j ≡ₚ x.
Proof.
  unfold Prepare.swap.
  destruct (x !! i) as [xi|] eqn:Hi; [|done].
  destruct (x !! j) as [xj|] eqn:Hj; [|done].
  by apply Permutation_insert_swap.
Qed.

Lemma shuffle_go_permutation {A} i (x : list A) g : (Prepare.shuffle_go i x g).1 ≡ₚ x.
Proof.
  revert x g. induction i as [|i IH]; intros x g; simpl; [done|].
  destruct (randbelow (S (S i)) g) as [j g'].
  rewrite IH. apply swap_permutation.
Qed.

Lemma shuffle_permutation {A} (x : list A) g : (Prepare.shuffle x g).1 ≡ₚ x.
Proof. apply shuffle_go_permutation. Qed.

Lemma shuffle_length {A} (x : list A) g : length (Prepare.shuffle x g).1 = length x.
Proof. by rewrite shuffle_permutation. Qed.

Lemma shuffled_length (imgs : list path) g :
  length (Prepare.shuffle (merge_sort Pathlib.le imgs) g).1 = length imgs.
Proof. by rewrite shuffle_length, merge_sort_Permutation. Qed.

Lemma split_permutation (imgs : list path) val g val_imgs train_imgs :
  Prepare.split imgs val g = inr (val_imgs, train_imgs) ->
  val_imgs ++ train_imgs ≡ₚ imgs.
Proof.
  unfold Prepare.split. destruct (Prepare.n_val _ _) as [e|n]; [done|].
  intros [= <- <-]. by rewrite take_drop, shuffle_permutation, merge_sort_Permutation.
Qed.

(** Under [max(1, .)] rounding toward zero and rounding down agree. *)
Lemma max_trunc_floor x k :
  PyFloat.floor x = Some k ->
  exists k', PyFloat.trunc x = Some k' /\ Z.max 1 k' = Z.max 1 k.
Proof.
  destruct x as [s|s| |s m e]; unfold PyFloat.floor, PyFloat.trunc;
    intros Hk; simplify_eq; eauto.
  destruct s; unfold cond_Zopp; eauto.
  eexists; split; [done|].
  assert (0 <= Z.shiftl (Z.pos m) e)%Z by (apply Z.shiftl_nonneg; lia).
  assert (Z.shiftl (Z.neg m) e < 0)%Z
    by (apply Z.nle_gt; rewrite Z.shiftl_nonneg; lia).
  change (- Z.pos m)%Z with (Z.neg m). lia.
Qed.

End Split.

(** ** Directory entries *)

Section Entries.

Lemma child_nonempty d q : OS.is_child d q -> q <> [].
Proof. intros [Ht _] ->. by apply Ht. Qed.

Lemma child_name d q : OS.is_child d q -> Pathlib.name q = List.last q "".
Proof.
  intros [Ht _]. unfold Pathlib.name. destruct q as [|a r]; [done|].
  simpl in *. destruct (Pathlib.is_anchor a); [|done].
  destruct r; [done|]. done.
Qed.

Lemma child_split d q : OS.is_child d q -> q = d ++ [Pathlib.name q].
Proof.
  intros Hc. rewrite (child_name d q Hc).
  pose proof (child_nonempty d q Hc) as Hne. destruct Hc as [_ <-].
  by apply app_removelast_last.
Qed.

Lemma compare_siblings d x y :
  Pathlib.compare (d ++ [x]) (d ++ [y]) = String.compare x y.
Proof.
  induction d as [|a d IH]; simpl.
  - by destruct (String.compare x y).
  - by rewrite string_compare_refl.
Qed.

Lemma name_le_siblings d p q :
  OS.is_child d p -> OS.is_child d q -> Spec.name_le p q <-> Pathlib.le p q.
Proof.
  intros Hp Hq. unfold Spec.name_le, Pathlib.le.
  rewrite <- (compare_siblings d).
  by rewrite <- (child_split d p Hp), <- (child_split d q Hq).
Qed.

Global Instance name_le_total : Total Spec.name_le.
Proof.
  intros p q. unfold Spec.name_le. rewrite (String.compare_antisym (Pathlib.name q)).
  destruct (String.compare (Pathlib.name p) (Pathlib.name q)); simpl; auto.
Qed.

Lemma Sorted_on_elements {A} (R1 R2 : relation A) (l : list A) :
  (forall x y, x ∈ l -> y ∈ l -> R1 x y -> R2 x y) ->
  Sorted R1 l -> Sorted R2 l.
Proof.
  intros HR Hs. induction Hs as [|x l Hs IH Hhd]; constructor.
  - apply IH. intros ?? Hx Hy. apply HR; by right.
  - destruct Hhd as [|y l Hxy]; constructor.
    apply HR; [by left|by right; left|done].
Qed.

(** Among the entries of one directory, the order of the paths is the order
    of the names. *)
Lemma sort_by_name d (l : list path) :
  Forall (OS.is_child d) l -> merge_sort Spec.name_le l = merge_sort Pathlib.le l.
Proof.
  intros Hd. apply (Sorted_unique Pathlib.le).
  - apply (Sorted_on_elements Spec.name_le); [|apply Sorted_merge_sort, _].
    intros p q Hp Hq. rewrite merge_sort_Permutation in Hp, Hq.
    rewrite Forall_forall in Hd. apply (name_le_siblings d); auto.
  - apply Sorted_merge_sort, _.
  - by rewrite !merge_sort_Permutation.
Qed.

End Entries.

Section SplitClaims.
Context `{PyRuntime}.

Lemma n_val_floor n val k :
  Spec.val_count n val = Some k -> Prepare.n_val n val = inr (Z.to_nat k).
Proof.
  unfold Spec.val_count, Prepare.n_val.
  destruct (PyFloat.int_mul _ val) as [x|]; [|done].
  destruct (PyFloat.floor x) as [f|] eqn:Hf; simpl; [|done].
  intros [= <-]. destruct (max_trunc_floor x f Hf) as (t & Ht & Hmax).
  rewrite Ht, Hmax. by destruct x.
Qed.

Lemma n_val_no_floor n val :
  Spec.val_count n val = None -> exists e, Prepare.n_val n val = inl e.
Proof.
  unfold Spec.val_count, Prepare.n_val.
  destruct (PyFloat.int_mul _ val) as [x|]; [|by eauto].
  destruct x; simpl; try done; eauto.
Qed.

(** C1, as amended.  For [n >= 1] images and a fraction whose product with
    [n] is finite, the validation set has [min(n, max(1, floor(n *
    valFraction)))] images, train and validation together have [n], and the
    validation set is not empty. *)
Theorem split_sizes (imgs : list path) val g k :
  imgs <> [] ->
  Spec.val_count (length imgs) val = Some k ->
  exists val_imgs train_imgs,
    Prepare.split imgs val g = inr (val_imgs, train_imgs) /\
    Z.of_nat (length val_imgs) = Z.min (Z.of_nat (length imgs)) k /\
    length train_imgs + length val_imgs = length imgs /\
    1 <= length val_imgs.
Proof.
  intros Hne Hk. unfold Prepare.split.
  rewrite shuffled_length, (n_val_floor _ _ _ Hk).
  eexists _, _. split; [done|].
  rewrite length_take, length_drop, shuffled_length.
  assert (1 <= k)%Z.
  { unfold Spec.val_count in Hk. destruct (PyFloat.int_mul _ _); [|done].
    destruct (PyFloat.floor _); simplify_eq/=. lia. }
  assert (0 < length imgs) by (destruct imgs; simpl; [done|lia]).
  lia.
Qed.

(** C2.  The split is a function of the set of images and of the seed: two
    enumerations of one set give the same validation and train lists; and
    for the entries of one directory it is the split that the specification
    describes. *)
Theorem split_deterministic (imgs1 imgs2 : list path) val seed :
  imgs1 ≡ₚ imgs2 ->
  Prepare.split imgs1 val (rng_seed seed) = Prepare.split imgs2 val (rng_seed seed) /\
  (forall d, Forall (OS.is_child d) imgs1 ->
     Spec.splitTrainVal imgs2 val seed =
       match Prepare.split imgs1 val (rng_seed seed) with
       | inr r => Some r
       | inl _ => None
       end).
Proof.
  intros Hp. split.
  - unfold Prepare.split. by rewrite (sorted_permutation _ _ Hp).
  - intros d Hd. unfold Spec.splitTrainVal, Prepare.split.
    rewrite (sort_by_name d imgs2) by (by rewrite <- Hp).
    rewrite <- (sorted_permutation _ _ Hp), shuffled_length, <- Hp.
    destruct (Spec.val_count (length imgs1) val) as [k|] eqn:Hk.
    + by rewrite (n_val_floor _ _ _ Hk).
    + by destruct (n_val_no_floor _ _ Hk) as [e ->].
Qed.

End SplitClaims.

Lemma split_deterministic_witness :
  let imgs1 := [raw ++ ["a.jpg"]; raw ++ ["b.PNG"]; raw ++ ["c.jpeg"]] in
  let imgs2 := [raw ++ ["c.jpeg"]; raw ++ ["a.jpg"]; raw ++ ["b.PNG"]] in
  let quarter := float_of_Z 1 (-2) in
  @Prepare.split lcg_runtime imgs1 quarter (rng_seed 42) =
    @Prepare.split lcg_runtime imgs2 quarter (rng_seed 42) /\
  @Spec.splitTrainVal lcg_runtime imgs2 quarter 42 =
    match @Prepare.split lcg_runtime imgs1 quarter (rng_seed 42) with
    | inr r => Some r
    | inl _ => None
    end.
Proof.
  intros imgs1 imgs2 quarter.
  assert (imgs1 ≡ₚ imgs2) as Hp.
  { unfold imgs1, imgs2. symmetry. apply (Permutation_cons_append [_; _]). }
  destruct (@split_deterministic lcg_runtime imgs1 imgs2 quarter 42 Hp) as [H1 H2].
  split; [exact H1|].
  apply (H2 raw).
  unfold imgs1. repeat constructor; vm_compute; congruence.
Defined.

Lemma split_sizes_witness :
  exists val_imgs train_imgs,
    @Prepare.split lcg_runtime [a_jpg] two (rng_seed 42) = inr (val_imgs, train_imgs) /\
    Z.of_nat (length val_imgs) = Z.min 1 2 /\
    length train_imgs + length val_imgs = 1 /\
    1 <= length val_imgs.
Proof.
  apply (@split_sizes lcg_runtime [a_jpg] two (rng_seed 42) 2); [discriminate|reflexivity].
Defined.

(** C1 as stated fails for a fraction above one: with one image and
    [valFraction = 2.0] the validation set has one image, not
    [max(1, floor(1 * 2.0)) = 2]. *)
Lemma split_sizes_counterexample :
  ~ exists val_imgs train_imgs,
      @Prepare.split lcg_runtime [a_jpg] two (rng_seed 42) = inr (val_imgs, train_imgs) /\
      Some (Z.of_nat (length val_imgs)) = Spec.val_count 1 two /\
      length train_imgs + length val_imgs = 1.
Proof.
  intros (v & t & Hs & Hv & _).
  vm_compute in Hs. injection Hs as <- <-. vm_compute in Hv. discriminate.
Qed.

(** ** Scanning for images *)

Section Scan.
Context `{PyRuntime}.

Lemma elem_of_children (m : gmap path node) d q :
  q ∈ OS.children m d <-> OS.is_child d q /\ is_Some (m !! q).
Proof.
  unfold OS.children. rewrite list_elem_of_filter, list_elem_of_fmap.
  split.
  - intros [Hc ([q' x] & -> & Hx)]. apply elem_of_map_to_list in Hx. simpl. eauto.
  - intros [Hc [x Hx]]. split; [done|]. exists (q, x). split; [done|].
    by apply elem_of_map_to_list.
Qed.

Lemma NoDup_children (m : gmap path node) d : NoDup (OS.children m d).
Proof. apply NoDup_filter, NoDup_fst_map_to_list. Qed.

Lemma find_images_run src st :
  fs st !! src = Some Dir ->
  Prepare.find_images src st =
    (inr (filter Prepare.is_image (OS.children (fs st) src)), st).
Proof. intros Hd. unfold Prepare.find_images, OS.iterdir. run. by rewrite Hd. Qed.

(** C6, as amended.  The scan of a directory returns, once each, exactly
    its entries whose suffix is [.jpg], [.jpeg] or [.png] when lower-cased:
    entries of the directory itself, not of its subdirectories, and
    whatever their kind. *)
Theorem find_images_entries src st :
  fs st !! src = Some Dir ->
  exists imgs,
    Prepare.find_images src st = (inr imgs, st) /\
    NoDup imgs /\
    forall q, q ∈ imgs <->
      OS.is_child src q /\ is_Some (fs st !! q) /\
      PyStr.lower (Pathlib.suffix q) ∈ [".jpg"; ".jpeg"; ".png"].
Proof.
  intros Hd. eexists. split; [by apply find_images_run|]. split.
  - apply NoDup_filter, NoDup_children.
  - intros q. rewrite list_elem_of_filter, elem_of_children.
    unfold Prepare.is_image, Prepare.exts. tauto.
Qed.

(** C4, as amended.  When the source directory has no entry with an image
    suffix, file or not, [main] prints its two header lines and the report,
    returns, and leaves the file system as it was. *)
Theorem main_no_images a st :
  fs st !! Prepare.arg_src a = Some Dir ->
  (forall q, OS.is_child (Prepare.arg_src a) q -> is_Some (fs st !! q) ->
             ~ Prepare.is_image q) ->
  Prepare.main a st =
    (inr tt,
     State (fs st)
           (stdout st ++ ["Source: " +:+ Pathlib.str (Prepare.arg_src a)]
                      ++ ["Destination: " +:+ Pathlib.str (Prepare.arg_dest a)]
                      ++ ["No images found in " +:+ Pathlib.str (Prepare.arg_src a)])).
Proof.
  intros Hd Hno. unfold Prepare.main.
  unfold bind at 1. unfold print at 1. cbn [fs stdout].
  unfold bind at 1. unfold print at 1. cbn [fs stdout].
  unfold bind at 1. rewrite find_images_run by done. cbn [fs stdout].
  destruct (filter Prepare.is_image _) as [|q l] eqn:Hf.
  - unfold print. cbn [fs stdout]. by rewrite <- !app_assoc.
  - assert (q ∈ filter Prepare.is_image (OS.children (fs st) (Prepare.arg_src a))) as Hq
      by (rewrite Hf; left).
    apply list_elem_of_filter in Hq as [Hi [Hc Hs]%elem_of_children].
    by destruct (Hno q).
Qed.

End Scan.

Lemma find_images_entries_witness :
  exists imgs,
    Prepare.find_images raw (State sample_fs []) = (inr imgs, State sample_fs []) /\
    NoDup imgs /\
    forall q, q ∈ imgs <->
      OS.is_child raw q /\ is_Some (sample_fs !! q) /\
      PyStr.lower (Pathlib.suffix q) ∈ [".jpg"; ".jpeg"; ".png"].
Proof.
  apply (find_images_entries raw (State sample_fs [])). reflexivity.
Defined.

(** C6 as stated fails on a subdirectory with an image suffix: it is
    returned, and it is not a file. *)
Lemma find_images_entries_counterexample :
  ~ forall imgs,
      Prepare.find_images raw (State album_fs []) = (inr imgs, State album_fs []) ->
      forall q, q ∈ imgs -> exists c, album_fs !! q = Some (File c).
Proof.
  intros Hc. destruct (Hc [raw ++ ["album.jpg"]] eq_refl (raw ++ ["album.jpg"])) as [c Hq].
  - by left.
  - vm_compute in Hq. discriminate.
Qed.

Lemma main_no_images_witness :
  @Prepare.main lcg_runtime (Prepare.Args raw out two 42) (State notes_fs []) =
    (inr tt, State notes_fs ["Source: /raw"; "Destination: /out"; "No images found in /raw"]).
Proof.
  apply (@main_no_images lcg_runtime (Prepare.Args raw out two 42) (State notes_fs [])).
  - reflexivity.
  - intros q Hc Hs Hi.
    assert (q ∈ filter Prepare.is_image (OS.children notes_fs raw)) as Hq
      by (apply list_elem_of_filter; split; [done|by apply elem_of_children]).
    vm_compute in Hq. inversion Hq.
Defined.

(** C4 as stated fails on a source without image files whose one entry is
    a directory with an image suffix: the run does not report, it makes the
    destination directories and then raises. *)
Lemma main_no_images_counterexample :
  let r := @Prepare.main lcg_runtime (Prepare.Args raw out two 42) (State album_fs []) in
  OS.children album_fs raw = [raw ++ ["album.jpg"]] /\
  album_fs !! (raw ++ ["album.jpg"]) = Some Dir /\
  r.1 = inl IsADirectoryError /\
  ~ "No images found in /raw" ∈ stdout r.2 /\
  album_fs !! (out ++ ["images"; "val"]) = None /\
  fs r.2 !! (out ++ ["images"; "val"]) = Some Dir.
Proof. intros r. split_and!; try (vm_compute; reflexivity). decided. Qed.

(** ** Copying images and labels *)

Section Copy.

Lemma for_each_app {A B} (body : B -> A -> M B) l1 l2 acc st :
  for_each body (l1 ++ l2) acc st =
    match for_each body l1 acc st with
    | (inr acc', st') => for_each body l2 acc' st'
    | (inl e, st') => (inl e, st')
    end.
Proof.
  revert acc st. induction l1 as [|x l1 IH]; intros acc st; simpl; [done|].
  unfold bind. destruct (body acc x st) as [[e|acc'] st']; [done|]. apply IH.
Qed.

Lemma filter_ext_elem {A} (P Q : A -> Prop) `{forall x, Decision (P x)}
    `{forall x, Decision (Q x)} (l : list A) :
  (forall x, x ∈ l -> P x <-> Q x) -> filter P l = filter Q l.
Proof.
  induction l as [|x l IH]; intros Hl; [done|].
  rewrite !filter_cons. rewrite IH by (intros ??; apply Hl; by right).
  destruct (Hl x) as [H1 H2]; [left|].
  destruct (decide (P x)), (decide (Q x)); tauto || done.
Qed.

(** What one round of the loop does to the locals when it does not raise. *)
Lemma copy_pair_locals idst ldst copied missing img st copied' missing' st' :
  Prepare.copy_pair idst ldst (copied, missing) img st = (inr (copied', missing'), st') ->
  copied' = S copied /\
  (missing' = missing \/ missing' = missing ++ [Pathlib.name img]).
Proof.
  unfold Prepare.copy_pair.
  destruct (Pathlib.with_suffix img ".txt") as [txt|]; [|done].
  unfold bind at 1. destruct (copy2 img _ st) as [[e|[]] st1]; [done|].
  unfold bind at 1, OS.exists_ at 1. run.
  destruct (bool_decide _).
  - destruct (copy2 txt _ st1) as [[e|[]] st2]; [done|]. intros [= <- <- <-]. auto.
  - intros [= <- <- <-]. auto.
Qed.

Lemma copy_loop_locals idst ldst pairs copied missing st copied' missing' st' :
  for_each (Prepare.copy_pair idst ldst) pairs (copied, missing) st
    = (inr (copied', missing'), st') ->
  copied' = copied + length pairs /\
  exists added, missing' = missing ++ added /\
                added `sublist_of` (Pathlib.name <$> pairs).
Proof.
  revert copied missing st.
  induction pairs as [|img pairs IH]; intros copied missing st; cbn [for_each].
  - intros [= <- <- <-]. simpl. split; [lia|]. exists []. by rewrite app_nil_r.
  - unfold bind.
    destruct (Prepare.copy_pair idst ldst (copied, missing) img st)
      as [[e|[c1 m1]] st1] eqn:E1; [done|].
    apply copy_pair_locals in E1 as [-> Hm].
    intros (-> & added & -> & Hsub)%IH. split; [simpl; lia|].
    destruct Hm as [->| ->].
    + exists added. split; [done|]. by apply sublist_cons.
    + exists (Pathlib.name img :: added). rewrite <- app_assoc. split; [done|].
      by apply sublist_skip.
Qed.

End Copy.

(** ** Names and joined paths *)

Section Names.

Lemma chars_of_chars l : PyStr.chars (PyStr.of_chars l) = l.
Proof. apply list_ascii_of_string_of_list_ascii. Qed.

Lemma of_chars_chars s : PyStr.of_chars (PyStr.chars s) = s.
Proof. apply string_of_list_ascii_of_string. Qed.

Lemma chars_append a b : PyStr.chars (a +:+ b) = PyStr.chars a ++ PyStr.chars b.
Proof. induction a as [|c a IH]; simpl; [done|]. by rewrite <- IH. Qed.

Lemma split_go_no_sep sep cur l :
  sep ∉ l -> PyStr.split_go sep cur l = [PyStr.of_chars (rev cur ++ l)].
Proof.
  revert cur. induction l as [|c l IH]; intros cur Hsep; simpl.
  - by rewrite app_nil_r.
  - apply not_elem_of_cons in Hsep as [Hne Hsep].
    destruct (Ascii.eqb_spec c sep) as [->|_]; [done|].
    rewrite IH by done. simpl. by rewrite <- app_assoc.
Qed.

Lemma parse_name s : Pathlib.is_name s -> Pathlib.parse s = [s].
Proof.
  intros (Hne & Hdot & Hsep). unfold Pathlib.parse, PyStr.split.
  rewrite split_go_no_sep by done. simpl. rewrite of_chars_chars.
  assert (Pathlib.parse_anchor s = []) as ->.
  { unfold Pathlib.parse_anchor, PyStr.startswith.
    destruct s as [|c s]; [done|]. cbn [String.prefix].
    destruct (ascii_dec "/" c) as [<-|]; [|done].
    exfalso. apply Hsep. unfold PyStr.chars. simpl. by left. }
  by rewrite filter_cons_True.
Qed.

Lemma is_anchor_name s : Pathlib.is_name s -> Pathlib.is_anchor s = false.
Proof.
  intros (_ & _ & Hsep). unfold Pathlib.is_anchor.
  apply orb_false_iff. split; apply bool_decide_eq_false; intros ->;
    apply Hsep; unfold PyStr.chars; simpl; by left.
Qed.

Lemma joinpath_name p s : Pathlib.is_name s -> p // s = p ++ [s].
Proof.
  intros Hs. unfold Pathlib.joinpath. rewrite parse_name by done.
  simpl. rewrite is_anchor_name by done. done.
Qed.

Lemma name_snoc p s : Pathlib.is_name s -> Pathlib.name (p ++ [s]) = s.
Proof.
  intros Hs. unfold Pathlib.name.
  destruct p as [|a p]; cbn [app Pathlib.tail_parts].
  - by rewrite is_anchor_name.
  - destruct (Pathlib.is_anchor a); [by rewrite List.last_last|].
    by rewrite app_comm_cons, List.last_last.
Qed.

(** The name of the label of an image is a name as well. *)
Lemma stem_chars p :
  exists l, PyStr.chars (Pathlib.name p) = PyStr.chars (Pathlib.stem p) ++ l.
Proof.
  unfold Pathlib.stem. destruct (Pathlib.suffix_index _) as [i|].
  - exists (drop i (PyStr.chars (Pathlib.name p))).
    unfold PyStr.take. by rewrite chars_of_chars, take_drop.
  - exists []. by rewrite app_nil_r.
Qed.

Lemma label_is_name p : Pathlib.is_name (Pathlib.name p) ->
  Pathlib.is_name (Pathlib.stem p +:+ ".txt").
Proof.
  intros (_ & _ & Hsep). destruct (stem_chars p) as [l Hl].
  assert (forall s, PyStr.chars (s +:+ ".txt") = PyStr.chars s ++ PyStr.chars ".txt") as Hc
    by (intros; apply chars_append).
  split; [|split].
  - intros Hs. apply (f_equal PyStr.chars) in Hs. rewrite Hc in Hs.
    by destruct (PyStr.chars (Pathlib.stem p)).
  - intros Hs. apply (f_equal PyStr.chars) in Hs. rewrite Hc in Hs.
    by destruct (PyStr.chars (Pathlib.stem p)) as [|? [|? ?]].
  - rewrite Hc. rewrite Hl in Hsep. intros [Hin|Hin]%elem_of_app.
    + apply Hsep, elem_of_app. by left.
    + revert Hin. apply (bool_decide_unpack _). vm_compute. exact I.
Qed.

Lemma with_suffix_name p :
  Pathlib.is_name (Pathlib.name p) ->
  Pathlib.with_suffix p ".txt" = Some (removelast p ++ [Pathlib.stem p +:+ ".txt"]).
Proof.
  intros (Hne & _). unfold Pathlib.with_suffix. by rewrite decide_False.
Qed.

End Names.

(** ** The file-system operations *)

Section Frames.

Lemma changes_refl P st : changes P st st.
Proof. split; [done|]. by left. Qed.

Lemma changes_trans P st1 st2 st3 :
  changes P st1 st2 -> changes P st2 st3 -> changes P st1 st3.
Proof.
  intros [Ho1 H1] [Ho2 H2]. split; [by etrans|].
  intros k. destruct (H1 k) as [E1|?]; [|by right].
  destruct (H2 k) as [E2|[? ?]].
  - left. congruence.
  - right. split; [done|]. congruence.
Qed.

Lemma changes_weaken (P Q : path -> Prop) st st' :
  (forall k, P k -> Q k) -> changes P st st' -> changes Q st st'.
Proof.
  intros HPQ [Ho Hc]. split; [done|].
  intros k. destruct (Hc k) as [?|[? ?]]; auto.
Qed.


Lemma changes_dir P st st' k :
  changes P st st' -> fs st !! k = Some Dir -> fs st' !! k = Some Dir.
Proof. intros [_ Hc] Hk. destruct (Hc k) as [->|[? ?]]; done. Qed.

Lemma changes_stdout P st st' line :
  changes P st st' -> line ∈ stdout st -> line ∈ stdout st'.
Proof. intros [[l ->] _] Hin. apply elem_of_app. by left. Qed.

Lemma print_changes P line st :
  print line st = (inr tt, State (fs st) (stdout st ++ [line])) /\
  changes P st (State (fs st) (stdout st ++ [line])).
Proof. split; [done|]. split; [by apply prefix_app_r|]. by left. Qed.

Lemma insert_changes (m : gmap path node) p x out :
  m !! p <> Some Dir ->
  changes (fun k => k = p) (State m out) (State (<[p := x]> m) out).
Proof.
  intros Hp. split; [done|]. intros k. simpl.
  destruct (decide (p = k)) as [<-|Hne].
  - by right.
  - left. by rewrite lookup_insert_ne.
Qed.

Lemma write_changes p c st r st' :
  OS.write p c st = (r, st') ->
  changes (fun k => k = p) st st' /\
  (r = inr tt -> fs st' !! p = Some (File c)).
Proof.
  unfold OS.write. run. destruct st as [m out]. simpl.
  destruct (m !! p) as [[c0|]|] eqn:Hp;
    destruct (m !! Pathlib.parent p) as [[c1|]|] eqn:Hpp;
    intros [= <- <-]; (split; [|try done]);
    try apply changes_refl;
    try (apply insert_changes; congruence);
    intros _; simpl; by rewrite lookup_insert_eq.
Qed.

Lemma read_state p st r st' :
  OS.read p st = (r, st') ->
  st' = st /\ forall c, r = inr c -> fs st !! p = Some (File c).
Proof.
  unfold OS.read. run. destruct (fs st !! p) as [[c|]|]; intros [= <- <-]; split;
    try done; by intros ? [= ->].
Qed.

Lemma copy2_changes src dst st r st' :
  copy2 src dst st = (r, st') ->
  changes (fun k => k = copy2_target (fs st) src dst) st st' /\
  (r = inr tt ->
   exists c, fs st !! src = Some (File c) /\
             fs st' !! copy2_target (fs st) src dst = Some (File c)).
Proof.
  unfold copy2. unfold bind at 1, get_fs at 1.
  destruct (decide _) as [Hsame|_].
  - intros [= <- <-]. split; [apply changes_refl|done].
  - unfold bind. destruct (OS.read src st) as [[e|c] st1] eqn:Hr.
    + apply read_state in Hr as [-> _]. intros [= <- <-].
      split; [apply changes_refl|done].
    + apply read_state in Hr as [-> Hc]. intros [Hch Hw]%write_changes.
      split; [done|]. intros ->. exists c. split; auto.
Qed.

Lemma mkdir_changes p st r st' :
  OS.mkdir p st = (r, st') ->
  changes (fun k => k = p) st st' /\
  (r = inr tt -> fs st' !! p = Some Dir).
Proof.
  unfold OS.mkdir. run. destruct st as [m out]. simpl.
  destruct (m !! p) as [x|] eqn:Hp.
  - intros [= <- <-]. split; [apply changes_refl|done].
  - destruct (m !! Pathlib.parent p) as [[c1|]|]; intros [= <- <-];
      (split; [|try done]); try apply changes_refl.
    + apply insert_changes. congruence.
    + intros _. simpl. by rewrite lookup_insert_eq.
Qed.

Lemma is_dir_run p st :
  OS.is_dir p st = (inr (bool_decide (fs st !! p = Some Dir)), st).
Proof. done. Qed.

Lemma forgive_dir p e st r st' :
  (d <- OS.is_dir p ;; if d : bool then ret tt else raise e) st = (r, st') ->
  st' = st /\ (r = inr tt -> fs st !! p = Some Dir).
Proof.
  unfold bind. rewrite is_dir_run. case_bool_decide; intros [= <- <-]; done.
Qed.

Lemma mkdir_exist_ok_changes p st r st' :
  mkdir_exist_ok p st = (r, st') ->
  changes (fun k => k = p) st st' /\
  (r = inr tt -> fs st' !! p = Some Dir).
Proof.
  unfold mkdir_exist_ok, catch.
  destruct (OS.mkdir p st) as [[e|[]] st1] eqn:Hm.
  - apply mkdir_changes in Hm as [Hch _].
    destruct e; try (intros [= <- <-]; by split);
      intros [-> Hd]%forgive_dir; split; try done;
      intros Hr; apply Hd in Hr; by eapply changes_dir.
  - intros [= <- <-]. by apply mkdir_changes in Hm.
Qed.

Lemma mkdir_parents_go_changes chain st r st' :
  mkdir_parents_go chain st = (r, st') ->
  changes (fun k => k ∈ chain) st st' /\
  (r = inr tt -> forall p up, chain = p :: up -> fs st' !! p = Some Dir).
Proof.
  revert st r st'. induction chain as [|p up IH]; intros st r st'; cbn [mkdir_parents_go].
  - intros [= <- <-]. split; [apply changes_refl|done].
  - unfold catch. destruct (OS.mkdir p st) as [[e|[]] st1] eqn:Hm.
    + apply mkdir_changes in Hm as [Hch _].
      assert (changes (fun k => k ∈ p :: up) st st1) as Hch'
        by (eapply changes_weaken; [|done]; intros ? ->; left).
      assert (forall r st',
        (d <- OS.is_dir p ;; if d : bool then ret tt else raise e) st1 = (r, st') ->
        changes (fun k => k ∈ p :: up) st st' /\
        (r = inr tt -> forall p0 up0, p :: up = p0 :: up0 -> fs st' !! p0 = Some Dir)) as Hforgive.
      { intros r0 st0 [-> Hd]%forgive_dir. split; [done|].
        intros Hr ?? [= <- <-]. auto. }
      destruct e; try apply Hforgive.
      destruct (decide (Pathlib.parent p = p)).
      { intros [= <- <-]. by split. }
      unfold bind. destruct (mkdir_parents_go up st1) as [[e|[]] st2] eqn:Hup.
      * apply IH in Hup as [Hup _]. intros [= <- <-]. split; [|done].
        eapply changes_trans; [done|].
        eapply changes_weaken; [|done]. intros ??. by right.
      * apply IH in Hup as [Hup _]. intros [Hok Hd]%mkdir_exist_ok_changes.
        split.
        -- eapply changes_trans; [done|]. eapply changes_trans.
           ++ eapply changes_weaken; [|exact Hup]. intros ??. by right.
           ++ eapply changes_weaken; [|exact Hok]. intros ? ->. left.
        -- intros Hr ?? [= <- <-]. auto.
    + intros [= <- <-]. apply mkdir_changes in Hm as [Hch Hd]. split.
      * eapply changes_weaken; [|done]. intros ? ->. left.
      * intros _ ?? [= <- <-]. auto.
Qed.

Lemma parent_prefix p : Pathlib.parent p `prefix_of` p.
Proof.
  unfold Pathlib.parent. destruct (Pathlib.tail_parts p) eqn:Ht; [done|].
  destruct (decide (p = [])) as [->|Hne]; [done|].
  exists [List.last p ""]. by apply app_removelast_last.
Qed.

Lemma ancestors_go_prefix n p k : k ∈ ancestors_go n p -> k `prefix_of` p.
Proof.
  revert p. induction n as [|n IH]; intros p; cbn [ancestors_go].
  - by intros ->%list_elem_of_singleton.
  - intros [->|Hk]%elem_of_cons; [done|].
    destruct (decide _); [by apply elem_of_nil in Hk|].
    etrans; [by apply IH|]. apply parent_prefix.
Qed.

Lemma mkdir_parents_changes p st r st' :
  mkdir_parents p st = (r, st') ->
  changes (fun k => k `prefix_of` p) st st' /\
  (r = inr tt -> fs st' !! p = Some Dir).
Proof.
  unfold mkdir_parents. intros [Hch Hd]%mkdir_parents_go_changes. split.
  - eapply changes_weaken; [|done]. intros k. apply ancestors_go_prefix.
  - intros Hr. destruct (length p); cbn [ancestors_go] in Hd; eauto.
Qed.

End Frames.

(** ** What [copy_pairs] writes *)

Section CopyFrames.

Lemma exists_run p st :
  OS.exists_ p st = (inr (bool_decide (is_Some (fs st !! p))), st).
Proof. done. Qed.

Lemma copy2_target_prefix (m : gmap path node) src dst :
  Pathlib.is_name (Pathlib.name src) -> dst `prefix_of` copy2_target m src dst.
Proof.
  intros Hn. unfold copy2_target. destruct (decide _); [|done].
  rewrite joinpath_name by done. by apply prefix_app_r.
Qed.

Lemma copy_pair_changes idst ldst acc img st r st' :
  Pathlib.is_name (Pathlib.name img) ->
  Prepare.copy_pair idst ldst acc img st = (r, st') ->
  changes (copy_targets idst ldst img) st st'.
Proof.
  intros Hn. unfold Prepare.copy_pair. destruct acc as [copied missing].
  rewrite with_suffix_name, joinpath_name by done.
  pose proof (label_is_name img Hn) as Hl.
  rewrite name_snoc, joinpath_name by done.
  unfold bind at 1.
  destruct (copy2 img _ st) as [[e|[]] st1] eqn:Hc1;
    apply copy2_changes in Hc1 as [Hch1 _];
    (eapply (changes_weaken _ (copy_targets idst ldst img)) in Hch1;
      [|by intros ? ->; left; apply copy2_target_prefix]).
  { by intros [= <- <-]. }
  unfold bind at 1. rewrite exists_run. destruct (bool_decide _).
  - unfold bind at 1. destruct (copy2 _ _ st1) as [[e|[]] st2] eqn:Hc2;
      apply copy2_changes in Hc2 as [Hch2 _];
      (eapply (changes_weaken _ (copy_targets idst ldst img)) in Hch2;
        [|intros ? ->; right; apply copy2_target_prefix; by rewrite name_snoc]);
      intros [= <- <-]; by eapply changes_trans.
  - by intros [= <- <-].
Qed.

Lemma copy_loop_changes idst ldst pairs acc st r st' :
  Forall (fun p => Pathlib.is_name (Pathlib.name p)) pairs ->
  for_each (Prepare.copy_pair idst ldst) pairs acc st = (r, st') ->
  changes (fun k => exists img, img ∈ pairs /\ copy_targets idst ldst img k) st st'.
Proof.
  intros Hn. revert acc st. induction Hn as [|img pairs Hi Hn IH]; intros acc st.
  - intros [= <- <-]. apply changes_refl.
  - cbn [for_each]. unfold bind.
    destruct (Prepare.copy_pair idst ldst acc img st) as [[e|acc1] st1] eqn:E1;
      apply copy_pair_changes in E1; [|done|..|done].
    + intros [= <- <-]. eapply changes_weaken; [|done].
      intros k Hk. exists img. split; [left|done].
    + intros Hrest%IH. eapply changes_trans.
      * eapply changes_weaken; [|exact E1]. intros k Hk. exists img. split; [left|done].
      * eapply changes_weaken; [|exact Hrest].
        intros k (p & Hp & Hk). exists p. split; [by right|done].
Qed.

(** Prefixes of paths that end in one more part. *)
Lemma prefix_snoc_inv (a b : path) y :
  a `prefix_of` b ++ [y] -> a = b ++ [y] \/ a `prefix_of` b.
Proof.
  intros [r Hr]. destruct (decide (r = [])) as [->|Hne].
  - left. by rewrite app_nil_r in Hr.
  - right. destruct (exists_last Hne) as (r' & z & ->).
    rewrite app_assoc in Hr. apply app_inj_tail in Hr as [-> _]. by exists r'.
Qed.

Lemma prefix_snoc_snoc (a b : path) x y :
  (a ++ [x]) `prefix_of` (b ++ [y]) -> a `prefix_of` b.
Proof.
  intros [->%app_inj_tail_iff%proj1 | Hp]%prefix_snoc_inv; [done|].
  by eapply prefix_app_l.
Qed.

Lemma prefix_siblings (d : path) x y l :
  (d ++ [x]) `prefix_of` (d ++ y :: l) -> x = y.
Proof. intros Hp%prefix_app_inv. by apply prefix_cons_inv_1 in Hp. Qed.

End CopyFrames.

Section NamedPaths.

Lemma named_child p :
  Pathlib.is_name (Pathlib.name p) -> OS.is_child (removelast p) p.
Proof.
  intros (Hne & _). split; [|done]. intros Ht. apply Hne.
  unfold Pathlib.name. by rewrite Ht.
Qed.

Lemma named_parent p :
  Pathlib.is_name (Pathlib.name p) -> Pathlib.parent p = removelast p.
Proof.
  intros [Ht _]%named_child. unfold Pathlib.parent.
  by destruct (Pathlib.tail_parts p).
Qed.

Lemma named_split p :
  Pathlib.is_name (Pathlib.name p) -> p = removelast p ++ [Pathlib.name p].
Proof. intros Hn%named_child. by apply child_split. Qed.

End NamedPaths.

(** ** The rounds of [copy_pairs] *)

Section Rounds.

Lemma write_inv p c st st' :
  OS.write p c st = (inr tt, st') ->
  fs st !! p <> Some Dir /\ st' = State (<[p := File c]> (fs st)) (stdout st).
Proof.
  unfold OS.write. run. destruct st as [m out]. simpl.
  destruct (m !! p) as [[c0|]|]; destruct (m !! Pathlib.parent p) as [[c1|]|];
    try done; by intros [= <-].
Qed.

Lemma copy2_inv src dst st st' :
  copy2 src dst st = (inr tt, st') ->
  exists c,
    fs st !! src = Some (File c) /\
    src <> copy2_target (fs st) src dst /\
    fs st !! copy2_target (fs st) src dst <> Some Dir /\
    st' = State (<[copy2_target (fs st) src dst := File c]> (fs st)) (stdout st).
Proof.
  unfold copy2. unfold bind at 1, get_fs at 1.
  destruct (decide _) as [|Hsame]; [done|].
  unfold bind. destruct (OS.read src st) as [[e|c] st1] eqn:Hr; [done|].
  apply read_state in Hr as [-> Hc]. specialize (Hc c eq_refl).
  intros [Hnd ->]%write_inv. exists c. split; [done|].
  split; [|done]. intros Heq. apply Hsame. split; [done|]. by rewrite Hc.
Qed.

Lemma copy2_target_last (m : gmap path node) src d x :
  Pathlib.is_name x -> Pathlib.name src = x ->
  List.last (copy2_target m src (d ++ [x])) "" = x.
Proof.
  intros Hx Hn. unfold copy2_target. destruct (decide _); [|apply List.last_last].
  rewrite Hn, joinpath_name by done. apply List.last_last.
Qed.

Lemma copy2_target_dir (m m' : gmap path node) src dst :
  (m' !! dst = Some Dir <-> m !! dst = Some Dir) ->
  copy2_target m' src dst = copy2_target m src dst.
Proof.
  intros Hd. unfold copy2_target.
  destruct (decide (m' !! dst = Some Dir)), (decide (m !! dst = Some Dir)); tauto || done.
Qed.

(** The name of an image is not the name of a label. *)
Lemma rfind_go_none c i l : c ∉ l -> PyStr.rfind_go c i l = None.
Proof.
  revert i. induction l as [|d l IH]; intros i Hc; [done|].
  apply not_elem_of_cons in Hc as [Hne Hc]. cbn [PyStr.rfind_go].
  rewrite IH by done. destruct (Ascii.eqb_spec d c); congruence.
Qed.

Lemma rfind_go_last c i l r :
  c ∉ r -> PyStr.rfind_go c i (l ++ c :: r) = Some (i + length l).
Proof.
  intros Hc. revert i. induction l as [|d l IH]; intros i; cbn [app PyStr.rfind_go].
  - rewrite rfind_go_none by done. rewrite Ascii.eqb_refl. f_equal. simpl. lia.
  - rewrite IH. f_equal. simpl. lia.
Qed.

Lemma label_suffix p s :
  Pathlib.name p = s +:+ ".txt" -> Pathlib.suffix p = ".txt" \/ Pathlib.suffix p = "".
Proof.
  intros Hn. unfold Pathlib.suffix, Pathlib.suffix_index, PyStr.rfind. rewrite Hn.
  rewrite chars_append.
  change (PyStr.chars ".txt") with ("."%char :: PyStr.chars "txt").
  rewrite rfind_go_last by decided.
  destruct (_ && _); [|by right]. left.
  unfold PyStr.drop. rewrite chars_append. simpl (0 + _).
  unfold PyStr.chars at 1. rewrite drop_app_length. done.
Qed.

Lemma image_not_label p s : Prepare.is_image p -> Pathlib.name p <> s +:+ ".txt".
Proof.
  unfold Prepare.is_image. intros Hi Hn.
  destruct (label_suffix p s Hn) as [Hs|Hs]; rewrite Hs in Hi; revert Hi; decided.
Qed.

Lemma label_inj (s1 s2 : string) : s1 +:+ ".txt" = s2 +:+ ".txt" -> s1 = s2.
Proof.
  intros Heq. apply (f_equal PyStr.chars) in Heq. rewrite !chars_append in Heq.
  apply app_inv_tail in Heq.
  by rewrite <- (of_chars_chars s1), <- (of_chars_chars s2), Heq.
Qed.

Lemma sibling_names src p q :
  OS.is_child src p -> OS.is_child src q -> Pathlib.name p = Pathlib.name q -> p = q.
Proof.
  intros Hp%child_split Hq%child_split Hn. by rewrite Hp, Hq, Hn.
Qed.

Lemma child_label src p :
  OS.is_child src p -> removelast p ++ [Pathlib.stem p +:+ ".txt"] = label_of src p.
Proof. by intros [_ ->]. Qed.

(** One round on an image of [src] that returns: the image is copied; its
    name is noted exactly when it has no label; what changes is called as
    the image or as its label, is not its label, and was no directory; no
    directory comes or goes. *)
Lemma copy_pair_round src idst ldst copied missing img st acc' st' :
  OS.is_child src img -> Pathlib.is_name (Pathlib.name img) -> Prepare.is_image img ->
  Prepare.copy_pair idst ldst (copied, missing) img st = (inr acc', st') ->
  (exists c, fs st !! img = Some (File c) /\
             fs st' !! copy2_target (fs st) img (idst ++ [Pathlib.name img])
               = Some (File c)) /\
  acc' = (S copied,
          if decide (unlabelled (fs st) src img) then missing ++ [Pathlib.name img]
          else missing) /\
  stdout st' = stdout st /\
  (forall k, fs st' !! k <> fs st !! k ->
     k <> img /\ k <> label_of src img /\
     (List.last k "" = Pathlib.name img \/
      List.last k "" = Pathlib.stem img +:+ ".txt")) /\
  (forall k, fs st' !! k = Some Dir <-> fs st !! k = Some Dir).
Proof.
  intros Hchild Hn Himg. unfold Prepare.copy_pair.
  rewrite with_suffix_name, joinpath_name by done.
  rewrite (child_label src img Hchild).
  pose proof (label_is_name img Hn) as Hl.
  assert (Pathlib.name (label_of src img) = Pathlib.stem img +:+ ".txt") as Hln
    by (by apply name_snoc).
  rewrite Hln, joinpath_name by done.
  unfold bind at 1.
  destruct (copy2 img _ st) as [[e|[]] st1] eqn:E1; [done|].
  apply copy2_inv in E1 as (c & Hc & Hne1 & Hnd1 & ->).
  set (t1 := copy2_target (fs st) img (idst ++ [Pathlib.name img])) in *.
  assert (List.last t1 "" = Pathlib.name img) as Hlast1
    by (by apply copy2_target_last).
  assert (t1 <> label_of src img) as Ht1l.
  { intros Heq. rewrite Heq in Hlast1. unfold label_of in Hlast1.
    rewrite List.last_last in Hlast1. by eapply image_not_label. }
  unfold bind at 1. rewrite exists_run. cbn [fs stdout].
  rewrite lookup_insert_ne by done.
  destruct (fs st !! label_of src img) as [x|] eqn:Hlab.
  - rewrite bool_decide_eq_true_2 by eauto.
    unfold bind at 1.
    destruct (copy2 (label_of src img) _ _) as [[e|[]] st2] eqn:E2; [done|].
    apply copy2_inv in E2 as (c' & Hc' & Hne2 & Hnd2 & ->). cbn [fs stdout] in *.
    set (t2 := copy2_target (<[t1:=File c]> (fs st)) (label_of src img)
                 (ldst ++ [Pathlib.stem img +:+ ".txt"])) in *.
    assert (List.last t2 "" = Pathlib.stem img +:+ ".txt") as Hlast2
      by (by apply copy2_target_last).
    assert (t2 <> t1) as Ht21.
    { intros Heq. rewrite Heq, Hlast1 in Hlast2. by eapply image_not_label. }
    assert (t2 <> img) as Ht2i.
    { intros Heq. rewrite Heq, <- (child_name src img Hchild) in Hlast2.
      by eapply image_not_label. }
    intros [= <- <-]. cbn [fs stdout]. split_and!.
    + exists c. by rewrite lookup_insert_ne, lookup_insert_eq.
    + rewrite decide_False; [done|]. unfold unlabelled. by rewrite Hlab.
    + done.
    + intros k Hk. destruct (decide (k = t2)) as [->|Hk2].
      { split_and!; auto. }
      rewrite lookup_insert_ne in Hk by done.
      destruct (decide (k = t1)) as [->|Hk1]; [split_and!; auto|].
      by rewrite lookup_insert_ne in Hk.
    + intros k. rewrite !lookup_insert. rewrite lookup_insert_ne in Hnd2 by done.
      repeat case_decide; subst; split; intros ?; congruence.
  - rewrite bool_decide_eq_false_2 by (by intros [? ?]).
    intros [= <- <-]. cbn [fs stdout]. split_and!.
    + exists c. by rewrite lookup_insert_eq.
    + by rewrite decide_True.
    + done.
    + intros k Hk. destruct (decide (k = t1)) as [->|Hk1]; [split_and!; auto|].
      by rewrite lookup_insert_ne in Hk.
    + intros k. rewrite !lookup_insert.
      case_decide; subst; split; intros ?; congruence.
Qed.

(** The rounds of a list that [main] passes. *)
Lemma copy_loop_scan src idst ldst pairs :
  scanned src pairs ->
  forall copied missing st copied' missing' st',
  for_each (Prepare.copy_pair idst ldst) pairs (copied, missing) st
    = (inr (copied', missing'), st') ->
  copied' = copied + length pairs /\
  missing' = missing ++ (Pathlib.name <$> filter (unlabelled (fs st) src) pairs) /\
  stdout st' = stdout st /\
  (forall p, p ∈ pairs ->
     exists c, fs st !! p = Some (File c) /\
               fs st' !! copy2_target (fs st) p (idst ++ [Pathlib.name p]) = Some (File c)) /\
  (forall k, fs st' !! k <> fs st !! k ->
     exists q, q ∈ pairs /\ k <> q /\ k <> label_of src q /\
       (List.last k "" = Pathlib.name q \/ List.last k "" = Pathlib.stem q +:+ ".txt")) /\
  (forall k, fs st' !! k = Some Dir <-> fs st !! k = Some Dir).
Proof.
  intros [Hnd Hall]. induction pairs as [|q rest IH];
    intros copied missing st copied' missing' st'; cbn [for_each].
  { intros [= <- <- <-]. rewrite Nat.add_0_r, filter_nil, fmap_nil, app_nil_r.
    split_and!; try done. by intros p Hp%elem_of_nil. }
  apply NoDup_cons in Hnd as [Hq Hnd].
  apply Forall_cons in Hall as [(Hqc & Hqn & Hqi) Hall].
  specialize (IH Hnd Hall).
  unfold bind.
  destruct (Prepare.copy_pair idst ldst (copied, missing) q st) as [[e|acc1] s1] eqn:E1;
    [done|].
  apply (copy_pair_round src) in E1 as ([c Hcopy] & -> & Ho1 & Hch1 & Hd1); try done.
  intros (-> & -> & Ho & Himgs & Hch & Hd)%IH.
  assert (forall r, r ∈ rest -> fs s1 !! r = fs st !! r) as Hsame.
  { intros r Hr. destruct (decide (fs s1 !! r = fs st !! r)) as [|Hne]; [done|].
    destruct (Hch1 r Hne) as (_ & _ & Hlast).
    eapply Forall_forall in Hall as (Hrc & Hrn & Hri); [|exact Hr].
    rewrite <- (child_name src r Hrc) in Hlast. destruct Hlast as [Hl|Hl].
    - apply (sibling_names src) in Hl; [|done..]. by subst.
    - by eapply image_not_label in Hl. }
  assert (forall r, r ∈ rest -> fs s1 !! label_of src r = fs st !! label_of src r) as Hlabel.
  { intros r Hr.
    destruct (decide (fs s1 !! label_of src r = fs st !! label_of src r)) as [|Hne];
      [done|].
    destruct (Hch1 _ Hne) as (_ & Hnl & Hlast).
    unfold label_of in Hlast at 1 2. rewrite List.last_last in Hlast.
    destruct Hlast as [Hl|Hl].
    - symmetry in Hl. by eapply image_not_label in Hl.
    - apply label_inj in Hl. exfalso. apply Hnl. unfold label_of. by rewrite Hl. }
  split_and!.
  - simpl. lia.
  - rewrite filter_cons.
    rewrite (filter_ext_elem (unlabelled (fs s1) src) (unlabelled (fs st) src) rest).
    2: { intros r Hr. unfold unlabelled. by rewrite Hlabel. }
    destruct (decide (unlabelled (fs st) src q)); [|done].
    by rewrite fmap_cons, <- app_assoc.
  - congruence.
  - intros p [->|Hp]%elem_of_cons.
    + destruct Hcopy as [Hc Ht]. exists c. split; [done|].
      set (t1 := copy2_target (fs st) q (idst ++ [Pathlib.name q])) in *.
      destruct (decide (fs st' !! t1 = fs s1 !! t1)) as [->|Hne]; [done|].
      destruct (Hch t1 Hne) as (r & Hr & _ & _ & Hlast).
      unfold t1 in Hlast. rewrite copy2_target_last in Hlast by done.
      eapply Forall_forall in Hall as (Hrc & Hrn & Hri); [|exact Hr].
      destruct Hlast as [Hl|Hl].
      * apply (sibling_names src) in Hl; [|done..]. by subst.
      * by eapply image_not_label in Hl.
    + destruct (Himgs p Hp) as (c' & Hc' & Ht'). exists c'.
      rewrite <- (Hsame p Hp). split; [done|].
      by rewrite <- (copy2_target_dir (fs st) (fs s1)).
  - intros k Hk. destruct (decide (fs s1 !! k = fs st !! k)) as [Heq|Hne].
    + rewrite <- Heq in Hk. destruct (Hch k Hk) as (r & Hr & Hrest).
      exists r. split; [by right|done].
    + exists q. split; [left|by apply Hch1].
  - intros k. by rewrite Hd, Hd1.
Qed.

(** Every image of a list is reached and copied by a call that returns. *)
Lemma copy_loop_steps idst ldst pre p post acc st acc' st' :
  for_each (Prepare.copy_pair idst ldst) (pre ++ p :: post) acc st = (inr acc', st') ->
  exists acc0 s0 s1 c,
    for_each (Prepare.copy_pair idst ldst) pre acc st = (inr acc0, s0) /\
    copy2 p (idst // Pathlib.name p) s0 = (inr tt, s1) /\
    fs s0 !! p = Some (File c) /\
    fs s1 !! copy2_target (fs s0) p (idst // Pathlib.name p) = Some (File c).
Proof.
  rewrite for_each_app.
  destruct (for_each _ pre acc st) as [[e|acc0] s0]; [done|].
  cbn [for_each]. unfold bind at 1.
  destruct (Prepare.copy_pair idst ldst acc0 p s0) as [[e|acc1] s2] eqn:E; [done|].
  intros _. unfold Prepare.copy_pair in E. destruct acc0 as [copied missing].
  destruct (Pathlib.with_suffix p ".txt") as [txt|]; [|done].
  unfold bind at 1 in E.
  destruct (copy2 p _ s0) as [[e|[]] s1] eqn:E1; [done|].
  pose proof E1 as (c & Hc & _ & _ & ->)%copy2_inv.
  eexists (copied, missing), s0, _, c. split_and!; [done|exact E1|done|].
  cbn [fs]. by rewrite lookup_insert_eq.
Qed.




(** C9.  When [copy_pairs] returns, the count is the length of its input
    and the missing-labels list is a subsequence of the names of the input
    images, in their order; and every image of the list has been reached
    and copied: its [copy2] call returned and left the content of the image
    at its place in the destination.  For the lists that [main] passes,
    different image entries of one directory, the missing-labels list is
    the list of the names of the images without label, and when the call
    has returned every image is in the destination with its content. *)
Theorem copy_pairs_count pairs idst ldst st copied missing st' :
  Prepare.copy_pairs pairs idst ldst st = (inr (copied, missing), st') ->
  copied = length pairs /\
  missing `sublist_of` (Pathlib.name <$> pairs) /\
  (forall pre p post, pairs = pre ++ p :: post ->
     exists acc s0 s1 c,
       Prepare.copy_pairs pre idst ldst st = (inr acc, s0) /\
       copy2 p (idst // Pathlib.name p) s0 = (inr tt, s1) /\
       fs s0 !! p = Some (File c) /\
       fs s1 !! copy2_target (fs s0) p (idst // Pathlib.name p) = Some (File c)) /\
  (forall src, scanned src pairs ->
     missing = Pathlib.name <$> filter (unlabelled (fs st) src) pairs /\
     forall p, p ∈ pairs ->
       exists c, fs st !! p = Some (File c) /\
                 fs st' !! copy2_target (fs st) p (idst // Pathlib.name p)
                   = Some (File c)).
Proof.
  intros Hrun. pose proof Hrun as (-> & added & -> & Hsub)%copy_loop_locals.
  split; [done|]. split; [done|]. split.
  - intros pre p post ->. unfold Prepare.copy_pairs in *.
    by apply copy_loop_steps in Hrun.
  - intros src Hscan.
    pose proof (copy_loop_scan src idst ldst pairs Hscan _ _ _ _ _ _ Hrun)
      as (_ & Hm & _ & Himgs & _).
    split; [exact Hm|]. intros p Hp.
    destruct Hscan as [_ Hall]. eapply Forall_forall in Hall as (_ & Hn & _); [|exact Hp].
    rewrite joinpath_name by done. by apply Himgs.
Qed.


End Rounds.

(** The lists of a run are such lists. *)
Section Scanned.
Context `{PyRuntime}.

Lemma find_images_scanned src st imgs :
  (forall q, OS.is_child src q -> is_Some (fs st !! q) ->
             Pathlib.is_name (Pathlib.name q)) ->
  Prepare.find_images src st = (inr imgs, st) ->
  scanned src imgs.
Proof.
  intros Hnames. unfold Prepare.find_images, OS.iterdir. run.
  destruct (fs st !! src) as [[]|]; try done. intros [= <-]. split.
  - apply NoDup_filter, NoDup_children.
  - apply Forall_forall.
    intros q [Hi [Hc Hs]%elem_of_children]%list_elem_of_filter. auto.
Qed.

Lemma split_scanned src imgs val g val_imgs train_imgs :
  scanned src imgs ->
  Prepare.split imgs val g = inr (val_imgs, train_imgs) ->
  scanned src val_imgs /\ scanned src train_imgs.
Proof.
  intros [Hnd Hall] Hperm%split_permutation.
  rewrite <- Hperm in Hnd, Hall.
  apply NoDup_app in Hnd as (? & _ & ?). apply Forall_app in Hall as [? ?].
  by split.
Qed.

End Scanned.

Lemma copy_pairs_count_witness :
  let pairs := [raw ++ ["a.jpg"]; raw ++ ["b.PNG"]; raw ++ ["c.jpeg"]] in
  let idst := out ++ ["images"; "train"] in
  let ldst := out ++ ["labels"; "train"] in
  let st' := (Prepare.copy_pairs pairs idst ldst prepared).2 in
  3 = length pairs /\
  ["b.PNG"] `sublist_of` (Pathlib.name <$> pairs) /\
  (forall pre p post, pairs = pre ++ p :: post ->
     exists acc s0 s1 c,
       Prepare.copy_pairs pre idst ldst prepared = (inr acc, s0) /\
       copy2 p (idst // Pathlib.name p) s0 = (inr tt, s1) /\
       fs s0 !! p = Some (File c) /\
       fs s1 !! copy2_target (fs s0) p (idst // Pathlib.name p) = Some (File c)) /\
  (forall src, scanned src pairs ->
     ["b.PNG"] = Pathlib.name <$> filter (unlabelled (fs prepared) src) pairs /\
     forall p, p ∈ pairs ->
       exists c, fs prepared !! p = Some (File c) /\
                 fs st' !! copy2_target (fs prepared) p (idst // Pathlib.name p)
                   = Some (File c)).
Proof.
  intros pairs idst ldst st'.
  apply (copy_pairs_count pairs idst ldst prepared 3 ["b.PNG"] st').
  vm_compute. reflexivity.
Defined.


(** ** The text of [classes.txt] *)

Section ClassText.

Lemma rev_is_reverse {A} (l : list A) : rev l = reverse l.
Proof. unfold reverse. apply rev_alt. Qed.

Lemma lstrip_head t c t' : PyStr.lstrip t = c :: t' -> PyStr.is_space c = false.
Proof.
  induction t as [|x t IH]; [done|]. cbn [PyStr.lstrip].
  destruct (PyStr.is_space x) eqn:Hx; [done|]. by intros [= <- _].
Qed.

Lemma blank_nil : Spec.blank [].
Proof. constructor. Qed.

Lemma lstrip_split t : exists pre, t = pre ++ PyStr.lstrip t /\ Spec.blank pre.
Proof.
  induction t as [|x t (pre & IH & Hpre)]; [exists []; split; [done|apply blank_nil]|].
  cbn [PyStr.lstrip]. destruct (PyStr.is_space x) eqn:Hx.
  - exists (x :: pre). split; [simpl; by f_equal|by constructor].
  - exists []. split; [done|apply blank_nil].
Qed.

Lemma lstrip_blank t : PyStr.lstrip t = [] <-> Spec.blank t.
Proof.
  induction t as [|x t IH]; [split; [intros _; apply blank_nil|done]|].
  cbn [PyStr.lstrip]. unfold Spec.blank in *.
  rewrite Forall_cons. destruct (PyStr.is_space x) eqn:Hx.
  - rewrite IH. tauto.
  - split; [done|]. by intros [? _].
Qed.

Lemma blank_rev t : Spec.blank (rev t) <-> Spec.blank t.
Proof. unfold Spec.blank. rewrite rev_is_reverse. apply Forall_reverse. Qed.

Lemma blank_lstrip t : Spec.blank (PyStr.lstrip t) <-> Spec.blank t.
Proof.
  destruct (lstrip_split t) as (pre & Ht & Hpre). split.
  - intros Hl. rewrite Ht. by apply Forall_app.
  - intros Hb. rewrite Ht in Hb. by apply Forall_app in Hb as [_ ?].
Qed.

Lemma strip_blank t : PyStr.strip t = [] <-> Spec.blank t.
Proof.
  unfold PyStr.strip. rewrite <- blank_lstrip, <- (blank_rev (PyStr.lstrip t)).
  rewrite <- lstrip_blank. split.
  - intros Hr. apply (f_equal (@rev N)) in Hr. by rewrite rev_involutive in Hr.
  - by intros ->.
Qed.

Lemma strip_split t :
  exists pre post, t = pre ++ PyStr.strip t ++ post /\ Spec.blank pre /\ Spec.blank post.
Proof.
  destruct (lstrip_split t) as (pre & Ht & Hpre).
  destruct (lstrip_split (rev (PyStr.lstrip t))) as (q & Ha & Hq).
  exists pre, (rev q). split; [|split; [done|by apply blank_rev]].
  unfold PyStr.strip. rewrite <- rev_app_distr, <- Ha, rev_involutive. done.
Qed.

Lemma strip_ends t :
  (forall c, head (PyStr.strip t) = Some c -> PyStr.is_space c = false) /\
  (forall c, last (PyStr.strip t) = Some c -> PyStr.is_space c = false).
Proof.
  unfold PyStr.strip. set (a := PyStr.lstrip t). rewrite !rev_is_reverse. split.
  - intros c. rewrite head_reverse. intros Hc.
    destruct (lstrip_split (reverse a)) as (q & Ha & _).
    assert (last (reverse a) = Some c) as Hl by (by rewrite Ha, last_app, Hc).
    rewrite last_reverse in Hl. destruct a as [|x a'] eqn:Ea; [done|].
    injection Hl as <-. by eapply lstrip_head.
  - intros c. rewrite last_reverse. intros Hc.
    destruct (PyStr.lstrip (reverse a)) as [|x b] eqn:Hb; [done|].
    injection Hc as <-. by eapply lstrip_head.
Qed.

(** The stripped line is the line without the white space at its ends. *)
Lemma strip_trimmed l : Spec.trimmed l (PyStr.strip l).
Proof.
  destruct (strip_split l) as (pre & post & Hl & Hpre & Hpost).
  destruct (strip_ends l) as [Hh Ht]. by exists pre, post.
Qed.

Lemma lines_cons t : exists l ls, Spec.lines t = l :: ls.
Proof.
  destruct t as [|c t]; [by eexists _, _|]. cbn [Spec.lines].
  destruct (PyStr.is_linebreak c); [by eexists _, _|].
  destruct (Spec.lines t); by eexists _, _.
Qed.

Lemma filter_blank_nil (ls : list PyStr.text) :
  filter (fun l => ~ Spec.blank l) ([] :: ls) = filter (fun l => ~ Spec.blank l) ls.
Proof. rewrite filter_cons_False; [done|]. intros Hn. apply Hn. constructor. Qed.

(** Up to blank lines, [str.splitlines] gives the text between the line
    boundaries: a carriage return and newline leave an empty line between
    them, and so does the end of the text after a boundary. *)
Lemma splitlines_go_lines n : forall t cur,
  length t <= n ->
  exists l ls,
    Spec.lines t = l :: ls /\
    filter (fun l => ~ Spec.blank l) (PyStr.splitlines_go cur t)
    = filter (fun l => ~ Spec.blank l) ((rev cur ++ l) :: ls).
Proof.
  induction n as [|n IH]; intros t cur Hlen.
  { destruct t; [|simpl in Hlen; lia]. exists [], []. split; [done|].
    cbn [PyStr.splitlines_go]. rewrite app_nil_r.
    destruct cur as [|c cur]; [by rewrite filter_blank_nil|done]. }
  destruct t as [|c t'].
  { exists [], []. split; [done|].
    cbn [PyStr.splitlines_go]. rewrite app_nil_r.
    destruct cur as [|c cur]; [by rewrite filter_blank_nil|done]. }
  simpl in Hlen. cbn [PyStr.splitlines_go Spec.lines].
  destruct (PyStr.is_linebreak c) eqn:Hc.
  - exists [], (Spec.lines t'). split; [done|]. rewrite app_nil_r.
    assert (forall X,
              filter (fun l => ~ Spec.blank l) X
              = filter (fun l => ~ Spec.blank l) (Spec.lines t') ->
              filter (fun l => ~ Spec.blank l) (rev cur :: X)
              = filter (fun l => ~ Spec.blank l) (rev cur :: Spec.lines t')) as Hcons.
    { intros X HX. rewrite !filter_cons, HX. done. }
    assert (filter (fun l => ~ Spec.blank l) (PyStr.splitlines_go [] t')
            = filter (fun l => ~ Spec.blank l) (Spec.lines t')) as Hnext.
    { destruct (IH t' [] ltac:(lia)) as (l & ls & -> & ->). done. }
    apply Hcons. destruct (c =? 13)%N; [|done].
    destruct t' as [|c' t'']; [cbn [Spec.lines]; by rewrite filter_blank_nil|].
    destruct (c' =? 10)%N eqn:Hc'; [|done].
    apply N.eqb_eq in Hc' as ->. cbn [Spec.lines].
    change (PyStr.is_linebreak 10) with true. cbn iota. rewrite filter_blank_nil.
    simpl in Hlen. destruct (IH t'' [] ltac:(lia)) as (l & ls & -> & ->). done.
  - destruct (IH t' (c :: cur) ltac:(lia)) as (l & ls & -> & ->).
    exists (c :: l), ls. split; [done|]. simpl. by rewrite <- app_assoc.
Qed.

(** Up to empty lines, reading with universal newlines changes no line. *)
Lemma universal_newlines_lines n : forall t,
  length t <= n ->
  exists l ls1 ls2,
    Spec.lines (PyStr.universal_newlines t) = l :: ls1 /\
    Spec.lines t = l :: ls2 /\
    filter (fun l => ~ Spec.blank l) ls1 = filter (fun l => ~ Spec.blank l) ls2.
Proof.
  induction n as [|n IH]; intros t Hlen.
  { destruct t; [|simpl in Hlen; lia]. by exists [], [], []. }
  destruct t as [|c t']; [by exists [], [], []|].
  simpl in Hlen. cbn [PyStr.universal_newlines].
  destruct (c =? 13)%N eqn:Hc.
  - apply N.eqb_eq in Hc as ->. cbn [Spec.lines].
    change (PyStr.is_linebreak 13) with true. change (PyStr.is_linebreak 10) with true.
    cbn iota. eexists [], _, _. split; [done|]. split; [done|].
    destruct t' as [|c' t'']; [done|].
    destruct (c' =? 10)%N eqn:Hc'.
    + apply N.eqb_eq in Hc' as ->. cbn [Spec.lines].
      change (PyStr.is_linebreak 10) with true. cbn iota. rewrite filter_blank_nil.
      simpl in Hlen. destruct (IH t'' ltac:(lia)) as (l & ls1 & ls2 & -> & -> & Hf).
      by rewrite !filter_cons, Hf.
    + destruct (IH (c' :: t'') ltac:(simpl in *; lia)) as (l & ls1 & ls2 & -> & -> & Hf).
      by rewrite !filter_cons, Hf.
  - destruct (IH t' ltac:(lia)) as (l & ls1 & ls2 & H1 & H2 & Hf).
    cbn [Spec.lines]. rewrite H1, H2. destruct (PyStr.is_linebreak c).
    + eexists [], _, _. split; [done|]. split; [done|]. by rewrite !filter_cons, Hf.
    + by eexists (c :: l), _, _.
Qed.

(** What [read_classes] keeps of the text it read: the lines of the file
    that are not blank. *)
Lemma class_lines_read t :
  filter (fun l => PyStr.strip l <> []) (PyStr.splitlines (PyStr.universal_newlines t))
  = Spec.class_lines t.
Proof.
  rewrite (list_filter_iff _ (fun l => ~ Spec.blank l))
    by (intros l; by rewrite strip_blank).
  unfold PyStr.splitlines, Spec.class_lines.
  destruct (splitlines_go_lines _ (PyStr.universal_newlines t) [] (le_n _))
    as (l & ls & Hl & ->).
  simpl. rewrite <- Hl.
  destruct (universal_newlines_lines _ t (le_n _)) as (l' & ls1 & ls2 & -> & -> & Hf).
  by rewrite !filter_cons, Hf.
Qed.

Lemma lines_no_break t l :
  l ∈ Spec.lines t -> Forall (fun c => PyStr.is_linebreak c = false) l.
Proof.
  revert l. induction t as [|c t IH]; intros l; cbn [Spec.lines].
  - by intros ->%list_elem_of_singleton.
  - destruct (PyStr.is_linebreak c) eqn:Hc.
    + intros [->|Hl]%elem_of_cons; [constructor|by apply IH].
    + destruct (Spec.lines t) as [|l0 ls].
      * intros ->%list_elem_of_singleton. by repeat constructor.
      * intros [->|Hl]%elem_of_cons.
        -- constructor; [done|]. apply IH. left.
        -- apply IH. by right.
Qed.

End ClassText.

(** ** The whole run *)

Section Run.
Context `{PyRuntime}.

Lemma copy_pair_changes_any idst ldst acc img st r st' :
  Prepare.copy_pair idst ldst acc img st = (r, st') ->
  changes (fun _ => True) st st'.
Proof.
  unfold Prepare.copy_pair. destruct acc as [copied missing].
  destruct (Pathlib.with_suffix img ".txt") as [txt|];
    [|intros [= <- <-]; apply changes_refl].
  unfold bind at 1.
  destruct (copy2 img _ st) as [[e|[]] st1] eqn:Hc1;
    apply copy2_changes in Hc1 as [Hch1 _];
    (eapply (changes_weaken _ (fun _ => True)) in Hch1; [|done]).
  { by intros [= <- <-]. }
  unfold bind at 1. rewrite exists_run. destruct (bool_decide _).
  - unfold bind at 1. destruct (copy2 _ _ st1) as [[e|[]] st2] eqn:Hc2;
      apply copy2_changes in Hc2 as [Hch2 _];
      (eapply (changes_weaken _ (fun _ => True)) in Hch2; [|done]);
      intros [= <- <-]; by eapply changes_trans.
  - by intros [= <- <-].
Qed.

Lemma copy_pairs_changes_any pairs idst ldst st r st' :
  Prepare.copy_pairs pairs idst ldst st = (r, st') ->
  changes (fun _ => True) st st'.
Proof.
  unfold Prepare.copy_pairs. generalize (0, @nil string). revert st.
  induction pairs as [|img pairs IH]; intros st acc.
  - intros [= <- <-]. apply changes_refl.
  - cbn [for_each]. unfold bind.
    destruct (Prepare.copy_pair idst ldst acc img st) as [[e|acc1] st1] eqn:E1;
      apply copy_pair_changes_any in E1.
    + by intros [= <- <-].
    + intros Hrest%IH. by eapply changes_trans.
Qed.

Lemma print_each_run (f : string -> string) ms st :
  for_each (fun _ m => print (f m)) ms tt st
    = (inr tt, State (fs st) (stdout st ++ (f <$> ms))).
Proof.
  revert st. induction ms as [|m ms IH]; intros st; cbn [for_each].
  - unfold ret. rewrite app_nil_r. by destruct st.
  - unfold bind, print at 1. rewrite IH. simpl. by rewrite <- app_assoc.
Qed.

Lemma summary_run dest total ct cv mt mv st :
  exists lines,
    Prepare.summary dest total ct cv mt mv st
      = (inr tt, State (fs st) (stdout st ++ lines)) /\
    ("Train images copied: " +:+ pretty ct +:+ "  (missing labels: "
       +:+ pretty (length mt) +:+ " )") ∈ lines.
Proof.
  unfold Prepare.summary.
  destruct (mt ++ mv) as [|m ms].
  - eexists. unfold bind, print, ret. cbn [fs stdout].
    rewrite <- !app_assoc. split; [done|]. listed.
  - eexists. unfold bind at 1 2 3 4 5, print at 1 2 3 4. cbn [fs stdout].
    unfold bind at 1, print at 1. cbn [fs stdout].
    rewrite print_each_run. cbn [fs stdout].
    unfold bind, print. cbn [fs stdout].
    rewrite <- !app_assoc. split; [done|]. listed.
Qed.

Lemma prepare_dirs_changes dest st r st' :
  Prepare.prepare_dirs dest st = (r, st') ->
  changes (fun k => exists d, d ∈ dest_dirs dest /\ k `prefix_of` d) st st' /\
  (r = inr tt -> forall d, d ∈ dest_dirs dest -> fs st' !! d = Some Dir).
Proof.
  unfold Prepare.prepare_dirs, dest_dirs.
  set (P := fun k => exists d, _ /\ k `prefix_of` d).
  assert (forall d st r st', d ∈ dest_dirs dest -> mkdir_parents d st = (r, st') ->
            changes P st st' /\ (r = inr tt -> fs st' !! d = Some Dir)) as Hone.
  { intros d st0 r0 st0' Hd [Hch Hdir]%mkdir_parents_changes. split; [|done].
    eapply changes_weaken; [|done]. intros k Hk. by exists d. }
  unfold bind.
  destruct (mkdir_parents _ st) as [[e|[]] st1] eqn:E1;
    apply Hone in E1 as [Hc1 Hd1]; [|listed| |listed].
  { by intros [= <- <-]. }
  destruct (mkdir_parents _ st1) as [[e|[]] st2] eqn:E2;
    apply Hone in E2 as [Hc2 Hd2]; [|listed| |listed].
  { intros [= <- <-]. split; [by eapply changes_trans|done]. }
  destruct (mkdir_parents _ st2) as [[e|[]] st3] eqn:E3;
    apply Hone in E3 as [Hc3 Hd3]; [|listed| |listed].
  { intros [= <- <-]. split; [|done]. eauto using changes_trans. }
  intros [Hc4 Hd4]%Hone; [|listed].
  split; [eauto using changes_trans|].
  intros Hr d Hd. unfold dest_dirs in Hd.
  repeat (apply elem_of_cons in Hd as [->|Hd]); [| | | |by apply elem_of_nil in Hd];
    eauto 10 using changes_dir.
Qed.

(** The steps of a run of [prepare] that ends without an exception. *)
Lemma prepare_success a imgs classes st st' :
  Prepare.prepare a imgs classes st = (inr tt, st') ->
  exists val_imgs train_imgs train val st1 st2 st3 st4,
    Prepare.split imgs (Prepare.arg_val a) (rng_seed (Prepare.arg_seed a))
      = inr (val_imgs, train_imgs) /\
    Prepare.prepare_dirs (Prepare.arg_dest a) st = (inr tt, st1) /\
    Prepare.copy_pairs train_imgs (Prepare.arg_dest a // "images" // "train")
      (Prepare.arg_dest a // "labels" // "train") st1 = (inr train, st2) /\
    Prepare.copy_pairs val_imgs (Prepare.arg_dest a // "images" // "val")
      (Prepare.arg_dest a // "labels" // "val") st2 = (inr val, st3) /\
    Prepare.write_data_yaml (Prepare.arg_dest a) (length classes) classes st3
      = (inr tt, st4) /\
    fs st' = fs st4 /\
    stdout st4 `prefix_of` stdout st' /\
    ("Train images copied: " +:+ pretty train.1 +:+ "  (missing labels: "
       +:+ pretty (length train.2) +:+ " )") ∈ stdout st'.
Proof.
  unfold Prepare.prepare. intros Hrun.
  unfold bind at 1 in Hrun.
  destruct (Prepare.prepare_dirs _ st) as [[e|[]] st1] eqn:E1; [done|].
  unfold bind at 1 in Hrun.
  destruct (Prepare.split _ _ _) as [e|[val_imgs train_imgs]]; [done|].
  unfold lift, ret at 1 in Hrun. unfold bind at 1 in Hrun.
  destruct (Prepare.copy_pairs train_imgs _ _ st1) as [[e|train] st2] eqn:E2; [done|].
  unfold bind at 1 in Hrun.
  destruct (Prepare.copy_pairs val_imgs _ _ st2) as [[e|val] st3] eqn:E3; [done|].
  unfold bind at 1 in Hrun.
  destruct (Prepare.write_data_yaml _ _ _ st3) as [[e|[]] st4] eqn:E4; [done|].
  destruct (summary_run (Prepare.arg_dest a) (length imgs) train.1 val.1 train.2 val.2 st4)
    as (lines & Hs & Hline).
  rewrite Hs in Hrun. injection Hrun as <-.
  exists val_imgs, train_imgs, train, val, st1, st2, st3, st4.
  repeat (split; [done|]). split; [by apply prefix_app_r|].
  simpl. apply elem_of_app. by right.
Qed.

Lemma find_images_cases src st :
  Prepare.find_images src st =
    (match fs st !! src with
     | Some Dir => inr (filter Prepare.is_image (OS.children (fs st) src))
     | Some (File _) => inl NotADirectoryError
     | None => inl FileNotFoundError
     end, st).
Proof.
  unfold Prepare.find_images, OS.iterdir. run.
  by destruct (fs st !! src) as [[]|].
Qed.

Lemma read_classes_cases src st :
  Prepare.read_classes src st =
    (match fs st !! (src // "classes.txt") with
     | Some (File bytes) =>
         match PyStr.decode bytes with
         | Some t => inr (Some (PyStr.strip <$> Spec.class_lines t))
         | None => inl UnicodeDecodeError
         end
     | Some Dir => inl IsADirectoryError
     | None => inr None
     end, st).
Proof.
  unfold Prepare.read_classes, OS.read_text, OS.read. unfold bind at 1. rewrite exists_run.
  destruct (fs st !! (src // "classes.txt")) as [[bytes|]|] eqn:Hc.
  - rewrite bool_decide_eq_true_2 by eauto. run. rewrite Hc.
    destruct (PyStr.decode bytes) as [t|]; [|done]. by rewrite class_lines_read.
  - rewrite bool_decide_eq_true_2 by eauto. run. by rewrite Hc.
  - rewrite bool_decide_eq_false_2 by (by intros [? ?]). done.
Qed.

Lemma classes_of_lines (m : gmap path node) src :
  classes_of m src =
    match m !! (src ++ ["classes.txt"]) with
    | Some (File bytes) =>
        match PyStr.decode bytes with
        | Some t => PyStr.strip <$> Spec.class_lines t
        | None => []
        end
    | _ => []
    end.
Proof.
  unfold classes_of. destruct (m !! _) as [[bytes|]|]; try done.
  destruct (PyStr.decode bytes); [|done]. by rewrite class_lines_read.
Qed.

Lemma prepare_outcome a imgs classes st st' :
  Prepare.prepare a imgs classes st = (inr tt, st') ->
  fs st' !! (Prepare.arg_dest a // "data.yaml")
    = Some (File (Prepare.data_yaml (Prepare.arg_dest a) (length classes) classes)) /\
  (forall d, d ∈ dest_dirs (Prepare.arg_dest a) -> fs st' !! d = Some Dir) /\
  stdout st `prefix_of` stdout st'.
Proof.
  intros (vi & ti & tr & vr & st1 & st2 & st3 & st4 &
          _ & Hd & Ht & Hv & Hy & Hfs & Hout & _)%prepare_success.
  apply prepare_dirs_changes in Hd as [Hc1 Hdirs].
  apply copy_pairs_changes_any in Ht as Hc2.
  apply copy_pairs_changes_any in Hv as Hc3.
  apply write_changes in Hy as [Hc4 Hyaml].
  rewrite Hfs. split; [by apply Hyaml|]. split.
  - intros d Hdd. eapply changes_dir; [exact Hc4|].
    eapply changes_dir; [exact Hc3|]. eapply changes_dir; [exact Hc2|]. by apply Hdirs.
  - etrans; [apply Hc1|]. etrans; [apply Hc2|]. etrans; [apply Hc3|].
    etrans; [apply Hc4|]. done.
Qed.

(** C5, as amended.  With [classes.txt] a file of UTF-8 text,
    [read_classes] returns one name for each line that is not blank, in
    order: the line without the white space at its two ends.  With a file
    that is not UTF-8 it raises [UnicodeDecodeError].  With the file absent
    it returns [None], and a run that found images then prints the warning
    and goes on as with an empty list of classes: when it ends, [data.yaml]
    says [nc: 0] and [names: []] and the four directories are there. *)
Theorem read_classes_lines a st :
  (forall bytes t,
     fs st !! (Prepare.arg_src a // "classes.txt") = Some (File bytes) ->
     PyStr.decode bytes = Some t ->
     exists names,
       Prepare.read_classes (Prepare.arg_src a) st = (inr (Some names), st) /\
       Forall2 Spec.trimmed (Spec.class_lines t) names) /\
  (forall bytes,
     fs st !! (Prepare.arg_src a // "classes.txt") = Some (File bytes) ->
     PyStr.decode bytes = None ->
     Prepare.read_classes (Prepare.arg_src a) st = (inl UnicodeDecodeError, st)) /\
  (fs st !! (Prepare.arg_src a // "classes.txt") = None ->
   Prepare.read_classes (Prepare.arg_src a) st = (inr None, st) /\
   forall imgs,
     imgs <> [] ->
     Prepare.find_images (Prepare.arg_src a) st = (inr imgs, st) ->
     Prepare.main a st =
       Prepare.prepare a imgs []
         (State (fs st)
                (stdout st ++ ["Source: " +:+ Pathlib.str (Prepare.arg_src a);
                               "Destination: " +:+ Pathlib.str (Prepare.arg_dest a);
                               Prepare.warning])) /\
     forall st',
       Prepare.main a st = (inr tt, st') ->
       Prepare.warning ∈ stdout st' /\
       fs st' !! (Prepare.arg_dest a // "data.yaml") =
         Some (File ("train: " +:+ Pathlib.str (Prepare.arg_dest a // "images" // "train")
                     +:+ newline +:+
                     "val: " +:+ Pathlib.str (Prepare.arg_dest a // "images" // "val")
                     +:+ newline +:+
                     "nc: 0" +:+ newline +:+ "names: []" +:+ newline)) /\
       forall d, d ∈ dest_dirs (Prepare.arg_dest a) -> fs st' !! d = Some Dir).
Proof.
  split; [|split].
  - intros bytes t Hc Ht. eexists. split; [by rewrite read_classes_cases, Hc, Ht|].
    apply Forall2_fmap_r, Forall_Forall2_diag, Forall_forall.
    intros l _. apply strip_trimmed.
  - intros bytes Hc Ht. by rewrite read_classes_cases, Hc, Ht.
  - intros Hc. split; [by rewrite read_classes_cases, Hc|].
    intros imgs Hne Hfind.
    rewrite find_images_cases in Hfind. injection Hfind as Hfind.
    assert (Prepare.main a st =
              Prepare.prepare a imgs []
                (State (fs st)
                   (stdout st ++ ["Source: " +:+ Pathlib.str (Prepare.arg_src a);
                                  "Destination: " +:+ Pathlib.str (Prepare.arg_dest a);
                                  Prepare.warning]))) as Hmain.
    { unfold Prepare.main.
      unfold bind at 1, print at 1. unfold bind at 1, print at 1. cbn [fs stdout].
      unfold bind at 1. rewrite find_images_cases. cbn [fs stdout]. rewrite Hfind.
      destruct imgs as [|img imgs]; [done|].
      unfold bind at 1. rewrite read_classes_cases. cbn [fs stdout]. rewrite Hc.
      unfold bind at 1 2, print at 1, ret at 1. cbn [fs stdout].
      by rewrite <- !app_assoc. }
    split; [done|]. rewrite Hmain. intros st' (Hyaml & Hdirs & Hout)%prepare_outcome.
    split; [|split; [|done]].
    + destruct Hout as [l ->]. cbn [stdout]. rewrite <- !app_assoc.
      listed. rewrite !in_app_iff. simpl. auto 8.
    + exact Hyaml.
Qed.

End Run.

Lemma read_classes_lines_witness :
  (exists names,
     Prepare.read_classes raw (State sample_fs []) = (inr (Some names), State sample_fs []) /\
     Forall2 Spec.trimmed
       (Spec.class_lines
          (PyStr.points ("cat" +:+ newline +:+ " dog " +:+ newline +:+ newline))) names) /\
  Prepare.read_classes raw (State latin_fs []) = (inl UnicodeDecodeError, State latin_fs []) /\
  Prepare.read_classes raw (State unclassed_fs []) = (inr None, State unclassed_fs []) /\
  forall st',
    @Prepare.main lcg_runtime sample_args (State unclassed_fs []) = (inr tt, st') ->
    Prepare.warning ∈ stdout st' /\
    fs st' !! (out ++ ["data.yaml"]) =
      Some (File ("train: /out/images/train" +:+ newline +:+ "val: /out/images/val" +:+ newline
                  +:+ "nc: 0" +:+ newline +:+ "names: []" +:+ newline)) /\
    forall d, d ∈ dest_dirs out -> fs st' !! d = Some Dir.
Proof.
  destruct (@read_classes_lines lcg_runtime sample_args (State sample_fs []))
    as (Hpresent & _ & _).
  destruct (@read_classes_lines lcg_runtime sample_args (State latin_fs []))
    as (_ & Hbad & _).
  destruct (@read_classes_lines lcg_runtime sample_args (State unclassed_fs []))
    as (_ & _ & Habsent).
  split; [exact (Hpresent _ _ eq_refl eq_refl)|].
  split; [exact (Hbad _ eq_refl eq_refl)|].
  destruct (Habsent eq_refl) as [Hnone Hrun]. split; [exact Hnone|].
  intros st' Hmain.
  destruct (Hrun [raw ++ ["a.jpg"]; raw ++ ["c.jpeg"]; raw ++ ["b.PNG"]]) as [_ Hend];
    [discriminate|vm_compute; reflexivity|].
  exact (Hend st' Hmain).
Defined.

(** C5 as stated fails three times.  A line with white space around the
    name is returned without it, so what is returned is not the list of the
    non-blank lines; a [classes.txt] that is not UTF-8 is there and nothing
    is returned; and without images the run stops before it looks for
    [classes.txt]: no warning, no [data.yaml]. *)
Lemma read_classes_lines_counterexample :
  let st' := (@Prepare.main lcg_runtime (Prepare.Args raw out two 42) (State notes_fs [])).2 in
  (exists bytes t,
     sample_fs !! (raw ++ ["classes.txt"]) = Some (File bytes) /\
     PyStr.decode bytes = Some t /\
     Spec.class_lines t = [PyStr.points "cat"; PyStr.points " dog "] /\
     (Prepare.read_classes raw (State sample_fs [])).1
       = inr (Some [PyStr.points "cat"; PyStr.points "dog"])) /\
  (exists bytes,
     latin_fs !! (raw ++ ["classes.txt"]) = Some (File bytes) /\
     (Prepare.read_classes raw (State latin_fs [])).1 = inl UnicodeDecodeError) /\
  notes_fs !! (raw ++ ["classes.txt"]) = None /\
  ~ Prepare.warning ∈ stdout st' /\
  fs st' !! (out ++ ["data.yaml"]) = None.
Proof.
  intros st'. split; [|split; [|split; [|split]]].
  - eexists _, _. split; [reflexivity|]. split; [reflexivity|].
    split; vm_compute; reflexivity.
  - eexists. split; vm_compute; reflexivity.
  - reflexivity.
  - decided.
  - reflexivity.
Qed.

(** ** A split that leaves nothing to train on *)

Section AllValidation.
Context `{PyRuntime}.

Lemma join2 (dest : path) x y :
  Pathlib.is_name x -> Pathlib.is_name y -> dest // x // y = dest ++ [x; y].
Proof. intros Hx Hy. rewrite !joinpath_name by done. by rewrite <- app_assoc. Qed.



End AllValidation.

(** ** Detection *)

Section DetectClaims.
Context `{Vision}.

(** Loading and detecting read the file system and never write it. *)
Lemma detect_and_annotate_state image_path model_path conf st :
  (Detect.detect_and_annotate image_path model_path conf st).2 = st.
Proof.
  unfold Detect.detect_and_annotate, Detect.load_image_from_url, Detect.imread,
    Detect.raise_for_status, lift.
  run. destruct (load_model model_path) as [e|m]; [done|].
  destruct (Detect.is_url image_path).
  - destruct (http_get image_path) as [|status content]; [done|].
    destruct (_ && _); [done|].
    destruct (imdecode content) as [e|[img|]]; try done.
    by destruct (predict m img conf).
  - destruct (fs st !! Pathlib.parse image_path) as [[c|]|]; try done.
    destruct (imdecode c) as [e|[img|]]; try done.
    by destruct (predict m img conf).
Qed.

(** C7, as amended.  From a URL that is unreachable or answers with a
    status from 400 to 599, [detect_and_save] raises and leaves the file
    system and the output as they were; once the model has loaded, what it
    raises is the HTTP client's error. *)
Theorem detect_and_save_download_error url output_path model_path conf st :
  Detect.is_url url = true ->
  (http_get url = Unreachable \/
   exists status content,
     http_get url = Reply status content /\ (400 <= status < 600)%Z) ->
  exists e,
    Detect.detect_and_save url output_path model_path conf st = (inl e, st) /\
    (forall m, load_model model_path = inr m -> e = ConnectionError \/ e = HTTPError).
Proof.
  intros Hurl Hbad.
  unfold Detect.detect_and_save, Detect.detect_and_annotate, Detect.load_image_from_url,
    Detect.raise_for_status, lift.
  rewrite Hurl. unfold bind at 1 2. 
  destruct (load_model model_path) as [e|m]; [by exists e; split; [|intros ? [=]]|].
  unfold ret at 1. unfold bind at 1 2.
  destruct Hbad as [->|(status & content & -> & Hs)].
  - exists ConnectionError. split; [done|auto].
  - unfold bind at 1.
    assert ((400 <=? status)%Z && (status <? 600)%Z = true) as ->
      by (apply andb_true_iff; split; [apply Z.leb_le|apply Z.ltb_lt]; lia).
    exists HTTPError. split; [done|auto].
Qed.

Lemma elem_of_rev {A} (x : A) l : x ∈ rev l <-> x ∈ l.
Proof. rewrite !list_elem_of_In. symmetry. apply in_rev. Qed.

(** The parts that [Path(s)] makes hold no slash. *)
Lemma split_go_parts sep cur l s :
  sep ∉ cur -> s ∈ PyStr.split_go sep cur l -> sep ∉ PyStr.chars s.
Proof.
  revert cur. induction l as [|c l IH]; intros cur Hcur; cbn [PyStr.split_go].
  - intros ->%list_elem_of_singleton. rewrite chars_of_chars.
    by rewrite elem_of_rev.
  - destruct (Ascii.eqb_spec c sep) as [->|Hne].
    + intros [->|Hs]%elem_of_cons.
      * rewrite chars_of_chars. by rewrite elem_of_rev.
      * apply (IH []); [apply not_elem_of_nil|done].
    + apply IH. apply not_elem_of_cons. split; [congruence|done].
Qed.

Lemma tail_parts_parse str s :
  s ∈ Pathlib.tail_parts (Pathlib.parse str) -> "/"%char ∉ PyStr.chars s.
Proof.
  unfold Pathlib.parse.
  set (ps := filter _ _).
  assert (forall x, x ∈ ps -> "/"%char ∉ PyStr.chars x) as Hps.
  { intros x [_ Hx]%list_elem_of_filter.
    by apply (split_go_parts _ [] _ _ (not_elem_of_nil _)) in Hx. }
  assert (forall x, x ∈ Pathlib.tail_parts ps -> x ∈ ps) as Htl.
  { intros x. destruct ps as [|y ps']; [done|]. simpl.
    destruct (Pathlib.is_anchor y); [by right|done]. }
  unfold Pathlib.parse_anchor.
  destruct (PyStr.startswith str "/"); [|by auto].
  destruct (_ && _); simpl; auto.
Qed.

Lemma last_default_or_elem {A} (l : list A) d : List.last l d = d \/ List.last l d ∈ l.
Proof.
  induction l as [|x l IH]; [by left|].
  destruct l as [|y l]; [right; left|].
  change (List.last (x :: y :: l) d) with (List.last (y :: l) d).
  destruct IH as [IH|IH]; [by left|right; by right].
Qed.

Lemma name_parse_no_slash str : "/"%char ∉ PyStr.chars (Pathlib.name (Pathlib.parse str)).
Proof.
  unfold Pathlib.name.
  destruct (last_default_or_elem (Pathlib.tail_parts (Pathlib.parse str)) "") as [->|Hin].
  - apply not_elem_of_nil.
  - by apply (tail_parts_parse str).
Qed.

Lemma suffix_chars p :
  exists l, PyStr.chars (Pathlib.name p) = l ++ PyStr.chars (Pathlib.suffix p).
Proof.
  unfold Pathlib.suffix. destruct (Pathlib.suffix_index _) as [i|].
  - exists (take i (PyStr.chars (Pathlib.name p))).
    unfold PyStr.drop. by rewrite chars_of_chars, take_drop.
  - exists (PyStr.chars (Pathlib.name p)). by rewrite app_nil_r.
Qed.

(** The default name of the output is the name of a directory entry. *)
Lemma detected_is_name str :
  let p := Pathlib.parse str in
  Pathlib.is_name (Pathlib.stem p +:+ "_detected" +:+ Pathlib.suffix p).
Proof.
  intros p. pose proof (name_parse_no_slash str) as Hname. fold p in Hname.
  destruct (stem_chars p) as [l1 H1]. destruct (suffix_chars p) as [l2 H2].
  assert (PyStr.chars (Pathlib.stem p +:+ "_detected" +:+ Pathlib.suffix p)
          = PyStr.chars (Pathlib.stem p) ++ PyStr.chars "_detected"
            ++ PyStr.chars (Pathlib.suffix p)) as Hc
    by (by rewrite !chars_append).
  assert ("_"%char ∈ PyStr.chars (Pathlib.stem p +:+ "_detected" +:+ Pathlib.suffix p)) as Hin.
  { rewrite Hc, !elem_of_app. right. left. left. }
  split; [|split].
  - intros Heq. rewrite Heq in Hin. by apply elem_of_nil in Hin.
  - intros Heq. rewrite Heq in Hin. revert Hin. decided.
  - rewrite Hc, !elem_of_app. intros [Hs|[Hd|Hs]].
    + apply Hname. rewrite H1. apply elem_of_app. by left.
    + revert Hd. decided.
    + apply Hname. rewrite H2. apply elem_of_app. by right.
Qed.

(** C8.  Without an output path, what [detect_and_save] returns is
    [url_detected.jpg] for a URL and, for a local path, the text of the path
    whose name is the input's stem, [_detected] and the input's suffix, and
    whose parent is the input's parent. *)
Theorem detect_and_save_default_output image_path model_path conf st out res st' :
  Detect.detect_and_save image_path None model_path conf st = (inr (out, res), st') ->
  if Detect.is_url image_path then out = "url_detected.jpg"
  else
    let p := Pathlib.parse image_path in
    exists q,
      out = Pathlib.str q /\
      Pathlib.name q = Pathlib.stem p +:+ "_detected" +:+ Pathlib.suffix p /\
      Pathlib.parent q = Pathlib.parent p.
Proof.
  unfold Detect.detect_and_save. unfold bind at 1.
  destruct (Detect.detect_and_annotate _ _ _ st) as [[e|[img r]] st1]; [done|].
  unfold bind at 1.
  destruct (Detect.imwrite _ img st1) as [[e|b] st2]; [done|].
  unfold bind at 1, print at 1. unfold bind at 1.
  destruct (for_each _ _ _ _) as [[e|[]] st3]; [done|].
  unfold bind, print, ret. intros [= <- _ _].
  unfold Detect.default_output. destruct (Detect.is_url image_path); [done|].
  cbv zeta. pose proof (detected_is_name image_path) as Hn. cbv zeta in Hn.
  eexists. split; [done|].
  rewrite joinpath_name by done. split.
  - by apply name_snoc.
  - rewrite named_parent by (by rewrite name_snoc).
    by rewrite removelast_last.
Qed.

End DetectClaims.

Lemma detect_and_save_download_error_witness :
  exists e,
    @Detect.detect_and_save failing_vision "https://example.com/cat.jpg" None "best.pt" two
      (State cwd_fs []) = (inl e, State cwd_fs []) /\
    (forall m, @load_model failing_vision "best.pt" = inr m ->
               e = ConnectionError \/ e = HTTPError).
Proof.
  apply (@detect_and_save_download_error failing_vision).
  - reflexivity.
  - right. exists 404%Z, "". split; [reflexivity|lia].
Defined.

(** C7 as stated fails for a status outside 400-599 that is not a success
    either: a [300] whose body decodes is detected on, and the output file
    is written. *)
Lemma detect_and_save_download_error_counterexample :
  let r := @Detect.detect_and_save redirecting_vision "https://example.com/cat.jpg" None
             "best.pt" two (State cwd_fs []) in
  @http_get redirecting_vision "https://example.com/cat.jpg" = Reply 300 "JFIF" /\
  r.1 = inr ("url_detected.jpg", "JFIF") /\
  fs r.2 !! ["url_detected.jpg"] = Some (File "JFIF") /\
  cwd_fs !! ["url_detected.jpg"] = None.
Proof. vm_compute. auto. Qed.

Lemma detect_and_save_default_output_witness :
  exists q,
    "photos/cat_detected.jpg" = Pathlib.str q /\
    Pathlib.name q = "cat_detected.jpg" /\
    Pathlib.parent q = ["photos"].
Proof.
  apply (@detect_and_save_default_output redirecting_vision "photos/cat.jpg" "best.pt" two
           (State cwd_fs []) "photos/cat_detected.jpg" "JFIF"
           (@Detect.detect_and_save redirecting_vision "photos/cat.jpg" None "best.pt" two
              (State cwd_fs [])).2).
  vm_compute. reflexivity.
Defined.

(** * Further properties *)

(** ** Making the directories *)

Section MakeDirs.

Lemma keeps_refl st : keeps st st.
Proof. by intros ??. Qed.

Lemma keeps_trans st1 st2 st3 : keeps st1 st2 -> keeps st2 st3 -> keeps st1 st3.
Proof. intros H1 H2 k x Hk. by apply H2, H1. Qed.

Lemma mkdir_cases p st :
  OS.mkdir p st =
    match fs st !! p with
    | Some _ => (inl FileExistsError, st)
    | None =>
        match fs st !! Pathlib.parent p with
        | Some Dir => (inr tt, State (<[p := Dir]> (fs st)) (stdout st))
        | Some (File _) => (inl NotADirectoryError, st)
        | None => (inl FileNotFoundError, st)
        end
    end.
Proof.
  unfold OS.mkdir. run. destruct (fs st !! p); [done|].
  by destruct (fs st !! Pathlib.parent p) as [[]|].
Qed.

Lemma adds_refl P st : adds P st st.
Proof. split; [done|]. by left. Qed.

Lemma adds_trans P st1 st2 st3 : adds P st1 st2 -> adds P st2 st3 -> adds P st1 st3.
Proof.
  intros [Ho1 H1] [Ho2 H2]. split; [congruence|]. intros k.
  destruct (H1 k) as [E1|(N1 & D1 & ?)], (H2 k) as [E2|(N2 & D2 & ?)].
  - left. congruence.
  - right. split; [congruence|done].
  - right. split; [done|]. split; [congruence|done].
  - congruence.
Qed.

Lemma adds_weaken (P Q : path -> Prop) st st' :
  (forall k, P k -> Q k) -> adds P st st' -> adds Q st st'.
Proof.
  intros HPQ [Ho Hc]. split; [done|].
  intros k. destruct (Hc k) as [?|(? & ? & ?)]; auto.
Qed.

Lemma adds_keeps P st st' : adds P st st' -> keeps st st'.
Proof. intros [_ Hc] k x Hk. destruct (Hc k) as [->|(? & _)]; [done|congruence]. Qed.

Lemma mkdir_adds p st r st' :
  OS.mkdir p st = (r, st') -> adds (fun k => k = p) st st'.
Proof.
  rewrite mkdir_cases. destruct (fs st !! p) eqn:Hp.
  - intros [= <- <-]. apply adds_refl.
  - destruct (fs st !! Pathlib.parent p) as [[]|]; intros [= <- <-];
      try apply adds_refl.
    split; [done|]. intros k. simpl. destruct (decide (p = k)) as [<-|Hne].
    + right. by rewrite lookup_insert_eq.
    + left. by rewrite lookup_insert_ne.
Qed.

Lemma mkdir_exist_ok_adds p st r st' :
  mkdir_exist_ok p st = (r, st') -> adds (fun k => k = p) st st'.
Proof.
  unfold mkdir_exist_ok, catch.
  destruct (OS.mkdir p st) as [[e|[]] st1] eqn:Hm; apply mkdir_adds in Hm.
  - destruct e; try (by intros [= <- <-]); by intros [-> _]%forgive_dir.
  - by intros [= <- <-].
Qed.

Lemma mkdir_parents_go_adds chain st r st' :
  mkdir_parents_go chain st = (r, st') -> adds (fun k => k ∈ chain) st st'.
Proof.
  revert st r st'. induction chain as [|p up IH]; intros st r st'; cbn [mkdir_parents_go].
  - intros [= <- <-]. apply adds_refl.
  - unfold catch. destruct (OS.mkdir p st) as [[e|[]] st1] eqn:Hm; apply mkdir_adds in Hm;
      (eapply (adds_weaken _ (fun k => k ∈ p :: up)) in Hm; [|by intros ? ->; left]).
    + destruct e; try (by intros [-> _]%forgive_dir).
      destruct (decide _); [by intros [= <- <-]|].
      unfold bind. destruct (mkdir_parents_go up st1) as [[e|[]] st2] eqn:Hup;
        apply IH in Hup;
        (eapply (adds_weaken _ (fun k => k ∈ p :: up)) in Hup; [|by intros ??; right]).
      * intros [= <- <-]. by eapply adds_trans.
      * intros Hok%mkdir_exist_ok_adds.
        eapply (adds_weaken _ (fun k => k ∈ p :: up)) in Hok; [|by intros ? ->; left].
        eauto using adds_trans.
    + by intros [= <- <-].
Qed.

Lemma mkdir_parents_adds p st r st' :
  mkdir_parents p st = (r, st') -> adds (fun k => k `prefix_of` p) st st'.
Proof.
  intros Hch%mkdir_parents_go_adds. eapply adds_weaken; [|done].
  intros k. apply ancestors_go_prefix.
Qed.

Lemma prepare_dirs_adds dest st r st' :
  Prepare.prepare_dirs dest st = (r, st') ->
  adds (fun k => exists d, d ∈ dest_dirs dest /\ k `prefix_of` d) st st'.
Proof.
  unfold Prepare.prepare_dirs.
  set (P := fun k => exists d, _ /\ k `prefix_of` d).
  assert (forall d st r st', d ∈ dest_dirs dest -> mkdir_parents d st = (r, st') ->
            adds P st st') as Hone.
  { intros d st0 r0 st0' Hd Hch%mkdir_parents_adds.
    eapply adds_weaken; [|done]. intros k Hk. by exists d. }
  unfold bind.
  destruct (mkdir_parents _ st) as [[e|[]] st1] eqn:E1;
    apply Hone in E1; [|listed| |listed].
  { by intros [= <- <-]. }
  destruct (mkdir_parents _ st1) as [[e|[]] st2] eqn:E2;
    apply Hone in E2; [|listed| |listed].
  { intros [= <- <-]. by eapply adds_trans. }
  destruct (mkdir_parents _ st2) as [[e|[]] st3] eqn:E3;
    apply Hone in E3; [|listed| |listed].
  { intros [= <- <-]. eauto using adds_trans. }
  intros E4%Hone; [|listed]. eauto using adds_trans.
Qed.

(** X1.  [prepare_dirs] only adds directories: what was in the file system
    stays as it was, what is new is a directory on the way to one of the
    four, nothing is printed, and when it returns the four are
    directories.  So it raises whenever a file stands where one of the four
    must be. *)
Theorem prepare_dirs_only_adds dest st r st' :
  Prepare.prepare_dirs dest st = (r, st') ->
  stdout st' = stdout st /\
  keeps st st' /\
  (forall k, fs st !! k = None -> is_Some (fs st' !! k) ->
     fs st' !! k = Some Dir /\ exists d, d ∈ dest_dirs dest /\ k `prefix_of` d) /\
  (r = inr tt -> forall d, d ∈ dest_dirs dest -> fs st' !! d = Some Dir) /\
  (forall d c, d ∈ dest_dirs dest -> fs st !! d = Some (File c) -> exists e, r = inl e).
Proof.
  intros Hrun. pose proof (prepare_dirs_adds _ _ _ _ Hrun) as Hadd.
  pose proof (adds_keeps _ _ _ Hadd) as Hkeep.
  apply prepare_dirs_changes in Hrun as [_ Hdirs].
  split; [apply Hadd|]. split; [done|]. split; [|split; [done|]].
  - intros k Hnone [x Hx]. destruct Hadd as [_ Hadd].
    destruct (Hadd k) as [Heq|(_ & Hd & HP)]; [congruence|done].
  - intros d c Hd Hfile. destruct r as [e|[]]; [by eauto|].
    specialize (Hkeep d _ Hfile). rewrite (Hdirs eq_refl d Hd) in Hkeep. done.
Qed.

(** [mkdir(parents=True, exist_ok=True)] on a path with a name, one level
    unfolded. *)
Lemma mkdir_parents_unfold p st :
  Pathlib.tail_parts p <> [] ->
  mkdir_parents p st =
    catch (OS.mkdir p)
      (fun e =>
         match e with
         | FileNotFoundError => mkdir_parents (Pathlib.parent p) ;;; mkdir_exist_ok p
         | _ => d <- OS.is_dir p ;; if d : bool then ret tt else raise e
         end) st.
Proof.
  intros Ht. unfold mkdir_parents.
  assert (Pathlib.parent p = removelast p) as Hpar
    by (unfold Pathlib.parent; by destruct (Pathlib.tail_parts p)).
  assert (p <> []) as Hne by (by intros ->).
  assert (length p = S (length (removelast p))) as Hlen.
  { rewrite (app_removelast_last "" Hne) at 1. rewrite length_app. simpl. lia. }
  assert (Pathlib.parent p <> p) as Hneq.
  { rewrite Hpar. intros Heq. rewrite <- Heq in Hlen at 1. lia. }
  rewrite Hlen. cbn [ancestors_go mkdir_parents_go].
  rewrite decide_False by done. unfold catch.
  destruct (OS.mkdir p st) as [[e|[]] st1]; [|done].
  destruct e; try done. rewrite decide_False by done. by rewrite Hpar.
Qed.

Lemma mkdir_parents_present p st :
  fs st !! p = Some Dir -> mkdir_parents p st = (inr tt, st).
Proof.
  intros Hd. unfold mkdir_parents.
  destruct (length p); cbn [ancestors_go mkdir_parents_go]; unfold catch;
    rewrite mkdir_cases, Hd; unfold bind; rewrite is_dir_run;
    by rewrite bool_decide_eq_true_2.
Qed.

Lemma mkdir_parents_new p st :
  Pathlib.tail_parts p <> [] ->
  fs st !! p = None -> fs st !! Pathlib.parent p = Some Dir ->
  mkdir_parents p st = (inr tt, State (<[p := Dir]> (fs st)) (stdout st)).
Proof.
  intros Ht Hp Hpar. rewrite mkdir_parents_unfold by done.
  unfold catch. by rewrite mkdir_cases, Hp, Hpar.
Qed.

Lemma mkdir_parents_new2 p st :
  Pathlib.tail_parts p <> [] -> Pathlib.tail_parts (Pathlib.parent p) <> [] ->
  fs st !! p = None -> fs st !! Pathlib.parent p = None ->
  fs st !! Pathlib.parent (Pathlib.parent p) = Some Dir ->
  mkdir_parents p st =
    (inr tt, State (<[p := Dir]> (<[Pathlib.parent p := Dir]> (fs st))) (stdout st)).
Proof.
  intros Ht Ht' Hp Hpar Hgp. rewrite mkdir_parents_unfold by done.
  unfold catch. rewrite mkdir_cases, Hp, Hpar. unfold bind.
  rewrite mkdir_parents_new by done.
  assert (Pathlib.parent p <> p) as Hne by congruence.
  unfold mkdir_exist_ok, catch. rewrite mkdir_cases. cbn [fs stdout].
  rewrite lookup_insert_ne by done. rewrite Hp. by rewrite lookup_insert_eq.
Qed.

Lemma parent_snoc p x : Pathlib.is_name x -> Pathlib.parent (p ++ [x]) = p.
Proof.
  intros Hx. rewrite named_parent by (by rewrite name_snoc).
  apply removelast_last.
Qed.

Lemma tail_parts_snoc p x : Pathlib.is_name x -> Pathlib.tail_parts (p ++ [x]) <> [].
Proof.
  intros Hx. apply (named_child (p ++ [x])). by rewrite name_snoc.
Qed.

(** X2.  Where the four directories are there already, [prepare_dirs]
    returns and changes nothing: making the layout again is harmless. *)
Theorem prepare_dirs_again dest st :
  (forall d, d ∈ dest_dirs dest -> fs st !! d = Some Dir) ->
  Prepare.prepare_dirs dest st = (inr tt, st).
Proof.
  intros Hd. unfold Prepare.prepare_dirs, bind.
  rewrite !mkdir_parents_present; [done|apply Hd; listed..].
Qed.

Lemma mkdir_parents_below p x st st1 :
  Pathlib.is_name x ->
  fs st !! (p ++ [x]) = None -> fs st !! p = None ->
  mkdir_parents p st = (inr tt, st1) ->
  fs st1 !! (p ++ [x]) = None -> fs st1 !! p = Some Dir ->
  mkdir_parents (p ++ [x]) st
    = (inr tt, State (<[p ++ [x] := Dir]> (fs st1)) (stdout st1)).
Proof.
  intros Hx Hpx Hp Hrun Hpx1 Hp1.
  rewrite mkdir_parents_unfold by (by apply tail_parts_snoc).
  unfold catch. rewrite mkdir_cases, Hpx, parent_snoc, Hp by done.
  unfold bind. rewrite Hrun.
  unfold mkdir_exist_ok, catch. by rewrite mkdir_cases, Hpx1, parent_snoc, Hp1.
Qed.

Lemma parent_snoc2 d x y : Pathlib.is_name y -> Pathlib.parent (d ++ [x; y]) = d ++ [x].
Proof.
  intros Hy. change (d ++ [x; y]) with (d ++ [x] ++ [y]).
  rewrite app_assoc. by apply parent_snoc.
Qed.

Lemma tail_parts_snoc2 d x y : Pathlib.is_name y -> Pathlib.tail_parts (d ++ [x; y]) <> [].
Proof.
  intros Hy. change (d ++ [x; y]) with (d ++ [x] ++ [y]).
  rewrite app_assoc. by apply tail_parts_snoc.
Qed.

Lemma prepare_dirs_fresh base n st :
  Pathlib.is_name n ->
  fs st !! base = Some Dir ->
  (forall k, (base ++ [n]) `prefix_of` k -> fs st !! k = None) ->
  exists st',
    Prepare.prepare_dirs (base ++ [n]) st = (inr tt, st') /\
    stdout st' = stdout st /\
    forall k, fs st' !! k =
      if decide (k ∈ layout (base ++ [n])) then Some Dir else fs st !! k.
Proof.
  intros Hn Hbase Hnew. set (dest := base ++ [n]).
  assert (forall l, fs st !! (dest ++ l) = None) as Hnone
    by (intros l; apply Hnew; by apply prefix_app_r).
  assert (fs st !! dest = None) as Hdest
    by (specialize (Hnone []); by rewrite app_nil_r in Hnone).
  assert (mkdir_parents dest st = (inr tt, State (<[dest := Dir]> (fs st)) (stdout st))) as E0.
  { unfold dest. apply mkdir_parents_new; [by apply tail_parts_snoc|done|].
    by rewrite parent_snoc. }
  assert (mkdir_parents (dest ++ ["images"]) st =
            (inr tt, State (<[dest ++ ["images"] := Dir]> (<[dest := Dir]> (fs st)))
                           (stdout st))) as E1.
  { apply (mkdir_parents_below dest "images" st
             (State (<[dest := Dir]> (fs st)) (stdout st)) ltac:(decided) (Hnone _) Hdest E0);
      cbn [fs]; [rewrite lookup_insert_ne by key_ne; apply Hnone|apply lookup_insert_eq]. }
  assert (mkdir_parents (dest ++ ["images"; "train"]) st =
            (inr tt, State (<[dest ++ ["images"; "train"] := Dir]>
                              (<[dest ++ ["images"] := Dir]> (<[dest := Dir]> (fs st))))
                           (stdout st))) as E2.
  { change (dest ++ ["images"; "train"]) with (dest ++ ["images"] ++ ["train"]).
    rewrite app_assoc.
    apply (mkdir_parents_below (dest ++ ["images"]) "train" st
             (State (<[dest ++ ["images"] := Dir]> (<[dest := Dir]> (fs st))) (stdout st))
             ltac:(decided)); cbn [fs];
      rewrite <- ?app_assoc; cbn [app]; try apply Hnone; try apply E1.
    - rewrite !lookup_insert_ne by key_ne. apply Hnone.
    - apply lookup_insert_eq. }
  eexists. split.
  - unfold Prepare.prepare_dirs, bind. rewrite !join2 by decided. rewrite E2.
    rewrite (mkdir_parents_new (dest ++ ["images"; "val"]));
      [|apply tail_parts_snoc2; decided|..]; cbn [fs stdout].
    2: { rewrite !lookup_insert_ne by key_ne. apply Hnone. }
    2: { rewrite parent_snoc2 by decided. rewrite lookup_insert_ne by key_ne.
         apply lookup_insert_eq. }
    rewrite (mkdir_parents_new2 (dest ++ ["labels"; "train"])); cbn [fs stdout];
      rewrite ?parent_snoc2, ?parent_snoc by decided;
      [|apply tail_parts_snoc2; decided|apply tail_parts_snoc; decided|..].
    2: { rewrite !lookup_insert_ne by key_ne. apply Hnone. }
    2: { rewrite !lookup_insert_ne by key_ne. apply Hnone. }
    2: { rewrite !lookup_insert_ne by key_ne. apply lookup_insert_eq. }
    rewrite (mkdir_parents_new (dest ++ ["labels"; "val"]));
      [|apply tail_parts_snoc2; decided|..]; cbn [fs stdout].
    + reflexivity.
    + rewrite !lookup_insert_ne by key_ne. apply Hnone.
    + rewrite parent_snoc2 by decided. rewrite lookup_insert_ne by key_ne.
      apply lookup_insert_eq.
  - split; [done|]. intros k. cbn [fs]. unfold layout. fold dest.
    rewrite !lookup_insert.
    repeat case_decide; subst; try done;
      first [ exfalso; match goal with H : ~ _ ∈ _ |- _ => apply H end; listed
            | match goal with
              | H : _ ∈ _ |- _ => apply list_elem_of_In in H; simpl in H; intuition congruence
              end ].
Qed.

(** X3.  In a destination that does not exist yet, under a directory that
    does, [prepare_dirs] returns, prints nothing, and makes exactly the
    destination, [images], [labels] and the four directories. *)
Theorem prepare_dirs_new base n st :
  Pathlib.is_name n ->
  fs st !! base = Some Dir ->
  (forall k, (base ++ [n]) `prefix_of` k -> fs st !! k = None) ->
  exists st',
    Prepare.prepare_dirs (base ++ [n]) st = (inr tt, st') /\
    stdout st' = stdout st /\
    forall k, fs st' !! k =
      if decide (k ∈ layout (base ++ [n])) then Some Dir else fs st !! k.
Proof.
  exact (prepare_dirs_fresh base n st).
Qed.

End MakeDirs.

(** ** The split and the fraction *)

Section SplitMore.
Context `{PyRuntime}.

(** X4.  The split loses no image and invents none: validation followed by
    train is a rearrangement of the images given; and images that are
    pairwise different are never in both. *)
Theorem split_partition (imgs : list path) val g val_imgs train_imgs :
  Prepare.split imgs val g = inr (val_imgs, train_imgs) ->
  val_imgs ++ train_imgs ≡ₚ imgs /\
  (NoDup imgs -> forall p, p ∈ val_imgs -> p ∉ train_imgs).
Proof.
  unfold Prepare.split. destruct (Prepare.n_val _ _) as [e|n]; [done|].
  intros [= <- <-]. rewrite take_drop.
  assert ((Prepare.shuffle (merge_sort Pathlib.le imgs) g).1 ≡ₚ imgs) as Hp
    by (by rewrite shuffle_permutation, merge_sort_Permutation).
  split; [done|]. intros Hnd.
  rewrite <- Hp, <- (take_drop n) in Hnd.
  apply NoDup_app in Hnd as (_ & Hdis & _). exact Hdis.
Qed.

Lemma mul_not_finite fn x :
  match fn with S754_nan | S754_infinity _ => False | _ => True end ->
  match x with S754_nan | S754_infinity _ => True | _ => False end ->
  match PyFloat.mul fn x with S754_nan | S754_infinity _ => True | _ => False end.
Proof. by destruct fn, x. Qed.

Lemma n_val_not_finite n x :
  match x with S754_nan | S754_infinity _ => True | _ => False end ->
  Prepare.n_val n x = inl ValueError \/ Prepare.n_val n x = inl OverflowError.
Proof.
  intros Hx. unfold Prepare.n_val, PyFloat.int_mul, PyFloat.of_int.
  destruct (binary_normalize _ _ _ _ _) as [s|s| |s m e] eqn:Hn; auto;
    match goal with
    | |- context [PyFloat.mul ?fn x] =>
        pose proof (mul_not_finite fn x I Hx) as Hm;
        destruct (PyFloat.mul fn x); simpl; try done; auto
    end.
Qed.

(** X5.  With a fraction that is NaN or infinite, the run makes the
    directories and then raises [ValueError] or [OverflowError]: no file is
    copied, no manifest is written, nothing more is printed. *)
Theorem prepare_bad_fraction a imgs classes st st1 :
  match Prepare.arg_val a with S754_nan | S754_infinity _ => True | _ => False end ->
  Prepare.prepare_dirs (Prepare.arg_dest a) st = (inr tt, st1) ->
  exists e,
    Prepare.prepare a imgs classes st = (inl e, st1) /\
    (e = ValueError \/ e = OverflowError).
Proof.
  intros Hval Hdirs. unfold Prepare.prepare, bind. rewrite Hdirs.
  unfold Prepare.split.
  destruct (n_val_not_finite
              (length (Prepare.shuffle (merge_sort Pathlib.le imgs)
                         (rng_seed (Prepare.arg_seed a))).1)
              (Prepare.arg_val a) Hval) as [-> | ->]; eauto.
Qed.

End SplitMore.

(** ** Copying, step by step *)

Section CopyRuns.

Lemma copy2_file src dst c st :
  fs st !! src = Some (File c) ->
  fs st !! dst <> Some Dir ->
  src <> dst ->
  fs st !! Pathlib.parent dst = Some Dir ->
  copy2 src dst st = (inr tt, State (<[dst := File c]> (fs st)) (stdout st)).
Proof.
  intros Hsrc Hdst Hne Hpar. unfold copy2, copy2_target. unfold bind at 1, get_fs at 1.
  rewrite (decide_False (P := fs st !! dst = Some Dir)) by done.
  rewrite decide_False by (by intros [? _]).
  unfold bind, OS.read, OS.write. run. rewrite Hsrc.
  destruct (fs st !! dst) as [[|]|]; try done; by rewrite Hpar.
Qed.

Lemma copy2_missing src dst st :
  fs st !! src = None -> copy2 src dst st = (inl FileNotFoundError, st).
Proof.
  intros Hsrc. unfold copy2. unfold bind at 1, get_fs at 1.
  rewrite decide_False by (rewrite Hsrc; by intros [_ [? ?]]).
  unfold bind, OS.read. run. by rewrite Hsrc.
Qed.

(** One round of the loop on an entry of [d] that is a file, into
    directories other than [d] where no directory has its name or its
    label's. *)
Lemma copy_pair_run idst ldst d p c copied missing st :
  OS.is_child d p -> Pathlib.is_name (Pathlib.name p) ->
  idst <> d -> ldst <> d ->
  fs st !! idst = Some Dir -> fs st !! ldst = Some Dir ->
  fs st !! p = Some (File c) ->
  fs st !! label_of d p <> Some Dir ->
  fs st !! (idst ++ [Pathlib.name p]) <> Some Dir ->
  fs st !! (ldst ++ [Pathlib.stem p +:+ ".txt"]) <> Some Dir ->
  Prepare.copy_pair idst ldst (copied, missing) p st =
    (inr (S copied,
          missing ++ (if decide (unlabelled (fs st) d p) then [Pathlib.name p] else [])),
     State (match fs st !! label_of d p with
            | Some x => <[ldst ++ [Pathlib.stem p +:+ ".txt"] := x]>
                          (<[idst ++ [Pathlib.name p] := File c]> (fs st))
            | None => <[idst ++ [Pathlib.name p] := File c]> (fs st)
            end)
           (stdout st)).
Proof.
  intros Hchild Hn Hid Hld Hidst Hldst Hp Hlabel Hti Htl.
  pose proof (child_split d p Hchild) as Hsplit.
  pose proof (label_is_name p Hn) as Hln.
  assert (removelast p = d) as Hrl by apply Hchild.
  unfold Prepare.copy_pair. rewrite with_suffix_name, Hrl by done.
  rewrite joinpath_name, name_snoc, joinpath_name by done.
  unfold bind at 1.
  rewrite (copy2_file p (idst ++ [Pathlib.name p]) c); try done.
  2: { rewrite Hsplit at 1. intros [Heq _]%app_inj_tail. by apply Hid. }
  2: { by rewrite parent_snoc. }
  unfold bind at 1. rewrite exists_run. cbn [fs stdout].
  assert (d ++ [Pathlib.stem p +:+ ".txt"] <> idst ++ [Pathlib.name p]) as Hne1
    by (intros [Heq _]%app_inj_tail; by apply Hid).
  rewrite lookup_insert_ne by done.
  destruct (decide (unlabelled (fs st) d p)) as [Hu|Hu]; unfold unlabelled, label_of in *.
  - rewrite Hu. rewrite bool_decide_eq_false_2 by (by intros [? ?]). done.
  - destruct (fs st !! (d ++ [Pathlib.stem p +:+ ".txt"])) as [[tc|]|] eqn:Hl; try done.
    rewrite bool_decide_eq_true_2 by eauto.
    unfold bind.
    rewrite (copy2_file _ (ldst ++ [Pathlib.stem p +:+ ".txt"]) tc); cbn [fs stdout].
    + by rewrite app_nil_r.
    + by rewrite lookup_insert_ne.
    + rewrite lookup_insert. by case_decide.
    + intros [Heq _]%app_inj_tail. by apply Hld.
    + rewrite parent_snoc by done. rewrite lookup_insert_ne; [done|].
      intros Heq. apply Hti. by rewrite Heq.
Qed.

Section OneDirectory.
Variables idst ldst d : path.
Hypothesis Hid : idst <> d.
Hypothesis Hld : ldst <> d.
Hypothesis Hil : idst <> ldst.

(** The file system after one round. *)
Lemma copy_step_lookup (m : gmap path node) n t c (L : path) :
  m !! (idst ++ [n]) <> Some Dir -> m !! (ldst ++ [t]) <> Some Dir -> m !! L <> Some Dir ->
  let m1 := match m !! L with
            | Some x => <[ldst ++ [t] := x]> (<[idst ++ [n] := File c]> m)
            | None => <[idst ++ [n] := File c]> m
            end in
  (forall k, k <> idst ++ [n] -> k <> ldst ++ [t] -> m1 !! k = m !! k) /\
  (forall k, m !! k = Some Dir -> m1 !! k = Some Dir) /\
  (forall k, m !! k <> Some Dir -> m1 !! k <> Some Dir) /\
  m1 !! (idst ++ [n]) = Some (File c) /\
  (forall x, m !! L = Some x -> m1 !! (ldst ++ [t]) = Some x).
Proof.
  intros H1 H2 HL m1. unfold m1.
  assert (idst ++ [n] <> ldst ++ [t]) as Hne
    by (intros [Heq _]%app_inj_tail; by apply Hil).
  destruct (m !! L) as [x|] eqn:HLx.
  - repeat split.
    + intros k Hk1 Hk2. by rewrite !lookup_insert_ne.
    + intros k Hk. rewrite !lookup_insert_ne; [done|congruence..].
    + intros k Hk. rewrite !lookup_insert. repeat case_decide; congruence.
    + rewrite lookup_insert_ne by done. apply lookup_insert_eq.
    + intros y [= <-]. apply lookup_insert_eq.
  - repeat split.
    + intros k Hk1 Hk2. by rewrite lookup_insert_ne.
    + intros k Hk. rewrite lookup_insert_ne; [done|congruence].
    + intros k Hk. rewrite lookup_insert. case_decide; congruence.
    + apply lookup_insert_eq.
    + done.
Qed.

Lemma copy_loop_run pairs copied missing st :
  fs st !! idst = Some Dir -> fs st !! ldst = Some Dir ->
  Forall (copyable (fs st) idst ldst d) pairs ->
  exists st',
    for_each (Prepare.copy_pair idst ldst) pairs (copied, missing) st
      = (inr (copied + length pairs,
              missing ++ (Pathlib.name <$> filter (unlabelled (fs st) d) pairs)), st') /\
    stdout st' = stdout st /\
    (forall p, p ∈ pairs -> fs st' !! (idst ++ [Pathlib.name p]) = fs st !! p) /\
    (forall p, p ∈ pairs -> ~ unlabelled (fs st) d p ->
       fs st' !! (ldst ++ [Pathlib.stem p +:+ ".txt"]) = fs st !! label_of d p) /\
    (forall k,
       (forall p, p ∈ pairs ->
          k <> idst ++ [Pathlib.name p] /\ k <> ldst ++ [Pathlib.stem p +:+ ".txt"]) ->
       fs st' !! k = fs st !! k).
Proof.
  revert copied missing st.
  induction pairs as [|p rest IH]; intros copied missing st Hidst Hldst Hall.
  { exists st. cbn [for_each]. unfold ret. rewrite Nat.add_0_r, filter_nil. simpl.
    rewrite app_nil_r. split; [done|]. split; [done|].
    split; [by intros ? ?%elem_of_nil|]. split; [by intros ? ?%elem_of_nil|done]. }
  apply Forall_cons in Hall as [Hp Hrest].
  destruct Hp as (Hchild & Hn & [c Hc] & Hlab & Hti & Htl).
  cbn [for_each]. unfold bind.
  rewrite (copy_pair_run idst ldst d p c) by done.
  destruct (copy_step_lookup (fs st) (Pathlib.name p) (Pathlib.stem p +:+ ".txt") c
              (label_of d p) Hti Htl Hlab)
    as (F1 & F2 & F3 & F4 & F5).
  set (m1 := match fs st !! label_of d p with
             | Some x => <[ldst ++ [Pathlib.stem p +:+ ".txt"] := x]>
                           (<[idst ++ [Pathlib.name p] := File c]> (fs st))
             | None => <[idst ++ [Pathlib.name p] := File c]> (fs st)
             end) in *.
  assert (forall q, OS.is_child d q -> m1 !! q = fs st !! q) as Hsrc.
  { intros q Hq. rewrite (child_split d q Hq). apply F1;
      intros [Heq _]%app_inj_tail; [by apply Hid|by apply Hld]. }
  assert (forall q, m1 !! label_of d q = fs st !! label_of d q) as Hlbl.
  { intros q. apply F1; intros [Heq _]%app_inj_tail; [by apply Hid|by apply Hld]. }
  assert (Forall (copyable m1 idst ldst d) rest) as Hrest1.
  { eapply Forall_impl; [exact Hrest|].
    intros q (Hqc & Hqn & [cq Hq] & Hql & Hq1 & Hq2).
    split; [done|]. split; [done|]. split; [exists cq; by rewrite Hsrc|].
    split; [by rewrite Hlbl|]. split; by apply F3. }
  destruct (IH (S copied)
              (missing ++ (if decide (unlabelled (fs st) d p) then [Pathlib.name p] else []))
              (State m1 (stdout st)) (F2 _ Hidst) (F2 _ Hldst) Hrest1)
    as (st' & Hrun & Hout & Himgs & Hlabels & Hframe).
  cbn [fs stdout] in *.
  exists st'. split_and!.
  2: done.
  - rewrite Hrun.
    replace (S copied + length rest) with (copied + length (p :: rest)) by (simpl; lia).
    rewrite (filter_ext_elem (unlabelled m1 d) (unlabelled (fs st) d) rest)
      by (intros q _; unfold unlabelled; by rewrite Hlbl).
    rewrite <- app_assoc, (filter_cons _ p).
    by destruct (decide (unlabelled (fs st) d p)).
  - intros q [->|Hq]%elem_of_cons.
    + destruct (decide (Pathlib.name p ∈ Pathlib.name <$> rest)) as [Hin|Hnin].
      * apply list_elem_of_fmap in Hin as (q & Hnq & Hq).
        rewrite Forall_forall in Hrest. destruct (Hrest q Hq) as (Hqc & _).
        assert (q = p) as -> by (rewrite (child_split d q Hqc), (child_split d p Hchild);
                                  by rewrite <- Hnq).
        rewrite (Himgs p Hq). by apply Hsrc.
      * rewrite Hframe; [by rewrite F4|]. intros q Hq. split.
        -- intros [_ Heq]%app_inj_tail. apply Hnin. rewrite Heq.
           by apply list_elem_of_fmap_2.
        -- intros [Heq _]%app_inj_tail. by apply Hil.
    + rewrite (Himgs q Hq). apply Hsrc.
      rewrite Forall_forall in Hrest. by destruct (Hrest q Hq).
  - intros q [->|Hq]%elem_of_cons Hlq.
    + destruct (fs st !! label_of d p) as [x|] eqn:Hx; [|done].
      destruct (decide (Pathlib.stem p +:+ ".txt" ∈ (fun q => Pathlib.stem q +:+ ".txt") <$> rest)) as [Hin|Hnin].
      * apply list_elem_of_fmap in Hin as (q & Htq & Hq).
        assert (label_of d q = label_of d p) as Hsame
          by (unfold label_of; by rewrite <- Htq).
        rewrite Htq, (Hlabels q Hq), Hlbl, Hsame; [done|].
        unfold unlabelled. rewrite Hlbl, Hsame, Hx. done.
      * rewrite Hframe; [by apply F5|]. intros q Hq. split.
        -- intros [Heq _]%app_inj_tail. by apply Hil.
        -- intros [_ Heq]%app_inj_tail. apply Hnin. rewrite Heq.
           by apply (list_elem_of_fmap_2 (fun q => Pathlib.stem q +:+ ".txt")).
    + rewrite (Hlabels q Hq), Hlbl; [done|]. unfold unlabelled in *. by rewrite Hlbl.
  - intros k Hk. rewrite Hframe by (intros q Hq; apply Hk; by right).
    destruct (Hk p) as [Hk1 Hk2]; [left|]. by apply F1.
Qed.

(** X6.  From one source directory, into two different directories other
    than it, [copy_pairs] returns whenever every image is a file, no label
    is a directory and no directory is in the way.  It then counts every
    image, reports exactly the images without label, in their order, puts
    every image and every label there is at its name under the destination
    with its content, prints nothing and leaves every other path as it
    was. *)
Theorem copy_pairs_run pairs st :
  fs st !! idst = Some Dir -> fs st !! ldst = Some Dir ->
  Forall (copyable (fs st) idst ldst d) pairs ->
  exists st',
    Prepare.copy_pairs pairs idst ldst st
      = (inr (length pairs, Pathlib.name <$> filter (unlabelled (fs st) d) pairs), st') /\
    stdout st' = stdout st /\
    (forall p, p ∈ pairs -> fs st' !! (idst ++ [Pathlib.name p]) = fs st !! p) /\
    (forall p, p ∈ pairs -> ~ unlabelled (fs st) d p ->
       fs st' !! (ldst ++ [Pathlib.stem p +:+ ".txt"]) = fs st !! label_of d p) /\
    (forall k,
       (forall p, p ∈ pairs ->
          k <> idst ++ [Pathlib.name p] /\ k <> ldst ++ [Pathlib.stem p +:+ ".txt"]) ->
       fs st' !! k = fs st !! k).
Proof. intros Hi Hl Hall. exact (copy_loop_run pairs 0 [] st Hi Hl Hall). Qed.

End OneDirectory.

End CopyRuns.

(** ** Failures and what a run leaves alone *)

Section Failures.
Context `{PyRuntime}.

(** X7.  [copy_pairs] stops at the first image that is not there: it raises
    [FileNotFoundError], what the images before it wrote stays written, and
    the images after it are not looked at. *)
Theorem copy_pairs_stops pre img post idst ldst st r st1 :
  Prepare.copy_pairs pre idst ldst st = (inr r, st1) ->
  Pathlib.name img <> "" ->
  fs st1 !! img = None ->
  Prepare.copy_pairs (pre ++ img :: post) idst ldst st = (inl FileNotFoundError, st1).
Proof.
  unfold Prepare.copy_pairs. intros Hpre Hname Hnone.
  rewrite for_each_app, Hpre. cbn [for_each]. unfold bind.
  destruct r as [copied missing]. unfold Prepare.copy_pair, Pathlib.with_suffix.
  rewrite decide_False by done. unfold bind. by rewrite copy2_missing.
Qed.

Lemma spares_refl dest st : spares dest st st.
Proof. by intros ???. Qed.

Lemma spares_trans dest st1 st2 st3 :
  spares dest st1 st2 -> spares dest st2 st3 -> spares dest st1 st3.
Proof. intros H1 H2 k x Hk Hb. apply H2; [|done]. by apply H1. Qed.

Lemma keeps_spares dest st st' : keeps st st' -> spares dest st st'.
Proof. intros Hk k x Hx _. by apply Hk. Qed.

Lemma changes_spares dest (P : path -> Prop) st st' :
  (forall k, P k -> below dest k) -> changes P st st' -> spares dest st st'.
Proof.
  intros HP [_ Hch] k x Hx Hb. destruct (Hch k) as [->|[Hk _]]; [done|].
  by destruct Hb; apply HP.
Qed.

Lemma below_deeper dest (l : list string) k :
  l <> [] -> (dest ++ l) `prefix_of` k -> below dest k.
Proof.
  intros Hl [r ->]. split; [rewrite <- app_assoc; by apply prefix_app_r|].
  intros Heq. apply (f_equal length) in Heq. rewrite !length_app in Heq.
  destruct l; [done|]. simpl in Heq. lia.
Qed.

Lemma copy_pairs_spares dest x pairs st r st' :
  Pathlib.is_name x ->
  Forall (fun p => Pathlib.is_name (Pathlib.name p)) pairs ->
  Prepare.copy_pairs pairs (dest // "images" // x) (dest // "labels" // x) st = (r, st') ->
  spares dest st st'.
Proof.
  intros Hx Hn Hrun. apply copy_loop_changes in Hrun; [|done].
  eapply changes_spares; [|done].
  intros k (img & _ & Ht). rewrite !join2 in Ht by (done || decided).
  destruct Ht as [Hp|Hp]; rewrite <- app_assoc in Hp;
    eapply below_deeper; try exact Hp; done.
Qed.

Lemma prepare_spares a imgs classes st r st' :
  Forall (fun p => Pathlib.is_name (Pathlib.name p)) imgs ->
  Prepare.prepare a imgs classes st = (r, st') ->
  spares (Prepare.arg_dest a) st st'.
Proof.
  intros Hn. unfold Prepare.prepare. unfold bind at 1.
  destruct (Prepare.prepare_dirs _ st) as [[e|[]] st1] eqn:E1;
    apply prepare_dirs_adds, adds_keeps, (keeps_spares (Prepare.arg_dest a)) in E1.
  { by intros [= <- <-]. }
  unfold bind at 1.
  destruct (Prepare.split _ _ _) as [e|[val_imgs train_imgs]] eqn:Hs.
  { by intros [= <- <-]. }
  apply split_permutation in Hs as Hperm.
  rewrite <- Hperm in Hn. apply Forall_app in Hn as [Hv Ht].
  unfold lift, ret at 1. unfold bind at 1.
  destruct (Prepare.copy_pairs train_imgs _ _ st1) as [[e|train] st2] eqn:E2;
    apply copy_pairs_spares in E2; try done; try decided.
  { intros [= <- <-]. by eapply spares_trans. }
  unfold bind at 1.
  destruct (Prepare.copy_pairs val_imgs _ _ st2) as [[e|val] st3] eqn:E3;
    apply copy_pairs_spares in E3; try done; try decided.
  { intros [= <- <-]. eauto using spares_trans. }
  unfold bind at 1.
  destruct (Prepare.write_data_yaml _ _ _ st3) as [[e|[]] st4] eqn:E4;
    apply write_changes in E4 as [E4 _];
    (apply (changes_spares (Prepare.arg_dest a)) in E4;
      [|intros k ->; rewrite joinpath_name by decided;
        by apply (below_deeper _ ["data.yaml"])]).
  { intros [= <- <-]. eauto using spares_trans. }
  destruct (summary_run (Prepare.arg_dest a) (length imgs) train.1 val.1 train.2 val.2 st4)
    as (lines & -> & _).
  intros [= <- <-]. intros k x Hk Hb. simpl.
  eapply E4; [|done]. eapply E3; [|done]. eapply E2; [|done]. by eapply E1.
Qed.

(** X8.  Whatever the outcome of a run, and when the entries of the source
    have the names of directory entries, no file or directory that is not
    below the destination is changed or removed: the source is only read. *)
Theorem main_spares a st r st' :
  (forall q, OS.is_child (Prepare.arg_src a) q -> is_Some (fs st !! q) ->
             Pathlib.is_name (Pathlib.name q)) ->
  Prepare.main a st = (r, st') ->
  forall k x, fs st !! k = Some x -> ~ below (Prepare.arg_dest a) k -> fs st' !! k = Some x.
Proof.
  intros Hnames. unfold Prepare.main.
  unfold bind at 1, print at 1. unfold bind at 1, print at 1. cbn [fs stdout].
  unfold bind at 1. rewrite find_images_cases. cbn [fs stdout].
  destruct (fs st !! Prepare.arg_src a) as [[c|]|]; try (by intros [= <- <-]).
  set (imgs := filter Prepare.is_image (OS.children (fs st) (Prepare.arg_src a))).
  assert (Forall (fun p => Pathlib.is_name (Pathlib.name p)) imgs) as Hn.
  { apply Forall_forall. intros q [_ [Hc Hs]%elem_of_children]%list_elem_of_filter. auto. }
  destruct imgs as [|img imgs]; [by intros [= <- <-]|].
  unfold bind at 1. rewrite read_classes_cases. cbn [fs stdout].
  destruct (fs st !! (Prepare.arg_src a // "classes.txt")) as [[text|]|];
    try (by intros [= <- <-]).
  - destruct (PyStr.decode text) as [t|]; [|by intros [= <- <-]].
    unfold ret at 1. intros Hrun%prepare_spares; [|done]. exact Hrun.
  - unfold bind at 1 2, print at 1, ret at 1. cbn [fs stdout].
    intros Hrun%prepare_spares; [|done]. exact Hrun.
Qed.

End Failures.

(** ** Saving the detections *)

Section DetectMore.
Context `{Vision}.

(** [cv2.imwrite] either raises from the encoder, writes the whole file, or
    reports that it could not and leaves everything as it was. *)
Lemma imwrite_run s img st :
  Detect.imwrite s img st =
    match imencode s img with
    | inl e => (inl e, st)
    | inr data =>
        if decide (writable (fs st) (Pathlib.parse s))
        then (inr true, State (<[Pathlib.parse s := File data]> (fs st)) (stdout st))
        else (inr false, st)
    end.
Proof.
  unfold Detect.imwrite, lift, catch, OS.write. run.
  destruct (imencode s img) as [e|data]; [done|].
  destruct st as [m o]. simpl.
  destruct (decide (writable m (Pathlib.parse s))) as [[Hp Hpp]|Hno].
  - rewrite Hpp. by destruct (m !! Pathlib.parse s) as [[c|]|].
  - unfold writable in Hno.
    destruct (m !! Pathlib.parse s) as [[c|]|];
      destruct (m !! Pathlib.parent (Pathlib.parse s)) as [[c'|]|];
      try done; by destruct Hno.
Qed.

Lemma print_all_run {A} (f : A -> string) (l : list A) st :
  for_each (fun _ b => print (f b)) l tt st
    = (inr tt, State (fs st) (stdout st ++ (f <$> l))).
Proof.
  revert st. induction l as [|b l IH]; intros st; cbn [for_each].
  - unfold ret. rewrite app_nil_r. by destruct st.
  - unfold bind, print at 1. rewrite IH. simpl. by rewrite <- app_assoc.
Qed.

(** A run of [detect_and_save], from the outcome of the detection. *)
Lemma detect_and_save_run image_path output_path model_path conf st :
  Detect.detect_and_save image_path output_path model_path conf st =
    let out := output_of image_path output_path in
    match (Detect.detect_and_annotate image_path model_path conf st).1 with
    | inl e => (inl e, st)
    | inr (img, res) =>
        match imencode out img with
        | inl e => (inl e, st)
        | inr data =>
            (inr (out, res),
             State (if decide (writable (fs st) (Pathlib.parse out))
                    then <[Pathlib.parse out := File data]> (fs st) else fs st)
                   (stdout st ++ saved_lines image_path out res))
        end
    end.
Proof.
  unfold Detect.detect_and_save. fold (output_of image_path output_path).
  cbv zeta. generalize (output_of image_path output_path). intros out.
  unfold bind at 1.
  pose proof (detect_and_annotate_state image_path model_path conf st) as Hst.
  destruct (Detect.detect_and_annotate _ _ _ st) as [[e|[img res]] st1];
    simpl in Hst; subst st1; [done|]. cbn [fst].
  unfold bind at 1. rewrite imwrite_run.
  destruct (imencode out img) as [e|data]; [done|].
  unfold saved_lines.
  destruct (decide (writable _ _)).
  - unfold bind at 1, print at 1. unfold bind at 1. rewrite print_all_run.
    unfold bind, print, ret. cbn [fs stdout]. by rewrite <- !app_assoc.
  - unfold bind at 1, print at 1. unfold bind at 1. rewrite print_all_run.
    unfold bind, print, ret. cbn [fs stdout]. by rewrite <- !app_assoc.
Qed.

(** X9.  An exception from [detect_and_save] comes before anything is
    written or printed: the file system and the output are as they were. *)
Theorem detect_and_save_raises image_path output_path model_path conf st e st' :
  Detect.detect_and_save image_path output_path model_path conf st = (inl e, st') ->
  st' = st /\
  ((Detect.detect_and_annotate image_path model_path conf st).1 = inl e \/
   exists img res,
     (Detect.detect_and_annotate image_path model_path conf st).1 = inr (img, res) /\
     imencode (output_of image_path output_path) img = inl e).
Proof.
  rewrite detect_and_save_run. cbv zeta.
  destruct (Detect.detect_and_annotate _ _ _ st).1 as [e'|[img res]].
  - intros [= <- <-]. auto.
  - destruct (imencode _ img) as [e'|data] eqn:He; [|done].
    intros [= <- <-]. split; [done|]. right. by exists img, res.
Qed.

(** X10.  A run of [main] that ends has printed the line of the count, one
    line for each box and the line of the saved path, and has changed the
    file system at the output path at most: there is the encoded image, or
    nothing was written at all. *)
Theorem detect_main_writes a st st' :
  DetectCli.main a st = (inr tt, st') ->
  let out := output_of (DetectCli.arg_image a) (DetectCli.arg_output a) in
  exists img res data,
    (Detect.detect_and_annotate (DetectCli.arg_image a) (DetectCli.arg_model a)
       (DetectCli.arg_conf a) st).1 = inr (img, res) /\
    imencode out img = inr data /\
    stdout st' = stdout st ++ saved_lines (DetectCli.arg_image a) out res /\
    (if decide (writable (fs st) (Pathlib.parse out))
     then fs st' = <[Pathlib.parse out := File data]> (fs st)
     else fs st' = fs st).
Proof.
  unfold DetectCli.main. unfold bind at 1. rewrite detect_and_save_run. cbv zeta.
  destruct (Detect.detect_and_annotate _ _ _ st).1 as [e'|[img res]]; [done|].
  destruct (imencode _ img) as [e'|data] eqn:He; [done|].
  unfold ret. intros [= <-]. exists img, res, data. cbn [fs stdout].
  split_and!; try done. by destruct (decide _).
Qed.

(** X11.  When no file can be opened at the output path, for want of the
    directory or because a directory stands there, [detect_and_save] still
    returns the path and prints that it saved to it: the result of
    [cv2.imwrite] is not looked at, and nothing is written. *)
Theorem detect_and_save_unsaved image_path output_path model_path conf st img res data :
  Detect.detect_and_annotate image_path model_path conf st = (inr (img, res), st) ->
  imencode (output_of image_path output_path) img = inr data ->
  ~ writable (fs st) (Pathlib.parse (output_of image_path output_path)) ->
  exists st',
    Detect.detect_and_save image_path output_path model_path conf st
      = (inr (output_of image_path output_path, res), st') /\
    fs st' = fs st /\
    List.last (stdout st') ""
      = Detect.floppy_disk +:+ " Saved to: " +:+ output_of image_path output_path +:+ newline.
Proof.
  intros Hd He Hw. rewrite detect_and_save_run. cbv zeta. rewrite Hd. cbn [fst].
  rewrite He, decide_False by done. eexists. split; [done|]. cbn [fs stdout].
  split; [done|]. unfold saved_lines.
  by rewrite !app_assoc, List.last_last.
Qed.

(** X12.  With a model that loads, a local path at which there is no file,
    or a file that does not decode, makes [detect_and_save] raise
    [ValueError], with nothing written or printed. *)
Theorem detect_and_save_unreadable image_path output_path model_path conf st m :
  Detect.is_url image_path = false ->
  load_model model_path = inr m ->
  (forall c img, fs st !! Pathlib.parse image_path = Some (File c) ->
                 imdecode c <> inr (Some img)) ->
  Detect.detect_and_save image_path output_path model_path conf st = (inl ValueError, st).
Proof.
  intros Hurl Hm Hno. rewrite detect_and_save_run. cbv zeta.
  unfold Detect.detect_and_annotate, Detect.imread, lift. rewrite Hurl, Hm. run.
  destruct (fs st !! Pathlib.parse image_path) as [[c|]|] eqn:Hp; try done.
  specialize (Hno c).
  destruct (imdecode c) as [e|[img|]]; try done. by destruct (Hno img).
Qed.

(** X13.  With a model that loads, a URL whose answer is not an error
    status and whose body does not decode to an image makes
    [detect_and_save] raise [ValueError], with nothing written or printed. *)
Theorem detect_and_save_undecodable url output_path model_path conf st m status content :
  Detect.is_url url = true ->
  load_model model_path = inr m ->
  http_get url = Reply status content ->
  ~ (400 <= status < 600)%Z ->
  imdecode content = inr None ->
  Detect.detect_and_save url output_path model_path conf st = (inl ValueError, st).
Proof.
  intros Hurl Hm Hget Hs Hdec. rewrite detect_and_save_run. cbv zeta.
  unfold Detect.detect_and_annotate, Detect.load_image_from_url,
    Detect.raise_for_status, lift.
  rewrite Hurl, Hm, Hget. run.
  destruct (_ && _) eqn:Hb.
  - apply andb_true_iff in Hb as [?%Z.leb_le ?%Z.ltb_lt]. lia.
  - by rewrite Hdec.
Qed.

End DetectMore.

(** ** A whole run *)

Section Completes.
Context `{PyRuntime}.

Lemma write_run p c st :
  fs st !! p <> Some Dir -> fs st !! Pathlib.parent p = Some Dir ->
  OS.write p c st = (inr tt, State (<[p := File c]> (fs st)) (stdout st)).
Proof. unfold OS.write. run. intros Hp ->. by destruct (fs st !! p) as [[]|]. Qed.

Lemma layout_prefix dest d :
  d ∈ layout dest -> dest `prefix_of` d /\ length d <= length dest + 2.
Proof.
  unfold layout. intros Hd.
  repeat (apply elem_of_cons in Hd as [->|Hd]); try (by apply elem_of_nil in Hd);
    (split; [first [reflexivity | by apply prefix_app_r]|rewrite ?length_app; simpl; lia]).
Qed.

Lemma image_copy_eq dest part p :
  image_copy dest part p = (dest ++ ["images"; part]) ++ [Pathlib.name p].
Proof. unfold image_copy. by rewrite <- app_assoc. Qed.

Lemma label_copy_eq dest part p :
  label_copy dest part p = (dest ++ ["labels"; part]) ++ [Pathlib.stem p +:+ ".txt"].
Proof. unfold label_copy. by rewrite <- app_assoc. Qed.

Lemma copies_prefix dest part p :
  dest `prefix_of` image_copy dest part p /\ dest `prefix_of` label_copy dest part p /\
  length (image_copy dest part p) = length dest + 3 /\
  length (label_copy dest part p) = length dest + 3.
Proof.
  unfold image_copy, label_copy. rewrite !length_app. simpl.
  split_and!; try lia; by apply prefix_app_r.
Qed.

(** One call of [copy_pairs] in a run: the images are outside the
    destination, and their places in it are free. *)
Lemma copy_part_run dest src part pairs st0 s :
  Pathlib.is_name part ->
  fs st0 !! src = Some Dir ->
  (forall k, dest `prefix_of` k -> fs st0 !! k = None) ->
  (forall k, ~ dest `prefix_of` k -> fs s !! k = fs st0 !! k) ->
  fs s !! (dest ++ ["images"; part]) = Some Dir ->
  fs s !! (dest ++ ["labels"; part]) = Some Dir ->
  (forall x, fs s !! (dest ++ ["images"; part; x]) = None) ->
  (forall x, fs s !! (dest ++ ["labels"; part; x]) = None) ->
  Forall (fun p => OS.is_child src p /\ ready (fs st0) dest src p) pairs ->
  exists r s',
    Prepare.copy_pairs pairs (dest // "images" // part) (dest // "labels" // part) s
      = (inr r, s') /\
    stdout s' = stdout s /\
    (forall p, p ∈ pairs -> fs s' !! image_copy dest part p = fs st0 !! p) /\
    (forall p, p ∈ pairs -> ~ unlabelled (fs st0) src p ->
       fs s' !! label_copy dest part p = fs st0 !! label_of src p) /\
    (forall k,
       (forall p, p ∈ pairs -> k <> image_copy dest part p /\ k <> label_copy dest part p) ->
       fs s' !! k = fs s !! k).
Proof.
  intros Hpart Hsrc Hnew Hout Hi Hl Hfi Hfl Hall.
  rewrite !join2 by (done || decided).
  assert (forall l, dest ++ l <> src) as Hne.
  { intros l Heq. rewrite <- Heq, Hnew in Hsrc; [done|by apply prefix_app_r]. }
  assert (forall p, OS.is_child src p /\ ready (fs st0) dest src p ->
            fs s !! p = fs st0 !! p /\ fs s !! label_of src p = fs st0 !! label_of src p)
    as Hsame.
  { intros p (Hc & Hn & [c Hp] & Hlab & Hld). split; apply Hout.
    - intros Hpre. by rewrite Hnew in Hp.
    - unfold label_of. intros [Heq|Hpre]%prefix_snoc_inv; [by apply Hld|].
      by rewrite Hnew in Hsrc. }
  destruct (copy_loop_run (dest ++ ["images"; part]) (dest ++ ["labels"; part]) src
              (Hne _) (Hne _) ltac:(key_ne) pairs 0 [] s Hi Hl)
    as (s' & E & Ho & Fi & Fl & Ff).
  { eapply Forall_impl; [exact Hall|]. intros p Hp.
    destruct (Hsame p Hp) as [Hp1 Hp2].
    destruct Hp as (Hc & Hn & [c Hpc] & Hlab & Hld).
    unfold copyable. rewrite Hp1, Hp2. split_and!; eauto.
    - rewrite <- app_assoc. cbn [app]. by rewrite Hfi.
    - rewrite <- app_assoc. cbn [app]. by rewrite Hfl. }
  eexists _, s'. split; [exact E|]. split; [done|]. split_and!.
  - intros p Hp. rewrite image_copy_eq, (Fi p Hp).
    eapply Forall_forall in Hall; [|exact Hp]. by apply Hsame.
  - intros p Hp Hlab. eapply Forall_forall in Hall; [|exact Hp].
    destruct (Hsame p Hall) as [_ Hp2].
    rewrite label_copy_eq, (Fl p Hp); [done|]. unfold unlabelled in *. by rewrite Hp2.
  - intros k Hk. apply Ff. intros p Hp. rewrite <- image_copy_eq, <- label_copy_eq. auto.
Qed.

Lemma short_not_copy dest part p k :
  length k <= length dest + 2 -> k <> image_copy dest part p /\ k <> label_copy dest part p.
Proof.
  destruct (copies_prefix dest part p) as (_ & _ & H1 & H2).
  intros Hk. split; intros ->; lia.
Qed.

Lemma outside_not_copy dest part p k :
  ~ dest `prefix_of` k -> k <> image_copy dest part p /\ k <> label_copy dest part p.
Proof.
  destruct (copies_prefix dest part p) as (H1 & H2 & _).
  intros Hk. split; by intros ->.
Qed.

(** [prepare] on a new destination. *)
Lemma prepare_completes a base n imgs classes st val_imgs train_imgs :
  Prepare.arg_dest a = base ++ [n] ->
  Pathlib.is_name n ->
  fs st !! base = Some Dir ->
  (forall k, (base ++ [n]) `prefix_of` k -> fs st !! k = None) ->
  fs st !! Prepare.arg_src a = Some Dir ->
  Forall (fun p => OS.is_child (Prepare.arg_src a) p /\
                   ready (fs st) (base ++ [n]) (Prepare.arg_src a) p) imgs ->
  Prepare.split imgs (Prepare.arg_val a) (rng_seed (Prepare.arg_seed a))
    = inr (val_imgs, train_imgs) ->
  exists st',
    Prepare.prepare a imgs classes st = (inr tt, st') /\
    (forall p, p ∈ train_imgs -> fs st' !! image_copy (base ++ [n]) "train" p = fs st !! p) /\
    (forall p, p ∈ val_imgs -> fs st' !! image_copy (base ++ [n]) "val" p = fs st !! p) /\
    (forall p, p ∈ train_imgs -> ~ unlabelled (fs st) (Prepare.arg_src a) p ->
       fs st' !! label_copy (base ++ [n]) "train" p
         = fs st !! label_of (Prepare.arg_src a) p) /\
    (forall p, p ∈ val_imgs -> ~ unlabelled (fs st) (Prepare.arg_src a) p ->
       fs st' !! label_copy (base ++ [n]) "val" p
         = fs st !! label_of (Prepare.arg_src a) p) /\
    fs st' !! ((base ++ [n]) ++ ["data.yaml"])
      = Some (File (Prepare.data_yaml (base ++ [n]) (length classes) classes)) /\
    (forall d, d ∈ layout (base ++ [n]) -> fs st' !! d = Some Dir) /\
    (forall k, made (base ++ [n]) train_imgs val_imgs k \/ fs st' !! k = fs st !! k).
Proof.
  intros Hdest Hn Hbase Hnew Hsrc Hall Hsplit.
  set (dest := base ++ [n]) in *. set (src := Prepare.arg_src a) in *.
  pose proof (split_permutation _ _ _ _ _ Hsplit) as Hperm.
  assert (Forall (fun p => OS.is_child src p /\ ready (fs st) dest src p)
            (val_imgs ++ train_imgs)) as Hboth by (by rewrite Hperm).
  apply Forall_app in Hboth as [Hval Htrain].
  destruct (prepare_dirs_fresh base n st Hn Hbase Hnew) as (st1 & E1 & _ & F1).
  fold dest in E1, F1.
  assert (forall l, fs st !! (dest ++ l) = None) as Hnone
    by (intros l; apply Hnew; by apply prefix_app_r).
  assert (forall k, ~ dest `prefix_of` k -> fs st1 !! k = fs st !! k) as Hout1.
  { intros k Hk. rewrite F1. rewrite decide_False; [done|].
    by intros [? _]%layout_prefix. }
  assert (forall d, d ∈ layout dest -> fs st1 !! d = Some Dir) as Hlay1.
  { intros d Hd. rewrite F1. by rewrite decide_True. }
  assert (forall l, 3 <= length l -> fs st1 !! (dest ++ l) = None) as Hdeep1.
  { intros l Hl. rewrite F1, decide_False; [apply Hnone|].
    intros [_ Hlen]%layout_prefix. rewrite length_app in Hlen. lia. }
  (* the train part *)
  destruct (copy_part_run dest src "train" train_imgs st st1 ltac:(decided) Hsrc Hnew Hout1)
    as (train & st2 & E2 & _ & Ti & Tl & Tf); try done.
  { apply Hlay1. listed. }
  { apply Hlay1. listed. }
  { intros x. apply Hdeep1. simpl. lia. }
  { intros x. apply Hdeep1. simpl. lia. }
  (* the val part *)
  destruct (copy_part_run dest src "val" val_imgs st st2 ltac:(decided) Hsrc Hnew)
    as (val & st3 & E3 & _ & Vi & Vl & Vf); try done.
  { intros k Hk. rewrite Tf; [by apply Hout1|]. intros p _. by apply outside_not_copy. }
  { rewrite Tf; [apply Hlay1; listed|]. intros p _. apply short_not_copy.
    rewrite length_app. simpl. lia. }
  { rewrite Tf; [apply Hlay1; listed|]. intros p _. apply short_not_copy.
    rewrite length_app. simpl. lia. }
  { intros x. rewrite Tf; [apply Hdeep1; simpl; lia|].
    intros p _. unfold image_copy, label_copy. split; key_ne. }
  { intros x. rewrite Tf; [apply Hdeep1; simpl; lia|].
    intros p _. unfold image_copy, label_copy. split; key_ne. }
  (* the manifest *)
  assert (forall k, length k <= length dest + 2 -> fs st3 !! k = fs st1 !! k) as Hshort.
  { intros k Hk. rewrite Vf by (intros p _; by apply short_not_copy).
    apply Tf. intros p _. by apply short_not_copy. }
  assert (dest ++ ["data.yaml"] ∉ layout dest) as Hyl.
  { unfold layout. intros Hin. apply list_elem_of_In in Hin. simpl in Hin.
    destruct Hin as [Hin|[Hin|[Hin|[Hin|[Hin|[Hin|[Hin|[]]]]]]]]; symmetry in Hin;
      revert Hin; key_ne. }
  assert (Prepare.write_data_yaml dest (length classes) classes st3
          = (inr tt, State (<[dest ++ ["data.yaml"] :=
                                File (Prepare.data_yaml dest (length classes) classes)]>
                              (fs st3)) (stdout st3))) as E4.
  { unfold Prepare.write_data_yaml. rewrite joinpath_name by decided.
    apply write_run.
    - rewrite Hshort by (rewrite length_app; simpl; lia).
      rewrite F1, decide_False by done. by rewrite Hnone.
    - rewrite parent_snoc by decided. rewrite Hshort by lia. apply Hlay1. listed. }
  destruct (summary_run dest (length imgs) train.1 val.1 train.2 val.2
              (State (<[dest ++ ["data.yaml"] :=
                          File (Prepare.data_yaml dest (length classes) classes)]>
                        (fs st3)) (stdout st3)))
    as (lines & E5 & _).
  eexists. split.
  { unfold Prepare.prepare. rewrite Hdest. fold dest. unfold bind at 1. rewrite E1.
    unfold bind at 1. fold src. rewrite Hsplit. unfold lift, ret at 1.
    unfold bind at 1. rewrite E2. unfold bind at 1. rewrite E3.
    unfold bind at 1. rewrite E4. exact E5. }
  cbn [fs].
  assert (forall part p, dest ++ ["data.yaml"] <> image_copy dest part p /\
                         dest ++ ["data.yaml"] <> label_copy dest part p) as Hyc.
  { intros part p. apply short_not_copy. rewrite length_app. simpl. lia. }
  split_and!.
  - intros p Hp. rewrite lookup_insert_ne by apply Hyc.
    rewrite Vf; [by apply Ti|]. intros q _. unfold image_copy, label_copy. split; key_ne.
  - intros p Hp. rewrite lookup_insert_ne by apply Hyc. by apply Vi.
  - intros p Hp Hlab. rewrite lookup_insert_ne by apply Hyc.
    rewrite Vf; [by apply Tl|]. intros q _. unfold image_copy, label_copy. split; key_ne.
  - intros p Hp Hlab. rewrite lookup_insert_ne by apply Hyc. by apply Vl.
  - by rewrite lookup_insert_eq.
  - intros d Hd. destruct (layout_prefix dest d Hd) as [_ Hlen].
    rewrite lookup_insert_ne by (by intros <-).
    rewrite Hshort by done. by apply Hlay1.
  - intros k.
    destruct (decide (k = dest ++ ["data.yaml"])) as [->|Hk1]; [left; right; by left|].
    rewrite lookup_insert_ne by done.
    destruct (decide (Exists (fun p => k = image_copy dest "val" p \/
                                       k = label_copy dest "val" p) val_imgs))
      as [(p & Hp & Hk)%Exists_exists|Hk2].
    { left. right. right. right. by exists p. }
    rewrite Vf.
    2: { intros p Hp. split; intros Hk; apply Hk2, Exists_exists; exists p; auto. }
    destruct (decide (Exists (fun p => k = image_copy dest "train" p \/
                                       k = label_copy dest "train" p) train_imgs))
      as [(p & Hp & Hk)%Exists_exists|Hk3].
    { left. right. right. left. by exists p. }
    rewrite Tf.
    2: { intros p Hp. split; intros Hk; apply Hk3, Exists_exists; exists p; auto. }
    rewrite F1. destruct (decide (k ∈ layout dest)); [left; by left|by right].
Qed.



(** X15.  On a source directory whose images are files with entry names
    and whose labels are no directories, and with a destination that does
    not exist yet under a directory that does, a run of [main] with a
    fraction that splits ends without an exception.  Every train image and
    every validation image is then under [images/train] or [images/val]
    with its content, every label there is under [labels/train] or
    [labels/val], [data.yaml] holds the manifest of the class names, the
    seven directories are there, and every path that is none of these is as
    it was. *)
Theorem main_completes a base n st val_imgs train_imgs :
  Prepare.arg_dest a = base ++ [n] ->
  Pathlib.is_name n ->
  fs st !! base = Some Dir ->
  (forall k, (base ++ [n]) `prefix_of` k -> fs st !! k = None) ->
  fs st !! Prepare.arg_src a = Some Dir ->
  classes_readable (fs st) (Prepare.arg_src a) ->
  filter Prepare.is_image (OS.children (fs st) (Prepare.arg_src a)) <> [] ->
  Forall (ready (fs st) (base ++ [n]) (Prepare.arg_src a))
    (filter Prepare.is_image (OS.children (fs st) (Prepare.arg_src a))) ->
  Prepare.split (filter Prepare.is_image (OS.children (fs st) (Prepare.arg_src a)))
    (Prepare.arg_val a) (rng_seed (Prepare.arg_seed a)) = inr (val_imgs, train_imgs) ->
  exists st',
    Prepare.main a st = (inr tt, st') /\
    (forall p, p ∈ train_imgs -> fs st' !! image_copy (base ++ [n]) "train" p = fs st !! p) /\
    (forall p, p ∈ val_imgs -> fs st' !! image_copy (base ++ [n]) "val" p = fs st !! p) /\
    (forall p, p ∈ train_imgs -> ~ unlabelled (fs st) (Prepare.arg_src a) p ->
       fs st' !! label_copy (base ++ [n]) "train" p
         = fs st !! label_of (Prepare.arg_src a) p) /\
    (forall p, p ∈ val_imgs -> ~ unlabelled (fs st) (Prepare.arg_src a) p ->
       fs st' !! label_copy (base ++ [n]) "val" p
         = fs st !! label_of (Prepare.arg_src a) p) /\
    fs st' !! ((base ++ [n]) ++ ["data.yaml"])
      = Some (File (Prepare.data_yaml (base ++ [n])
                      (length (classes_of (fs st) (Prepare.arg_src a)))
                      (classes_of (fs st) (Prepare.arg_src a)))) /\
    (forall d, d ∈ layout (base ++ [n]) -> fs st' !! d = Some Dir) /\
    (forall k, made (base ++ [n]) train_imgs val_imgs k \/ fs st' !! k = fs st !! k).
Proof.
  intros Hdest Hn Hbase Hnew Hsrc Hcls Hsome Hready Hsplit.
  set (imgs := filter Prepare.is_image (OS.children (fs st) (Prepare.arg_src a))) in *.
  assert (Forall (fun p => OS.is_child (Prepare.arg_src a) p /\
                           ready (fs st) (base ++ [n]) (Prepare.arg_src a) p) imgs) as Hall.
  { apply Forall_forall. intros p Hp. split; [|by eapply Forall_forall in Hready].
    apply list_elem_of_filter in Hp as [_ Hp]. by apply elem_of_children in Hp as [Hp _]. }
  unfold Prepare.main.
  unfold bind at 1, print at 1. unfold bind at 1, print at 1. cbn [fs stdout].
  unfold bind at 1. rewrite find_images_cases. cbn [fs stdout]. rewrite Hsrc.
  fold imgs. destruct imgs as [|img rest] eqn:Himgs; [done|]. rewrite <- Himgs in *.
  unfold bind at 1. rewrite read_classes_cases. cbn [fs stdout].
  rewrite joinpath_name by decided. rewrite classes_of_lines.
  unfold classes_readable in Hcls.
  destruct (fs st !! (Prepare.arg_src a ++ ["classes.txt"])) as [[text|]|]; [|done|].
  - destruct Hcls as [t Ht]. rewrite Ht. unfold ret at 1.
    exact (prepare_completes a base n imgs _ (State (fs st) _) val_imgs train_imgs
             Hdest Hn Hbase Hnew Hsrc Hall Hsplit).
  - unfold bind at 1 2, print at 1, ret at 1. cbn [fs stdout].
    exact (prepare_completes a base n imgs _ (State (fs st) _) val_imgs train_imgs
             Hdest Hn Hbase Hnew Hsrc Hall Hsplit).
Qed.

End Completes.

(** ** The class names *)

Section ClassNames.

(** X14.  [read_classes] changes nothing, and the names it returns are
    clean: none is empty, none begins or ends with white space, and none
    holds a line boundary. *)
Theorem read_classes_names src st names st' :
  Prepare.read_classes src st = (inr (Some names), st') ->
  st' = st /\
  forall n, n ∈ names ->
    n <> [] /\
    (forall c, head n = Some c -> PyStr.is_space c = false) /\
    (forall c, last n = Some c -> PyStr.is_space c = false) /\
    (forall c, c ∈ n -> PyStr.is_linebreak c = false).
Proof.
  rewrite read_classes_cases.
  destruct (fs st !! (src // "classes.txt")) as [[bytes|]|]; try done.
  destruct (PyStr.decode bytes) as [t|]; [|done].
  intros [= <- <-]. split; [done|].
  intros n (l & -> & [Hl Hin]%list_elem_of_filter)%list_elem_of_fmap.
  destruct (strip_ends l) as (Hhead & Hlast). split_and!; try done.
  - by rewrite strip_blank.
  - intros c Hc. apply lines_no_break in Hin.
    destruct (strip_split l) as (pre & post & Heq & _).
    eapply Forall_forall in Hin; [exact Hin|].
    rewrite Heq, !elem_of_app. auto.
Qed.

End ClassNames.

(** ** Copying in place and detecting without saving *)

Section InPlace.

(** X16.  [copy_pairs] refuses to copy an image onto itself: when the
    images' destination is the directory of the first image, it raises
    [SameFileError] and nothing is changed. *)
Theorem copy_pairs_in_place img post idst ldst st c :
  OS.is_child idst img ->
  Pathlib.is_name (Pathlib.name img) ->
  fs st !! img = Some (File c) ->
  Prepare.copy_pairs (img :: post) idst ldst st = (inl SameFileError, st).
Proof.
  intros Hchild Hn Hc. unfold Prepare.copy_pairs. cbn [for_each]. unfold bind at 1.
  unfold Prepare.copy_pair. rewrite with_suffix_name by done.
  rewrite joinpath_name by done. rewrite <- (child_split idst img Hchild).
  unfold bind at 1. unfold copy2, copy2_target. unfold bind at 1, get_fs at 1.
  rewrite (decide_False (P := fs st !! img = Some Dir)) by (by rewrite Hc).
  rewrite decide_True; [done|]. split; [done|]. by rewrite Hc.
Qed.

End InPlace.

Section DetectReads.
Context `{Vision}.

(** X17.  [detect_and_annotate] only reads: whatever the outcome, the file
    system and the output are as they were; a model that does not load
    fails the call before the image is looked at; and the outcome depends
    on the file system through the file at the image path only, and for a
    URL not at all. *)
Theorem detect_and_annotate_reads image_path model_path conf st :
  (Detect.detect_and_annotate image_path model_path conf st).2 = st /\
  (forall e, load_model model_path = inl e ->
     (Detect.detect_and_annotate image_path model_path conf st).1 = inl e) /\
  (forall st2,
     Detect.is_url image_path = true \/
     fs st2 !! Pathlib.parse image_path = fs st !! Pathlib.parse image_path ->
     (Detect.detect_and_annotate image_path model_path conf st2).1
       = (Detect.detect_and_annotate image_path model_path conf st).1).
Proof.
  split; [apply detect_and_annotate_state|].
  unfold Detect.detect_and_annotate, Detect.load_image_from_url, Detect.imread,
    Detect.raise_for_status, lift.
  split.
  - intros e ->. done.
  - intros st2 Hsame. run. destruct (load_model model_path) as [e|m]; [done|].
    destruct (Detect.is_url image_path).
    + destruct (http_get image_path) as [|status content]; [done|].
      destruct (_ && _); [done|].
      destruct (imdecode content) as [e|[img|]]; try done.
      by destruct (predict m img conf).
    + destruct Hsame as [?| ->]; [done|].
      destruct (fs st !! Pathlib.parse image_path) as [[c|]|]; try done.
      destruct (imdecode c) as [e|[img|]]; try done.
      by destruct (predict m img conf).
Qed.

End DetectReads.

(** ** Runs on the samples *)

(** A property of every key of a map, from its list of entries. *)
Lemma all_entries (P : path -> Prop) (m : gmap path node) :
  Forall P (map_to_list m).*1 -> forall q, is_Some (m !! q) -> P q.
Proof.
  intros Hall q [x Hq]. eapply Forall_forall; [exact Hall|].
  apply list_elem_of_fmap. exists (q, x). split; [done|].
  by apply elem_of_map_to_list.
Qed.

Lemma no_entry_under (dest : path) (m : gmap path node) :
  Forall (fun q => ~ dest `prefix_of` q) (map_to_list m).*1 ->
  forall k, dest `prefix_of` k -> m !! k = None.
Proof.
  intros Hall k Hk. destruct (m !! k) as [x|] eqn:Hx; [|done].
  by destruct (all_entries _ m Hall k).
Qed.

Lemma prepare_dirs_only_adds_witness :
  stdout prepared = stdout (State sample_fs []) /\
  keeps (State sample_fs []) prepared /\
  (forall k, fs (State sample_fs []) !! k = None -> is_Some (fs prepared !! k) ->
     fs prepared !! k = Some Dir /\ exists d, d ∈ dest_dirs out /\ k `prefix_of` d) /\
  (@inr exn unit tt = inr tt -> forall d, d ∈ dest_dirs out -> fs prepared !! d = Some Dir) /\
  (forall d c, d ∈ dest_dirs out -> fs (State sample_fs []) !! d = Some (File c) ->
     exists e, @inr exn unit tt = inl e).
Proof.
  apply (prepare_dirs_only_adds out (State sample_fs []) (inr tt) prepared).
  vm_compute. reflexivity.
Defined.

Lemma prepare_dirs_again_witness :
  Prepare.prepare_dirs out prepared = (inr tt, prepared).
Proof.
  apply (prepare_dirs_again out prepared).
  apply Forall_forall. decided.
Defined.

Lemma prepare_dirs_new_witness :
  exists st',
    Prepare.prepare_dirs (["/"] ++ ["out"]) (State sample_fs []) = (inr tt, st') /\
    stdout st' = stdout (State sample_fs []) /\
    forall k, fs st' !! k =
      if decide (k ∈ layout (["/"] ++ ["out"])) then Some Dir
      else fs (State sample_fs []) !! k.
Proof.
  apply (prepare_dirs_new ["/"] "out" (State sample_fs [])).
  - decided.
  - vm_compute. reflexivity.
  - apply no_entry_under. decided.
Defined.

Lemma split_partition_witness :
  [raw ++ ["c.jpeg"]] ++ [b_png; a_jpg] ≡ₚ [a_jpg; b_png; raw ++ ["c.jpeg"]] /\
  (NoDup [a_jpg; b_png; raw ++ ["c.jpeg"]] ->
   forall p, p ∈ [raw ++ ["c.jpeg"]] -> p ∉ [b_png; a_jpg]).
Proof.
  apply (@split_partition lcg_runtime [a_jpg; b_png; raw ++ ["c.jpeg"]]
           (float_of_Z 1 (-2)) (rng_seed 42)).
  vm_compute. reflexivity.
Defined.

Lemma prepare_bad_fraction_witness :
  exists e,
    @Prepare.prepare lcg_runtime (Prepare.Args raw out S754_nan 42) [a_jpg] []
      (State sample_fs []) = (inl e, prepared) /\
    (e = ValueError \/ e = OverflowError).
Proof.
  apply (@prepare_bad_fraction lcg_runtime (Prepare.Args raw out S754_nan 42) [a_jpg] []
           (State sample_fs []) prepared).
  - exact I.
  - vm_compute. reflexivity.
Defined.

Lemma copy_pairs_run_witness :
  exists st',
    Prepare.copy_pairs [a_jpg; b_png] (out ++ ["images"; "train"]) (out ++ ["labels"; "train"])
      prepared
      = (inr (length [a_jpg; b_png],
              Pathlib.name <$> filter (unlabelled (fs prepared) raw) [a_jpg; b_png]), st') /\
    stdout st' = stdout prepared /\
    (forall p, p ∈ [a_jpg; b_png] ->
       fs st' !! ((out ++ ["images"; "train"]) ++ [Pathlib.name p]) = fs prepared !! p) /\
    (forall p, p ∈ [a_jpg; b_png] -> ~ unlabelled (fs prepared) raw p ->
       fs st' !! ((out ++ ["labels"; "train"]) ++ [Pathlib.stem p +:+ ".txt"])
         = fs prepared !! label_of raw p) /\
    (forall k,
       (forall p, p ∈ [a_jpg; b_png] ->
          k <> (out ++ ["images"; "train"]) ++ [Pathlib.name p] /\
          k <> (out ++ ["labels"; "train"]) ++ [Pathlib.stem p +:+ ".txt"]) ->
       fs st' !! k = fs prepared !! k).
Proof.
  apply (copy_pairs_run (out ++ ["images"; "train"]) (out ++ ["labels"; "train"]) raw).
  - decided.
  - decided.
  - decided.
  - vm_compute. reflexivity.
  - vm_compute. reflexivity.
  - repeat constructor; try decided; try (eexists; vm_compute; reflexivity).
Defined.

Lemma copy_pairs_stops_witness :
  Prepare.copy_pairs ([a_jpg] ++ (raw ++ ["z.jpg"]) :: [b_png])
    (out ++ ["images"; "train"]) (out ++ ["labels"; "train"]) prepared
  = (inl FileNotFoundError,
     (Prepare.copy_pairs [a_jpg] (out ++ ["images"; "train"]) (out ++ ["labels"; "train"])
        prepared).2).
Proof.
  apply (copy_pairs_stops [a_jpg] (raw ++ ["z.jpg"]) [b_png] _ _ prepared (1, [])).
  - vm_compute. reflexivity.
  - decided.
  - vm_compute. reflexivity.
Defined.

Lemma main_spares_witness :
  forall k x,
    fs (State sample_fs []) !! k = Some x ->
    ~ below (Prepare.arg_dest sample_args) k ->
    fs (@Prepare.main lcg_runtime sample_args (State sample_fs [])).2 !! k = Some x.
Proof.
  apply (@main_spares lcg_runtime sample_args (State sample_fs []) (inr tt)).
  - intros q Hq Hs. revert Hq.
    apply (all_entries (fun q => OS.is_child raw q -> Pathlib.is_name (Pathlib.name q))
             sample_fs); [decided|done].
  - vm_compute. reflexivity.
Defined.

Lemma detect_and_save_raises_witness :
  State cwd_fs [] = State cwd_fs [] /\
  ((@Detect.detect_and_annotate failing_vision "https://example.com/cat.jpg" "best.pt" two
      (State cwd_fs [])).1 = inl HTTPError \/
   exists img res,
     (@Detect.detect_and_annotate failing_vision "https://example.com/cat.jpg" "best.pt" two
        (State cwd_fs [])).1 = inr (img, res) /\
     @imencode failing_vision (@output_of failing_vision "https://example.com/cat.jpg" None) img
       = inl HTTPError).
Proof.
  apply (@detect_and_save_raises failing_vision "https://example.com/cat.jpg" None "best.pt"
           two (State cwd_fs []) HTTPError (State cwd_fs [])).
  vm_compute. reflexivity.
Defined.

Lemma detect_main_writes_witness :
  let a := @DetectCli.Args "photos/cat.jpg" None "best.pt" two in
  let st := State cwd_fs [] in
  let st' := (@DetectCli.main redirecting_vision a st).2 in
  let out := @output_of redirecting_vision (DetectCli.arg_image a) (DetectCli.arg_output a) in
  exists img res data,
    (@Detect.detect_and_annotate redirecting_vision (DetectCli.arg_image a)
       (DetectCli.arg_model a) (DetectCli.arg_conf a) st).1 = inr (img, res) /\
    @imencode redirecting_vision out img = inr data /\
    stdout st' = stdout st ++ @saved_lines redirecting_vision (DetectCli.arg_image a) out res /\
    (if decide (writable (fs st) (Pathlib.parse out))
     then fs st' = <[Pathlib.parse out := File data]> (fs st)
     else fs st' = fs st).
Proof.
  intros a st st'.
  apply (@detect_main_writes redirecting_vision a st st').
  vm_compute. reflexivity.
Defined.

Lemma detect_and_save_unsaved_witness :
  exists st',
    @Detect.detect_and_save redirecting_vision "photos/cat.jpg" (Some "albums/out.jpg")
      "best.pt" two (State cwd_fs [])
      = (inr (@output_of redirecting_vision "photos/cat.jpg" (Some "albums/out.jpg"), "JFIF"),
         st') /\
    fs st' = fs (State cwd_fs []) /\
    List.last (stdout st') ""
      = Detect.floppy_disk +:+ " Saved to: "
        +:+ @output_of redirecting_vision "photos/cat.jpg" (Some "albums/out.jpg") +:+ newline.
Proof.
  apply (@detect_and_save_unsaved redirecting_vision "photos/cat.jpg" (Some "albums/out.jpg")
           "best.pt" two (State cwd_fs []) "JFIF" "JFIF" "JFIF").
  - vm_compute. reflexivity.
  - reflexivity.
  - decided.
Defined.

Lemma detect_and_save_unreadable_witness :
  @Detect.detect_and_save redirecting_vision "photos/dog.jpg" None "best.pt" two
    (State cwd_fs []) = (inl ValueError, State cwd_fs []).
Proof.
  apply (@detect_and_save_unreadable redirecting_vision "photos/dog.jpg" None "best.pt" two
           (State cwd_fs []) tt).
  - reflexivity.
  - reflexivity.
  - intros c img Hc. vm_compute in Hc. discriminate.
Defined.

Lemma detect_and_save_undecodable_witness :
  @Detect.detect_and_save blank_vision "https://example.com/cat.jpg" None "best.pt" two
    (State cwd_fs []) = (inl ValueError, State cwd_fs []).
Proof.
  apply (@detect_and_save_undecodable blank_vision "https://example.com/cat.jpg" None
           "best.pt" two (State cwd_fs []) tt 200%Z "").
  - reflexivity.
  - reflexivity.
  - reflexivity.
  - lia.
  - reflexivity.
Defined.

Lemma read_classes_names_witness :
  State sample_fs [] = State sample_fs [] /\
  forall n, n ∈ [PyStr.points "cat"; PyStr.points "dog"] ->
    n <> [] /\
    (forall c, head n = Some c -> PyStr.is_space c = false) /\
    (forall c, last n = Some c -> PyStr.is_space c = false) /\
    (forall c, c ∈ n -> PyStr.is_linebreak c = false).
Proof.
  apply (read_classes_names raw (State sample_fs [])
           [PyStr.points "cat"; PyStr.points "dog"] (State sample_fs [])).
  vm_compute. reflexivity.
Defined.

Lemma main_completes_witness :
  let a := sample_args in
  let st := State sample_fs [] in
  let dest := ["/"] ++ ["out"] in
  let val_imgs := [raw ++ ["c.jpeg"]] in
  let train_imgs := [b_png; a_jpg] in
  exists st',
    @Prepare.main lcg_runtime a st = (inr tt, st') /\
    (forall p, p ∈ train_imgs -> fs st' !! image_copy dest "train" p = fs st !! p) /\
    (forall p, p ∈ val_imgs -> fs st' !! image_copy dest "val" p = fs st !! p) /\
    (forall p, p ∈ train_imgs -> ~ unlabelled (fs st) (Prepare.arg_src a) p ->
       fs st' !! label_copy dest "train" p = fs st !! label_of (Prepare.arg_src a) p) /\
    (forall p, p ∈ val_imgs -> ~ unlabelled (fs st) (Prepare.arg_src a) p ->
       fs st' !! label_copy dest "val" p = fs st !! label_of (Prepare.arg_src a) p) /\
    fs st' !! (dest ++ ["data.yaml"])
      = Some (File (@Prepare.data_yaml lcg_runtime dest
                      (length (classes_of (fs st) (Prepare.arg_src a)))
                      (classes_of (fs st) (Prepare.arg_src a)))) /\
    (forall d, d ∈ layout dest -> fs st' !! d = Some Dir) /\
    (forall k, made dest train_imgs val_imgs k \/ fs st' !! k = fs st !! k).
Proof.
  intros a st dest val_imgs train_imgs.
  apply (@main_completes lcg_runtime a ["/"] "out" st val_imgs train_imgs).
  - reflexivity.
  - decided.
  - vm_compute. reflexivity.
  - apply no_entry_under. decided.
  - vm_compute. reflexivity.
  - decided.
  - decided.
  - assert (filter Prepare.is_image (OS.children (fs st) (Prepare.arg_src a))
            = [a_jpg; raw ++ ["c.jpeg"]; b_png]) as -> by (vm_compute; reflexivity).
    repeat constructor; try decided; try (eexists; vm_compute; reflexivity).
  - vm_compute. reflexivity.
Defined.

Lemma copy_pairs_in_place_witness :
  Prepare.copy_pairs (a_jpg :: [b_png]) raw (out ++ ["labels"; "train"]) prepared
    = (inl SameFileError, prepared).
Proof.
  apply (copy_pairs_in_place a_jpg [b_png] raw (out ++ ["labels"; "train"]) prepared "A").
  - decided.
  - decided.
  - vm_compute. reflexivity.
Defined.

Lemma detect_and_annotate_reads_witness :
  let st := State cwd_fs [] in
  (@Detect.detect_and_annotate redirecting_vision "photos/cat.jpg" "best.pt" two st).2 = st /\
  (forall e, @load_model redirecting_vision "best.pt" = inl e ->
     (@Detect.detect_and_annotate redirecting_vision "photos/cat.jpg" "best.pt" two st).1
       = inl e) /\
  (forall st2,
     Detect.is_url "photos/cat.jpg" = true \/
     fs st2 !! Pathlib.parse "photos/cat.jpg" = fs st !! Pathlib.parse "photos/cat.jpg" ->
     (@Detect.detect_and_annotate redirecting_vision "photos/cat.jpg" "best.pt" two st2).1
       = (@Detect.detect_and_annotate redirecting_vision "photos/cat.jpg" "best.pt" two st).1).
Proof.
  intros st.
  apply (@detect_and_annotate_reads redirecting_vision "photos/cat.jpg" "best.pt" two st).
Defined.


